(** * TaXEaze: derived tax, yearly summary, record selection and exports

    A shallow embedding of the reporting core of the TaXEaze server:
    [DatabaseStorage.getReceipts] and [DatabaseStorage.getReceiptStats]
    (server/storage.ts), and of the parts of the three route handlers
    [GET /api/receipts], [GET /api/receipts/export] and
    [GET /api/receipts/export-pdf] (server/routes.ts) that select records
    and derive amounts.

    Modelling conventions.
    - A JavaScript [number] is idealised as an exact rational ([Q]); the
      binary rounding of IEEE doubles is not modelled.  Equalities between
      computed amounts are therefore stated with [==] ([Qeq]).  The one
      place where the outcome hangs on two sums being equal or not, the
      order of the category tables of the exports, is modelled a second
      time for any arithmetic (class [Arith], module [Table]), that of
      IEEE doubles included.
    - A [numeric(10,2)] column value reaches the code as a decimal string
      such as ["105.00"]; it is modelled by its number of cents ([Z]), and
      [Number] turns it into the rational it denotes.  Such a string is
      never empty, so it is truthy in JavaScript, ["0.00"] included.
    - A [Date] is modelled by its calendar fields in the server's time zone,
      taken to be UTC; dates are ordered as their time values are.
    - [new Date(s)] is spelled out for the date-only form [YYYY-MM-DD]
      ([newDate]).  What it gives for other strings and what
      [toLocaleDateString()] prints are the engine's and the locale's
      business; they are fields of the class [Engine].  The theorems hold
      for every engine; the examples are computed with [isoEngine].
    - A JavaScript [Map] is an association list kept in insertion order; a
      plain object used as a dictionary is the same, with the enumeration
      order of [Object.keys] / [Object.entries] written out.
    - The tables of the database are lists of rows; [where] is [filter]. *)

From Stdlib Require Import ZArith QArith Qround List String Ascii Bool Lia.
From Stdlib Require Import DecimalString.
From Stdlib Require Import Permutation Sorted Setoid Morphisms.
From Stdlib Require PrimFloat Uint63.
Import ListNotations.

Open Scope Z_scope.

(** ** shared/schema.ts *)

(** A [numeric(10,2)] value, as its number of cents. *)
Definition Numeric := Z.

(** [Number(s)] for the decimal string of a [numeric(10,2)] value. *)
Definition Number (n : Numeric) : Q := n # 100.

Inductive Month :=
| Jan | Feb | Mar | Apr | May | Jun
| Jul | Aug | Sep | Oct | Nov | Dec.

(** [Date.prototype.getMonth()] numbering. *)
Definition monthIndex (m : Month) : Z :=
  match m with
  | Jan => 0 | Feb => 1 | Mar => 2 | Apr => 3
  | May => 4 | Jun => 5 | Jul => 6 | Aug => 7
  | Sep => 8 | Oct => 9 | Nov => 10 | Dec => 11
  end.

Definition allMonths : list Month :=
  [Jan; Feb; Mar; Apr; May; Jun;
   Jul; Aug; Sep; Oct; Nov; Dec].

(** The [monthNames] array of the export handlers; it is also what
    [toLocaleString('default', { month: 'long' })] yields on the server. *)
Definition monthName (m : Month) : string :=
  match m with
  | Jan => "January" | Feb => "February" | Mar => "March"
  | Apr => "April" | May => "May" | Jun => "June" | Jul => "July"
  | Aug => "August" | Sep => "September" | Oct => "October"
  | Nov => "November" | Dec => "December"
  end%string.

(** A valid [Date]: year, month, day of the month, and the milliseconds
    elapsed since midnight. *)
Record Date := mkDate {
  getFullYear : Z;
  getMonth : Month;
  getDate : Z;
  msOfDay : Z
}.

(** The [receipts] table row ([Receipt = typeof receipts.$inferSelect]). *)
Record Receipt := mkReceipt {
  id : Z;
  userId : string;
  imageUrl : option string;
  merchantName : string;
  date : Date;
  amount : Numeric;
  tax : option Numeric;
  category : string;
  description : option string
}.

(** ** Tax derivation (server/storage.ts, [getTax]) *)

Open Scope Q_scope.

(** [const getTax = (r) => r.tax ? Number(r.tax)
                                 : Number(r.amount) - Number(r.amount) / 1.05] *)
Definition getTax (r : Receipt) : Q :=
  match tax r with
  | Some t => Number t
  | None => Number (amount r) - Number (amount r) / 1.05
  end.

(** [Number.prototype.toFixed(2)], as the number of cents it prints: the
    nearest multiple of 0.01, a tie going to the larger magnitude; the sign
    is handled apart, as in the standard. *)
Definition toFixed2 (x : Q) : Z :=
  if Qle_bool 0 x then Qfloor (x * 100 + (1 # 2))
  else (- Qfloor ((- x) * 100 + (1 # 2)))%Z.

(** The rounding the specification speaks of: [round(x, 2)] as a number. *)
Definition round2 (x : Q) : Q := toFixed2 x # 100.

Close Scope Q_scope.

(** ** JavaScript containers and exceptions *)

(** What the embedded code can throw: [RangeError] when an Invalid Date is
    serialised for the database driver ([Date.prototype.toISOString]),
    [TypeError] when a property of [undefined] is read or a value that is
    not a function is called, [DatabaseError] when the database rejects
    the query. *)
Inductive Error := RangeError | TypeError | DatabaseError.

Inductive Result (A : Type) :=
| Ok (a : A)
| Throw (e : Error).
Arguments Ok {A} a.
Arguments Throw {A} e.

Definition bind {A B : Type} (x : Result A) (k : A -> Result B) : Result B :=
  match x with
  | Ok a => k a
  | Throw e => Throw e
  end.

Notation "x <- c ;; k" := (bind c (fun x => k))
  (at level 61, c at next level, right associativity).
Notation "'_' <- c ;; k" := (bind c (fun _ => k))
  (at level 61, c at next level, right associativity).

(** [x!.field]: reading through a value that may be [undefined]. *)
Definition nonNull {A : Type} (o : option A) : Result A :=
  match o with
  | Some a => Ok a
  | None => Throw TypeError
  end.

(** [Map<string, V>]: entries in insertion order; [set] on a key already
    present replaces its value where it stands. *)
Module JsMap.
Section Ops.
Context {V : Type}.

Fixpoint get (k : string) (m : list (string * V)) : option V :=
  match m with
  | [] => None
  | (k', v) :: m' => if String.eqb k k' then Some v else get k m'
  end.

Fixpoint set (k : string) (v : V) (m : list (string * V)) : list (string * V) :=
  match m with
  | [] => [(k, v)]
  | (k', v') :: m' =>
      if String.eqb k k' then (k, v) :: m' else (k', v') :: set k v m'
  end.

Definition has (k : string) (m : list (string * V)) : bool :=
  match get k m with Some _ => true | None => false end.
End Ops.
End JsMap.

(** [Array.prototype.sort(compareFn)] is stable.  [after a b] stands for
    [compareFn(a, b) > 0]: [a] has to come after [b].  When [compareFn]
    orders the elements consistently the result is the one stable
    arrangement, which this insertion sort computes; otherwise the language
    leaves the order to the engine, and only what holds of every
    arrangement of the same elements is stated of the result. *)
Section Sort.
Context {A : Type} (after : A -> A -> bool).

Fixpoint insertSorted (x : A) (l : list A) : list A :=
  match l with
  | [] => [x]
  | y :: l' => if after x y then y :: insertSorted x l' else x :: y :: l'
  end.

Fixpoint sort (l : list A) : list A :=
  match l with
  | [] => []
  | x :: l' => insertSorted x (sort l')
  end.
End Sort.

(** ** The yearly summary (server/storage.ts, [getReceiptStats]) *)

Module Bucket.
(** [{ total: number; tax: number }] *)
Record t := mk { total : Q; tax : Q }.
Definition zero : t := mk 0 0.
End Bucket.

Record Stats := mkStats {
  totalExpenses : Q;
  totalTax : Q;
  (** [{ month, ...data }] *)
  monthlyBreakdown : list (string * Bucket.t);
  (** [{ category, ...data }] *)
  categoryBreakdown : list (string * Bucket.t);
  (** [{ month, categories: [{ category, ...data }] }] *)
  monthlyCategoryBreakdown : list (string * list (string * Bucket.t))
}.

(** [{ total: current.total + Number(r.amount), tax: current.tax + getTax(r) }] *)
Definition addReceipt (current : Bucket.t) (r : Receipt) : Bucket.t :=
  Bucket.mk (Bucket.total current + Number (amount r))%Q
            (Bucket.tax current + getTax r)%Q.

(** [catMap.get(r.category) || { total: 0, tax: 0 }] *)
Definition getOrZero (k : string) (m : list (string * Bucket.t)) : Bucket.t :=
  match JsMap.get k m with
  | Some b => b
  | None => Bucket.zero
  end.

Definition MonthlyState : Type :=
  (list (string * Bucket.t) * list (string * list (string * Bucket.t)))%type.

(** The twelve [monthlyMap.set] / [monthlyCategoryMap.set] calls of the
    [for (let i = 0; i < 12; i++)] loop, for the month names [names]. *)
Definition initMonthlyOf (names : list string) : MonthlyState :=
  fold_left
    (fun st name =>
       (JsMap.set name Bucket.zero (fst st), JsMap.set name [] (snd st)))
    names ([], []).

(** The same for a year that is a valid year number. *)
Definition initMonthly : MonthlyState :=
  fold_left
    (fun st m =>
       (JsMap.set (monthName m) Bucket.zero (fst st),
        JsMap.set (monthName m) [] (snd st)))
    allMonths ([], []).

(** The body of the first [yearReceipts.forEach]. *)
Definition monthlyStep (st : MonthlyState) (r : Receipt) : Result MonthlyState :=
  let name := monthName (getMonth (date r)) in
  current <- nonNull (JsMap.get name (fst st)) ;;
  let monthlyMap := JsMap.set name (addReceipt current r) (fst st) in
  catMap <- nonNull (JsMap.get name (snd st)) ;;
  let catCurrent := getOrZero (category r) catMap in
  let catMap' := JsMap.set (category r) (addReceipt catCurrent r) catMap in
  Ok (monthlyMap, JsMap.set name catMap' (snd st)).

Fixpoint forEachMonthly (st : MonthlyState) (l : list Receipt) : Result MonthlyState :=
  match l with
  | [] => Ok st
  | r :: l' => st' <- monthlyStep st r ;; forEachMonthly st' l'
  end.

(** The body of the second [yearReceipts.forEach]. *)
Definition categoryStep (categoryMap : list (string * Bucket.t)) (r : Receipt)
  : list (string * Bucket.t) :=
  let current := getOrZero (category r) categoryMap in
  JsMap.set (category r) (addReceipt current r) categoryMap.

(** Everything [getReceiptStats] does once [yearReceipts] is selected,
    with [names] for the names of the twelve months. *)
Definition receiptStatsOf (names : list string) (yearReceipts : list Receipt)
  : Result Stats :=
  let totalExpenses :=
    fold_left (fun sum r => sum + Number (amount r))%Q yearReceipts 0%Q in
  let totalTax :=
    fold_left (fun sum r => sum + getTax r)%Q yearReceipts 0%Q in
  st <- forEachMonthly (initMonthlyOf names) yearReceipts ;;
  let categoryMap := fold_left categoryStep yearReceipts [] in
  Ok (mkStats totalExpenses totalTax (fst st) categoryMap (snd st)).

(** The same for a year that is a valid year number. *)
Definition receiptStats (yearReceipts : list Receipt) : Result Stats :=
  let totalExpenses :=
    fold_left (fun sum r => sum + Number (amount r))%Q yearReceipts 0%Q in
  let totalTax :=
    fold_left (fun sum r => sum + getTax r)%Q yearReceipts 0%Q in
  st <- forEachMonthly initMonthly yearReceipts ;;
  let categoryMap := fold_left categoryStep yearReceipts [] in
  Ok (mkStats totalExpenses totalTax (fst st) categoryMap (snd st)).

(** ** Dates *)

Definition isLeapYear (y : Z) : bool :=
  ((y mod 4 =? 0) && negb (y mod 100 =? 0)) || (y mod 400 =? 0).

Definition daysInMonth (y : Z) (m : Month) : Z :=
  match m with
  | Feb => if isLeapYear y then 29 else 28
  | Apr | Jun | Sep | Nov => 30
  | _ => 31
  end.

Definition nextMonth (m : Month) : Month :=
  match m with
  | Jan => Feb | Feb => Mar | Mar => Apr
  | Apr => May | May => Jun | Jun => Jul | Jul => Aug
  | Aug => Sep | Sep => Oct | Oct => Nov
  | Nov => Dec | Dec => Jan
  end.

Definition monthOfIndex (i : Z) : option Month :=
  if i <? 0 then None else nth_error allMonths (Z.to_nat i).

(** A day number between 1 and 31 in a month that may be shorter: the
    excess runs over into the next month, as the engine's [MakeDay] does. *)
Definition makeDay (y : Z) (m : Month) (d : Z) : Date :=
  if d <=? daysInMonth y m then mkDate y m d 0
  else mkDate (match m with Dec => y + 1 | _ => y end)
              (nextMonth m) (d - daysInMonth y m) 0.

Definition digit (c : ascii) : option Z :=
  let n := Z.of_nat (nat_of_ascii c) in
  if (48 <=? n) && (n <=? 57) then Some (n - 48) else None.

Definition isDash (c : ascii) : bool := Ascii.eqb c "-"%char.

(** [new Date(s)] for a string of the date-only form [YYYY-MM-DD], which
    the API prescribes for [startDate] and [endDate]: midnight UTC of that
    day.  [None] says that [s] is not of that form, with a month from 01
    to 12 and a day from 01 to 31; what [new Date(s)] is then is the
    engine's business, see [parseDate]. *)
Definition newDate (s : string) : option Date :=
  match list_ascii_of_string s with
  | [y1; y2; y3; y4; s1; m1; m2; s2; d1; d2] =>
      match digit y1, digit y2, digit y3, digit y4,
            digit m1, digit m2, digit d1, digit d2 with
      | Some a, Some b, Some c, Some d, Some e, Some f, Some g, Some h =>
          let y := 1000 * a + 100 * b + 10 * c + d in
          let m := 10 * e + f in
          let dd := 10 * g + h in
          if isDash s1 && isDash s2 && (1 <=? dd) && (dd <=? 31) then
            match monthOfIndex (m - 1) with
            | Some mo => Some (makeDay y mo dd)
            | None => None
            end
          else None
      | _, _, _, _, _, _, _, _ => None
      end
  | _ => None
  end.

(** [new Date(year, monthIndex + 1, 0)] for the month of [d]: local
    midnight of the last day of that month.  A year from 0 to 99 is read
    as 1900 + year by this constructor. *)
Definition lastDayOfMonth (d : Date) : Date :=
  let y := getFullYear d in
  let y' := if (0 <=? y) && (y <=? 99) then 1900 + y else y in
  mkDate y' (getMonth d) (daysInMonth y' (getMonth d)) 0.

(** ** The engine *)

(** What the language leaves to the JavaScript engine and to the locale of
    the server, and one reading of numbers that is not spelled out. *)
Class Engine := {
  (** [new Date(s)] for a string that is not of the date-only form: the
      formats the engine falls back on; [None] is an Invalid Date. *)
  legacyDate : string -> option Date;
  (** Whether [new Date(Number(year), 0)] is a valid date, for a [year]
      that is not written with four digits.  The language fixes it; only
      the month names of the summary for such a year depend on it, and no
      statement does. *)
  validYearNumber : string -> bool;
  (** [date.toLocaleDateString()] *)
  toLocaleDateString : Date -> string
}.

(** [new Date(s)]; [None] is an Invalid Date. *)
Definition parseDate {eng : Engine} (s : string) : option Date :=
  match newDate s with
  | Some d => Some d
  | None => legacyDate s
  end.

(** [year] is written with four digits. *)
Definition isYear4 (year : string) : bool :=
  match list_ascii_of_string year with
  | [a; b; c; d] =>
      match digit a, digit b, digit c, digit d with
      | Some _, Some _, Some _, Some _ => true
      | _, _, _, _ => false
      end
  | _ => false
  end.

(** The names [new Date(Number(year), i).toLocaleString('default',
    { month: 'long' })] gives for [i] from 0 to 11: those of the twelve
    months, or twelve times what an Invalid Date prints. *)
Definition monthNamesOf {eng : Engine} (year : string) : list string :=
  if isYear4 year || validYearNumber year then map monthName allMonths
  else repeat "Invalid Date"%string 12.

(** [a.getTime() <= b.getTime()] *)
Definition Date_leb (a b : Date) : bool :=
  let ma := monthIndex (getMonth a) in
  let mb := monthIndex (getMonth b) in
  (getFullYear a <? getFullYear b) ||
  ((getFullYear a =? getFullYear b) &&
   ((ma <? mb) ||
    ((ma =? mb) &&
     ((getDate a <? getDate b) ||
      ((getDate a =? getDate b) && (msOfDay a <=? msOfDay b)))))).

(** [a.getTime() < b.getTime()] *)
Definition Date_ltb (a b : Date) : bool := negb (Date_leb b a).

(** ** SQL [LIKE] (PostgreSQL): [%] any sequence, [_] any one character,
    backslash the escape character; the match is case-sensitive. *)
Module Like.
Inductive tok := AnySeq | AnyChar | Lit (c : ascii).

(** [None]: the pattern ends with the escape character, an error. *)
Fixpoint tokens (p : list ascii) : option (list tok) :=
  match p with
  | [] => Some []
  | c :: p' =>
      if Ascii.eqb c "\"%char then
        match p' with
        | [] => None
        | c' :: p'' => option_map (cons (Lit c')) (tokens p'')
        end
      else if Ascii.eqb c "%"%char then option_map (cons AnySeq) (tokens p')
      else if Ascii.eqb c "_"%char then option_map (cons AnyChar) (tokens p')
      else option_map (cons (Lit c)) (tokens p')
  end.

Fixpoint matches (ts : list tok) : list ascii -> bool :=
  match ts with
  | [] => fun s => match s with [] => true | _ => false end
  | AnySeq :: ts' =>
      fix star (s : list ascii) : bool :=
        matches ts' s || match s with [] => false | _ :: s' => star s' end
  | AnyChar :: ts' =>
      fun s => match s with [] => false | _ :: s' => matches ts' s' end
  | Lit c :: ts' =>
      fun s => match s with
               | [] => false
               | c' :: s' => Ascii.eqb c c' && matches ts' s'
               end
  end.

Definition like (s pattern : string) : option bool :=
  option_map (fun ts => matches ts (list_ascii_of_string s))
             (tokens (list_ascii_of_string pattern)).
End Like.

(** ** Record selection (server/storage.ts, [getReceipts]) *)

Module Filters.
(** [{ month?, year?, category?, search?, userId?, startDate?, endDate? }] *)
Record t := mk {
  month : option string;
  year : option string;
  category : option string;
  search : option string;
  userId : option string;
  startDate : option string;
  endDate : option string
}.
Definition none : t := mk None None None None None None None.
End Filters.

(** The truth test [if (filters?.x)] on an optional string: [undefined]
    and the empty string are falsy. *)
Definition truthy (o : option string) : option string :=
  match o with
  | Some s => if String.eqb s "" then None else Some s
  | None => None
  end.

(** The conditions the code builds with drizzle's [eq], [gte], [lte] and
    [like].  A date operand is [None] when it is an Invalid Date. *)
Inductive Condition :=
| eq_userId (v : string)
| eq_category (v : string)
| gte_date (v : option Date)
| lte_date (v : option Date)
| like_merchantName (pattern : string).

(** Preparing a condition for the driver.  The timestamp column
    serialises its operand with [toISOString], which throws on an Invalid
    Date; the database rejects a pattern that ends with the escape
    character. *)
Definition check (c : Condition) : Result unit :=
  match c with
  | eq_userId _ | eq_category _ => Ok tt
  | gte_date (Some _) | lte_date (Some _) => Ok tt
  | gte_date None | lte_date None => Throw RangeError
  | like_merchantName pattern =>
      match Like.like "" pattern with
      | Some _ => Ok tt
      | None => Throw DatabaseError
      end
  end.

(** A prepared condition as a test on a row. *)
Definition holds (r : Receipt) (c : Condition) : bool :=
  match c with
  | eq_userId v => String.eqb (userId r) v
  | eq_category v => String.eqb (category r) v
  | gte_date (Some d) => Date_leb d (date r)
  | lte_date (Some d) => Date_leb (date r) d
  | gte_date None | lte_date None => false
  | like_merchantName pattern =>
      match Like.like (merchantName r) pattern with
      | Some b => b
      | None => false
      end
  end.

Fixpoint checkAll (conditions : list Condition) : Result unit :=
  match conditions with
  | [] => Ok tt
  | c :: cs => _ <- check c ;; checkAll cs
  end.

(** [from(receipts).where(and(...conditions))] over the table [db]. *)
Definition selectWhere (db : list Receipt) (conditions : list Condition)
  : Result (list Receipt) :=
  _ <- checkAll conditions ;;
  Ok (filter (fun r => forallb (holds r) conditions) db).

Definition pushIf {A : Type} (o : option A) (c : A -> Condition) : list Condition :=
  match o with
  | Some v => [c v]
  | None => []
  end.

(** The date conditions of [getReceipts]: the custom range when a start or
    an end date is given, else the month or the year when a year is. *)
Definition dateConditions {eng : Engine} (filters : Filters.t) : list Condition :=
  match truthy (Filters.startDate filters), truthy (Filters.endDate filters) with
  | None, None =>
      match truthy (Filters.year filters) with
      | Some year =>
          match truthy (Filters.month filters) with
          | Some month =>
              let startOfMonth := parseDate (year ++ "-" ++ month ++ "-01")%string in
              let endOfMonth := option_map lastDayOfMonth startOfMonth in
              [gte_date startOfMonth; lte_date endOfMonth]
          | None =>
              let startOfYear := parseDate (year ++ "-01-01")%string in
              let endOfYear := parseDate (year ++ "-12-31")%string in
              [gte_date startOfYear; lte_date endOfYear]
          end
      | None => []
      end
  | startDate, endDate =>
      pushIf startDate (fun s => gte_date (parseDate s))
      ++ pushIf endDate (fun s => lte_date (parseDate s))
  end.

(** The [conditions] array of [getReceipts], in the order of its pushes. *)
Definition conditions {eng : Engine} (filters : Filters.t) : list Condition :=
  pushIf (truthy (Filters.userId filters)) eq_userId
  ++ dateConditions filters
  ++ pushIf (truthy (Filters.category filters)) eq_category
  ++ pushIf (truthy (Filters.search filters))
            (fun s => like_merchantName ("%" ++ s ++ "%")%string).

(** [orderBy(desc(receipts.date))]: [a] comes after [b] when it is older.
    Rows of equal date come in an order the database chooses; the model
    keeps them in table order, and what is stated of the order of a
    selection holds for any order of such rows. *)
Definition olderThan (a b : Receipt) : bool := Date_ltb (date a) (date b).

(** [db.select().from(receipts).where(and(...conditions))
      .orderBy(desc(receipts.date))] over the table [db]. *)
Definition getReceipts {eng : Engine} (db : list Receipt) (filters : Filters.t)
  : Result (list Receipt) :=
  rows <- selectWhere db (conditions filters) ;;
  Ok (sort olderThan rows).

(** [getReceiptStats(userId, year)]: the rows of the year, then the
    aggregation. *)
Definition getReceiptStats {eng : Engine} (db : list Receipt)
  (userId : option string) (year : string) : Result Stats :=
  let startOfYear := parseDate (year ++ "-01-01")%string in
  let endOfYear := parseDate (year ++ "-12-31")%string in
  let conditions :=
    [gte_date startOfYear; lte_date endOfYear]
    ++ pushIf (truthy userId) eq_userId in
  yearReceipts <- selectWhere db conditions ;;
  receiptStatsOf (monthNamesOf year) yearReceipts.

(** ** Route handlers (server/routes.ts) *)

(** [req.query], each parameter as [typeof req.query.x === 'string' ?
    req.query.x : undefined] reads it. *)
Definition Query := Filters.t.

Inductive Response (A : Type) :=
| Status200 (body : A)
| Status500 (message : string).
Arguments Status200 {A} body.
Arguments Status500 {A} message.

(** The [filters] object of [GET /api/receipts]. *)
Definition listFilters (q : Query) : Filters.t :=
  Filters.mk (Filters.month q) (Filters.year q) (Filters.category q)
             (Filters.search q) (Filters.userId q)
             (Filters.startDate q) (Filters.endDate q).

(** The [filters] object of [GET /api/receipts/export] and of
    [GET /api/receipts/export-pdf]: five fields, no date range. *)
Definition exportFilters (q : Query) : Filters.t :=
  Filters.mk (Filters.month q) (Filters.year q) (Filters.category q)
             (Filters.search q) (Filters.userId q) None None.

Definition listReceipts {eng : Engine} (db : list Receipt) (q : Query)
  : Response (list Receipt) :=
  match getReceipts db (listFilters q) with
  | Ok receiptsList => Status200 receiptsList
  | Throw _ => Status500 "Failed to list receipts"
  end.

(** The records the Excel export works on:
    [const receipts = await storage.getReceipts(filters)]. *)
Definition exportReceipts {eng : Engine} (db : list Receipt) (q : Query)
  : Result (list Receipt) :=
  getReceipts db (exportFilters q).

(** The records the PDF export works on:
    [const receiptsData = await storage.getReceipts(filters)]. *)
Definition exportPdfReceipts {eng : Engine} (db : list Receipt) (q : Query)
  : Result (list Receipt) :=
  getReceipts db (exportFilters q).

(** ** Plain objects used as dictionaries ([Record<string, V>]) *)

Module JsObject.
(** The property names every object literal inherits from
    [Object.prototype]; reading one of them on [{}] gives a truthy value
    that is not an own property. *)
Definition inherited (k : string) : bool :=
  existsb (String.eqb k)
    ["constructor"; "hasOwnProperty"; "isPrototypeOf";
     "propertyIsEnumerable"; "toLocaleString"; "toString"; "valueOf";
     "__proto__"; "__defineGetter__"; "__defineSetter__";
     "__lookupGetter__"; "__lookupSetter__"]%string.

Fixpoint digitsValue (acc : Z) (cs : list ascii) : option Z :=
  match cs with
  | [] => Some acc
  | c :: cs' =>
      match digit c with
      | Some d => digitsValue (10 * acc + d) cs'
      | None => None
      end
  end.

(** An array index: the canonical decimal form of an integer from 0 to
    2^32 - 2. *)
Definition arrayIndex (k : string) : option Z :=
  match list_ascii_of_string k with
  | [] => None
  | c :: cs =>
      if Ascii.eqb c "0"%char && negb (Nat.eqb (List.length cs) 0) then None
      else match digitsValue 0 (c :: cs) with
           | Some n => if n <? 2 ^ 32 - 1 then Some n else None
           | None => None
           end
  end.

Definition isIndex (k : string) : bool :=
  match arrayIndex k with Some _ => true | None => false end.

Definition indexOf (k : string) : Z :=
  match arrayIndex k with Some n => n | None => 0 end.

Section Ops.
Context {V : Type}.

(** [Object.entries(o)] for own properties listed in creation order:
    array indices first, ascending, then the other names as created. *)
Definition entries (o : list (string * V)) : list (string * V) :=
  sort (fun a b => indexOf (fst b) <? indexOf (fst a))
       (filter (fun kv => isIndex (fst kv)) o)
  ++ filter (fun kv => negb (isIndex (fst kv))) o.

(** [Object.keys(o)] *)
Definition keys (o : list (string * V)) : list string := map fst (entries o).
End Ops.
End JsObject.

(** ** The exports (server/routes.ts) *)

Module Totals.
(** [{ amount: number; tax: number; count: number }] *)
Record t := mk { amount : Q; tax : Q; count : Z }.
Definition zero : t := mk 0 0 0.
End Totals.

(** The value of [receipt.tax || fallback]: the stored string or a number. *)
Inductive StringOrNumber :=
| Str (s : Numeric)
| Num (x : Q).

Definition orElse (t : option Numeric) (fallback : Q) : StringOrNumber :=
  match t with
  | Some s => Str s
  | None => Num fallback
  end.

Definition NumberOf (v : StringOrNumber) : Q :=
  match v with
  | Str s => Number s
  | Num x => x
  end.

Definition Qlt_bool (x y : Q) : bool := negb (Qle_bool y x).

Definition string_of_Z (z : Z) : string := NilZero.string_of_int (Z.to_int z).

(** [`${monthNames[date.getMonth()]} ${date.getFullYear()}`] *)
Definition monthYearOf (d : Date) : string :=
  (monthName (getMonth d) ++ " " ++ string_of_Z (getFullYear d))%string.

(** [o[k].amount += amount; o[k].tax += tax; o[k].count++] after
    [if (!o[k]) o[k] = { amount: 0, tax: 0, count: 0 }].  When [k] names a
    member of [Object.prototype] the test finds the inherited value, no
    own property is created, and the updates land on the inherited
    object.  There they create properties [amount], [tax] and [count]
    that hold NaN (on [Object.prototype] itself when [k] is [__proto__]);
    NaN reads as absent in the test, so that the own properties of [o],
    which are all this function describes, come out the same in this
    request and in later ones. *)
Definition addTotals (k : string) (amount tax : Q) (o : list (string * Totals.t))
  : list (string * Totals.t) :=
  if JsObject.inherited k then o
  else
    let cur := match JsMap.get k o with Some t => t | None => Totals.zero end in
    JsMap.set k (Totals.mk (Totals.amount cur + amount)%Q
                           (Totals.tax cur + tax)%Q
                           (Totals.count cur + 1)) o.

(** [.sort((a, b) => b[1].amount - a[1].amount)] *)
Definition byAmountDesc (a b : string * Totals.t) : bool :=
  Qlt_bool (Totals.amount (snd a)) (Totals.amount (snd b)).

Module Pdf.
Definition Grouped : Type := list (string * list (string * list Receipt)).

(** One turn of [for (const receipt of receiptsData)]. *)
Definition step (st : Grouped * list (string * Totals.t)) (receipt : Receipt)
  : Result (Grouped * list (string * Totals.t)) :=
  let monthYear := monthYearOf (date receipt) in
  let amount := Number (amount receipt) in
  let tax := NumberOf (orElse (tax receipt) (amount - amount / 1.05)%Q) in
  let groupedByMonth :=
    if JsMap.has monthYear (fst st) then fst st
    else JsMap.set monthYear [] (fst st) in
  categories <- nonNull (JsMap.get monthYear groupedByMonth) ;;
  (* an inherited name is found by the test and is not an array:
     [.push] is not a function *)
  if JsObject.inherited (category receipt) then Throw TypeError
  else
    let list :=
      match JsMap.get (category receipt) categories with
      | Some l => l
      | None => []
      end in
    let categories' := JsMap.set (category receipt) (list ++ [receipt]) categories in
    Ok (JsMap.set monthYear categories' groupedByMonth,
        addTotals (category receipt) amount tax (snd st)).

Fixpoint loop (st : Grouped * list (string * Totals.t)) (l : list Receipt)
  : Result (Grouped * list (string * Totals.t)) :=
  match l with
  | [] => Ok st
  | r :: l' => st' <- step st r ;; loop st' l'
  end.

(** [categoryTotals] after the loop. *)
Definition categoryTotals (receiptsData : list Receipt)
  : Result (list (string * Totals.t)) :=
  st <- loop ([], []) receiptsData ;; Ok (snd st).

(** [Object.entries(categoryTotals).sort(...)], the rows of the
    EXPENSE BREAKDOWN BY CATEGORY table. *)
Definition sortedCategories (receiptsData : list Receipt)
  : Result (list (string * Totals.t)) :=
  o <- categoryTotals receiptsData ;;
  Ok (sort byAmountDesc (JsObject.entries o)).

(** The numbers of a ledger row: [preTax], [tax], [amount]. *)
Definition row (receipt : Receipt) : Q * Q * Q :=
  let amount := Number (amount receipt) in
  let tax := NumberOf (orElse (tax receipt) (amount - amount / 1.05)%Q) in
  let preTax := (amount - tax)%Q in
  (preTax, tax, amount).

(** What the row prints: [preTax.toFixed(2)], [tax.toFixed(2)],
    [amount.toFixed(2)], in cents. *)
Definition rowText (receipt : Receipt) : Z * Z * Z :=
  let '(preTax, tax, amount) := row receipt in
  (toFixed2 preTax, toFixed2 tax, toFixed2 amount).
End Pdf.

Module SummaryRow.
(** A row of the "Monthly Summary" or "Category Summary" sheet: the
    [Month] or [Category] label, then [Receipts], [Pre-Tax], [Tax] and
    [Total Paid]. *)
Record t := mk {
  Label : string;
  Receipts : Z;
  PreTax : Q;
  Tax : Q;
  TotalPaid : Q
}.

Definition ofEntry (e : string * Totals.t) : t :=
  let data := snd e in
  mk (fst e) (Totals.count data)
     (Totals.amount data - Totals.tax data)%Q
     (Totals.tax data) (Totals.amount data).
End SummaryRow.

Module Excel.
(** A row of the "Expenses" sheet.  The [Date] cell holds the text that
    [toLocaleDateString()] gives. *)
Record Row := mkRow {
  Year : Z;
  Month : string;
  MonthYear : string;
  Date_ : string;
  Category : string;
  Merchant : string;
  PreTax : Q;
  Tax : Q;
  TotalPaid : Q;
  Notes : string
}.

(** The callback of [receipts.map(r => ...)]. *)
Definition toRow {eng : Engine} (r : Receipt) : Row :=
  let date := date r in
  let total := Number (amount r) in
  let tax := NumberOf (orElse (tax r) (total - total / 1.05)%Q) in
  let preTax := (total - tax)%Q in
  mkRow (getFullYear date) (monthName (getMonth date)) (monthYearOf date)
        (toLocaleDateString date) (category r) (merchantName r) preTax tax total
        (match description r with Some s => s | None => "" end).

(** [excelData.sort((a, b) => dateB.getTime() - dateA.getTime())] with
    [dateA = new Date(a.Date)] and [dateB = new Date(b.Date)]: [a] comes
    after [b] when its date is the older one; with an Invalid Date the
    difference is NaN and the pair counts as equal. *)
Definition olderRow {eng : Engine} (a b : Row) : bool :=
  match parseDate (Date_ a), parseDate (Date_ b) with
  | Some dateA, Some dateB => Date_ltb dateA dateB
  | _, _ => false
  end.

Definition excelData {eng : Engine} (receipts : list Receipt) : list Row :=
  sort olderRow (map toRow receipts).

(** One turn of [for (const row of excelData)]. *)
Definition summaryStep
  (st : list (string * Totals.t) * list (string * Totals.t)) (row : Row)
  : list (string * Totals.t) * list (string * Totals.t) :=
  (addTotals (MonthYear row) (TotalPaid row) (Tax row) (fst st),
   addTotals (Category row) (TotalPaid row) (Tax row) (snd st)).

Definition summaryByMonth {eng : Engine} (receipts : list Receipt)
  : list (string * Totals.t) :=
  fst (fold_left summaryStep (excelData receipts) ([], [])).

Definition summaryByCategory {eng : Engine} (receipts : list Receipt)
  : list (string * Totals.t) :=
  snd (fold_left summaryStep (excelData receipts) ([], [])).

Definition monthlySummaryData {eng : Engine} (receipts : list Receipt)
  : list SummaryRow.t :=
  map SummaryRow.ofEntry (JsObject.entries (summaryByMonth receipts)).

(** The entries behind the "Category Summary" sheet, sorted. *)
Definition sortedCategoryEntries {eng : Engine} (receipts : list Receipt)
  : list (string * Totals.t) :=
  sort byAmountDesc (JsObject.entries (summaryByCategory receipts)).

Definition categorySummaryData {eng : Engine} (receipts : list Receipt)
  : list SummaryRow.t :=
  map SummaryRow.ofEntry (sortedCategoryEntries receipts).

(** The numbers of a detail row: [Pre-Tax], [Tax], [Total Paid]. *)
Definition row {eng : Engine} (r : Receipt) : Q * Q * Q :=
  let x := toRow r in (PreTax x, Tax x, TotalPaid x).
End Excel.

(** The numbers the summary works with for one record: the tax of
    [getTax], the total [Number(r.amount)], and the pre-tax amount as
    total minus tax. *)
Definition summaryRow (r : Receipt) : Q * Q * Q :=
  (Number (amount r) - getTax r, getTax r, Number (amount r))%Q.

(** ** The category tables of the exports, in any arithmetic *)

(** The operations on [number] that the category tables are made with.
    [nzero] is the literal [0]; [ofNumeric n] is [Number(s)] for the
    decimal string [s] of the [numeric(10,2)] value of [n] cents, and the
    literal [1.05] is [ofNumeric 105]; [isPositive x] is [x > 0]. *)
Class Arith (N : Type) := {
  nzero : N;
  ofNumeric : Numeric -> N;
  nadd : N -> N -> N;
  nsub : N -> N -> N;
  ndiv : N -> N -> N;
  isPositive : N -> bool
}.

(** The exact arithmetic of the rest of the development. *)
#[export] Instance rational : Arith Q := {|
  nzero := 0%Q;
  ofNumeric := Number;
  nadd := Qplus;
  nsub := Qminus;
  ndiv := Qdiv;
  isPositive := Qlt_bool 0
|}.

(** An integer below 2^53 in magnitude, as the double it is. *)
Definition float_of_Z (z : Z) : PrimFloat.float :=
  if z <? 0 then PrimFloat.opp (PrimFloat.of_uint63 (Uint63.of_Z (- z)))
  else PrimFloat.of_uint63 (Uint63.of_Z z).

(** The arithmetic of JavaScript: IEEE 754 binary64, rounding to nearest.
    [Number(s)] is the double nearest to the decimal [s], which the
    correctly rounded quotient of the cents by 100 is. *)
#[export] Instance binary64 : Arith PrimFloat.float := {|
  nzero := PrimFloat.zero;
  ofNumeric := fun n => PrimFloat.div (float_of_Z n) (float_of_Z 100);
  nadd := PrimFloat.add;
  nsub := PrimFloat.sub;
  ndiv := PrimFloat.div;
  isPositive := fun x => PrimFloat.ltb PrimFloat.zero x
|}.

Module Table.
Section Arithmetic.
Context {N : Type} {arith : Arith N} {eng : Engine}.

(** [Number(receipt.amount)] *)
Definition total (r : Receipt) : N := ofNumeric (amount r).

(** [Number(receipt.tax || (amount - amount / 1.05))] *)
Definition taxOf (r : Receipt) : N :=
  match tax r with
  | Some t => ofNumeric t
  | None => nsub (total r) (ndiv (total r) (ofNumeric 105))
  end.

(** [{ amount: number; tax: number; count: number }] *)
Record Totals := mkTotals { amount : N; tax : N; count : Z }.

(** [addTotals] in the arithmetic [N]. *)
Definition add (k : string) (a t : N) (o : list (string * Totals))
  : list (string * Totals) :=
  if JsObject.inherited k then o
  else
    let cur := match JsMap.get k o with
               | Some c => c
               | None => mkTotals nzero nzero 0
               end in
    JsMap.set k (mkTotals (nadd (amount cur) a) (nadd (tax cur) t) (count cur + 1)) o.

(** [.sort((a, b) => b[1].amount - a[1].amount)] *)
Definition byAmountDesc (a b : string * Totals) : bool :=
  isPositive (nsub (amount (snd b)) (amount (snd a))).

(** What one turn of [for (const receipt of receiptsData)] in the PDF
    handler does to [categoryTotals]; the grouping of the same turn fails
    on an inherited category name (see [Pdf.step]). *)
Definition pdfStep (o : list (string * Totals)) (receipt : Receipt)
  : Result (list (string * Totals)) :=
  if JsObject.inherited (category receipt) then Throw TypeError
  else Ok (add (category receipt) (total receipt) (taxOf receipt) o).

Fixpoint pdfLoop (o : list (string * Totals)) (l : list Receipt)
  : Result (list (string * Totals)) :=
  match l with
  | [] => Ok o
  | r :: l' => o' <- pdfStep o r ;; pdfLoop o' l'
  end.

(** [categoryTotals] after the loop of the PDF handler. *)
Definition pdfCategoryTotals (receiptsData : list Receipt)
  : Result (list (string * Totals)) :=
  pdfLoop [] receiptsData.

(** [sortedCategories] of the PDF handler. *)
Definition pdfSortedCategories (receiptsData : list Receipt)
  : Result (list (string * Totals)) :=
  o <- pdfCategoryTotals receiptsData ;;
  Ok (sort byAmountDesc (JsObject.entries o)).

(** The cells of a row of [excelData] that the sort of the rows and the
    category summary read. *)
Record Row := mkRow {
  Date_ : string;
  Category : string;
  Tax : N;
  TotalPaid : N
}.

Definition toRow (r : Receipt) : Row :=
  mkRow (toLocaleDateString (date r)) (category r) (taxOf r) (total r).

(** The comparison of [excelData.sort], as [Excel.olderRow]. *)
Definition olderRow (a b : Row) : bool :=
  match parseDate (Date_ a), parseDate (Date_ b) with
  | Some dateA, Some dateB => Date_ltb dateA dateB
  | _, _ => false
  end.

Definition excelData (receipts : list Receipt) : list Row :=
  sort olderRow (map toRow receipts).

(** [summaryByCategory] after [for (const row of excelData)]. *)
Definition summaryByCategory (receipts : list Receipt)
  : list (string * Totals) :=
  fold_left (fun o row => add (Category row) (TotalPaid row) (Tax row) o)
            (excelData receipts) [].

(** The entries behind the "Category Summary" sheet, sorted. *)
Definition sortedCategoryEntries (receipts : list Receipt)
  : list (string * Totals) :=
  sort byAmountDesc (JsObject.entries (summaryByCategory receipts)).
End Arithmetic.
Arguments Totals N : clear implicits.
Arguments Row N : clear implicits.
End Table.

(** ** Vocabulary of the specification *)

(** Sum of one numeric field over the buckets of a breakdown. *)
Definition sumBy {V : Type} (f : V -> Q) (l : list (string * V)) : Q :=
  fold_right (fun kv acc => f (snd kv) + acc)%Q 0%Q l.

Definition sumTotal : list (string * Bucket.t) -> Q := sumBy Bucket.total.
Definition sumTax : list (string * Bucket.t) -> Q := sumBy Bucket.tax.

(** Sum of a quantity over a list of records. *)
Definition sumOver (f : Receipt -> Q) (l : list Receipt) : Q :=
  fold_right (fun r acc => f r + acc)%Q 0%Q l.

(** A record falls in the year that runs from [d1] to [d2] and belongs
    to [user] when a user is asked for. *)
Definition inYear (d1 d2 : Date) (user : option string) (r : Receipt) : Prop :=
  Date_leb d1 (date r) = true /\ Date_leb (date r) d2 = true /\
  (forall u, truthy user = Some u -> userId r = u).

(** Buckets in non-increasing order of total. *)
Definition nonIncreasing {V : Type} (total : V -> Q) (l : list (string * V)) : Prop :=
  StronglySorted (fun a b => (total (snd b) <= total (snd a))%Q) l.

(** The buckets of [l] whose total is [v], in the order of [l]. *)
Definition withTotal {V : Type} (total : V -> Q) (v : Q) (l : list (string * V))
  : list (string * V) :=
  filter (fun kv => Qeq_bool (total (snd kv)) v) l.

(** The comparison [after] orders the elements of [l] consistently, as the
    language asks of the function given to [sort] for the order of the
    result to be defined: of two elements at most one has to come after
    the other, and when [a] need not come after [b] nor [b] after [c] then
    [a] need not come after [c].  (For a comparison by the difference of
    two doubles, this holds as long as no difference is NaN.) *)
Definition consistentOn {A : Type} (after : A -> A -> bool) (l : list A) : bool :=
  forallb (fun a =>
    forallb (fun b =>
      implb (after a b) (negb (after b a)) &&
      forallb (fun c =>
        implb (negb (after a b) && negb (after b c)) (negb (after a c))) l) l) l.

(** [cats] is [es] sorted by [after] and stable: the same elements, none
    before one it has to come after, and elements none of which has to
    come after another standing as they stand in [es]. *)
Definition stablySorted {A : Type} (after : A -> A -> bool) (es cats : list A)
  : Prop :=
  Permutation es cats /\
  StronglySorted (fun a b => after a b = false) cats /\
  forall p : A -> bool,
    (forall x y, p x = true -> p y = true -> after x y = false) ->
    filter p cats = filter p es.

(** The distinct values of [l] in the order of their first occurrence. *)
Fixpoint firstSeen (seen : list string) (l : list string) : list string :=
  match l with
  | [] => []
  | k :: l' =>
      if existsb (String.eqb k) seen then firstSeen seen l'
      else k :: firstSeen (k :: seen) l'
  end.

Definition toLower (c : ascii) : ascii :=
  let n := nat_of_ascii c in
  if (Nat.leb 65 n && Nat.leb n 90)%bool then ascii_of_nat (n + 32) else c.

(** [s] occurs in [t] as a block of consecutive characters. *)
Definition contains (t s : list ascii) : Prop :=
  exists pre post, t = pre ++ s ++ post.

Fixpoint isPrefix (s t : list ascii) : bool :=
  match s, t with
  | [], _ => true
  | _ :: _, [] => false
  | a :: s', b :: t' => Ascii.eqb a b && isPrefix s' t'
  end.

Fixpoint containsb (t s : list ascii) : bool :=
  isPrefix s t || match t with [] => false | _ :: t' => containsb t' s end.

(** Case-insensitive containment, as the specification words it. *)
Definition containsIgnoreCase (t s : string) : bool :=
  containsb (map toLower (list_ascii_of_string t))
            (map toLower (list_ascii_of_string s)).

(** The characters [LIKE] treats specially. *)
Definition isLikeSpecial (c : ascii) : bool :=
  Ascii.eqb c "\"%char || Ascii.eqb c "%"%char || Ascii.eqb c "_"%char.

(** What each part of a filter asks of a record. *)
Definition matchesUser (f : Filters.t) (r : Receipt) : Prop :=
  forall u, truthy (Filters.userId f) = Some u -> userId r = u.

Definition matchesCategory (f : Filters.t) (r : Receipt) : Prop :=
  forall c, truthy (Filters.category f) = Some c -> category r = c.

Definition matchesSearch (f : Filters.t) (r : Receipt) : Prop :=
  forall s, truthy (Filters.search f) = Some s ->
            Like.like (merchantName r) ("%" ++ s ++ "%") = Some true.

(** The same filter with another year and month. *)
Definition withYearMonth (f : Filters.t) (year month : option string) : Filters.t :=
  Filters.mk month year (Filters.category f) (Filters.search f)
             (Filters.userId f) (Filters.startDate f) (Filters.endDate f).

(** The same filter without the search. *)
Definition withoutSearch (f : Filters.t) : Filters.t :=
  Filters.mk (Filters.month f) (Filters.year f) (Filters.category f) None
             (Filters.userId f) (Filters.startDate f) (Filters.endDate f).

(** The same filter with another date range. *)
Definition withRange (f : Filters.t) (startDate endDate : option string) : Filters.t :=
  Filters.mk (Filters.month f) (Filters.year f) (Filters.category f)
             (Filters.search f) (Filters.userId f) startDate endDate.

(** ** Sample data *)

(** [n] written with at least two, at least four digits. *)
Definition twoDigits (n : Z) : string :=
  ((if (n <? 10)%Z then "0" else "") ++ string_of_Z n)%string.

Definition fourDigits (n : Z) : string :=
  ((if (n <? 10)%Z then "000" else if (n <? 100)%Z then "00"
    else if (n <? 1000)%Z then "0" else "") ++ string_of_Z n)%string.

(** An engine for the examples: it reads the date-only form and nothing
    else, as the language allows, and prints dates in that form, as the
    Swedish locale does.  The date strings of the examples are of that
    form, or such that every engine calls them invalid; with this engine
    the summary of a year that is not written with four digits fails
    before the names of its months are asked for. *)
#[export] Instance isoEngine : Engine := {|
  legacyDate := fun _ => None;
  validYearNumber := fun _ => false;
  toLocaleDateString := fun d =>
    (fourDigits (getFullYear d) ++ "-"
     ++ twoDigits (monthIndex (getMonth d) + 1)%Z ++ "-"
     ++ twoDigits (getDate d))%string
|}.

Definition sample (i : Z) (merchant : string) (d : Date) (amt : Numeric)
  (t : option Numeric) (cat : string) : Receipt :=
  mkReceipt i "user1" None merchant d amt t cat None.

(** The scenario of the specification: 105.00 without a stored tax in
    January, 50.00 with a stored tax of 10.00 in February. *)
Definition recA : Receipt :=
  sample 1 "A" (mkDate 2024 Jan 15 0) 10500 None "Food".
Definition recB : Receipt :=
  sample 2 "B" (mkDate 2024 Feb 10 0) 5000 (Some 1000) "Travel".

(** 100.00 without a stored tax. *)
Definition rec100 : Receipt :=
  sample 3 "C" (mkDate 2024 Mar 1 0) 10000 None "Food".

(** A refund entered as a negative amount. *)
Definition recNeg : Receipt :=
  sample 4 "D" (mkDate 2024 Mar 2 0) (-2100) None "Other".

(** Two records whose second category has the larger total. *)
Definition recSmall : Receipt :=
  sample 5 "Cafe" (mkDate 2024 Apr 3 0) 1000 None "Food".
Definition recLarge : Receipt :=
  sample 6 "Airline" (mkDate 2024 Apr 4 0) 2000 None "Travel".

(** Two categories that both total 50.00, the second one named by a
    number. *)
Definition recTie1 : Receipt :=
  sample 7 "Shop" (mkDate 2024 May 5 0) 5000 None "Shopping".
Definition recTie2 : Receipt :=
  sample 8 "Form" (mkDate 2024 May 6 0) 5000 None "1099".

(** A third category that totals 50.00, first seen after "Shopping". *)
Definition recTie3 : Receipt :=
  sample 10 "Hotel" (mkDate 2024 May 7 0) 5000 None "Lodging".

(** Three records of one category, 19.70, 19.04 and 11.26, which add up
    to 50.00, and one record of 50.00 in another category, the oldest. *)
Definition recOffice1 : Receipt :=
  sample 21 "Paper" (mkDate 2024 Jul 4 0) 1970 None "Office".
Definition recOffice2 : Receipt :=
  sample 22 "Ink" (mkDate 2024 Jul 3 0) 1904 None "Office".
Definition recOffice3 : Receipt :=
  sample 23 "Pens" (mkDate 2024 Jul 2 0) 1126 None "Office".
Definition recTrain : Receipt :=
  sample 24 "Train" (mkDate 2024 Jul 1 0) 5000 None "Travel".

Definition recWalmart : Receipt :=
  sample 9 "Walmart" (mkDate 2024 Jun 7 0) 2500 None "Shopping".

(** A record entered at 09:30 on 10 February 2024, the day of [recB]. *)
Definition recLate : Receipt :=
  sample 11 "Late" (mkDate 2024 Feb 10 34200000) 1200 None "Food".

Definition filterSearch (s : string) : Filters.t :=
  Filters.mk None None None (Some s) None None None.

Definition filterRange (s e : option string) : Filters.t :=
  Filters.mk None None None None None s e.

(** ** The backup (server/routes.ts, [GET /api/backup]) *)

Module Backup.
(** [{ version, exportDate, userId, receipts }] *)
Record t := mk {
  version : string;
  exportDate : string;
  userId : string;
  receipts : list Receipt
}.
End Backup.

(** The handler; [now] stands for [new Date().toISOString()]. *)
Definition backup {eng : Engine} (now : string) (db : list Receipt) (q : Query)
  : Response Backup.t :=
  let userId := Filters.userId q in
  match getReceipts db (Filters.mk None None None None userId None None) with
  | Ok allReceipts =>
      Status200
        (Backup.mk "1.0" now
           (match truthy userId with Some u => u | None => "all"%string end)
           allReceipts)
  | Throw _ => Status500 "Failed to create backup"
  end.

(** ** The dashboard (client) *)

Module StatsCards.
(** [.sort((a, b) => b.total - a.total)] *)
Definition byTotalDesc (a b : string * Bucket.t) : bool :=
  Qlt_bool (Bucket.total (snd a)) (Bucket.total (snd b)).

(** [summary.categoryBreakdown.sort(...)[0]]; [None] is [undefined],
    shown as "No Data". *)
Definition topCategory (categoryBreakdown : list (string * Bucket.t))
  : option (string * Bucket.t) :=
  hd_error (sort byTotalDesc categoryBreakdown).

(** [summary.monthlyBreakdown.find(m => m.month === currentMonth)?.total || 0] *)
Definition currentMonthTotal (currentMonth : string)
  (monthlyBreakdown : list (string * Bucket.t)) : Q :=
  match find (fun m => String.eqb (fst m) currentMonth) monthlyBreakdown with
  | Some m => Bucket.total (snd m)
  | None => 0%Q
  end.
End StatsCards.

(** ** The PDF report as a whole (server/routes.ts, export-pdf) *)

(** [s.split(sep)] for a separator of one character. *)
Fixpoint split (sep : ascii) (s : string) : list string :=
  match s with
  | EmptyString => [EmptyString]
  | String c s' =>
      if Ascii.eqb c sep then EmptyString :: split sep s'
      else match split sep s' with
           | f :: fs => String c f :: fs
           | [] => [String c EmptyString]
           end
  end.

(** A year written with four digits, the first not 0. *)
Definition year4 (s : string) : option Z :=
  match list_ascii_of_string s with
  | [a; b; c; d] =>
      if Ascii.eqb a "0"%char then None
      else JsObject.digitsValue 0 [a; b; c; d]
  | _ => None
  end.

Definition monthOfName (s : string) : option Month :=
  find (fun m => String.eqb (monthName m) s) allMonths.

(** [new Date(s)] for the form [<Month> 1, <YYYY>] that the export builds
    from its month labels: local midnight of the first day of that month,
    [None] standing for an Invalid Date.  Strings of another shape are
    taken to be invalid. *)
Definition newDateLong (s : string) : option Date :=
  match split " " s with
  | [mo; day; yr] =>
      if String.eqb day "1," then
        match monthOfName mo, year4 yr with
        | Some m, Some y => Some (mkDate y m 1 0)
        | _, _ => None
        end
      else None
  | _ => None
  end.

Module PdfReport.
(** [receiptsData.reduce((sum, r) => sum + Number(r.amount), 0)] *)
Definition totalAmount (receiptsData : list Receipt) : Q :=
  fold_left (fun sum r => sum + Number (amount r))%Q receiptsData 0%Q.

(** [receiptsData.reduce((sum, r) => sum + Number(r.tax ||
      (Number(r.amount) - Number(r.amount) / 1.05)), 0)] *)
Definition totalTax (receiptsData : list Receipt) : Q :=
  fold_left
    (fun sum r =>
       sum + NumberOf (orElse (tax r)
                         (Number (amount r) - Number (amount r) / 1.05)))%Q
    receiptsData 0%Q.

(** The date a month label is sorted by: [const [monthA, yearA] =
    a.split(' ')], then [new Date(`${monthA} 1, ${yearA}`)]; a missing
    field prints as "undefined". *)
Definition labelDate (label : string) : option Date :=
  let fields := split " " label in
  let monthA := nth 0 fields "undefined"%string in
  let yearA := nth 1 fields "undefined"%string in
  newDateLong (monthA ++ " 1, " ++ yearA).

(** [dateA.getTime() - dateB.getTime() > 0]; with an Invalid Date the
    difference is NaN and the pair counts as equal. *)
Definition laterLabel (a b : string) : bool :=
  match labelDate a, labelDate b with
  | Some da, Some db => Date_ltb db da
  | _, _ => false
  end.

(** [Object.keys(groupedByMonth).sort(...)] *)
Definition sortedMonths (groupedByMonth : Pdf.Grouped) : list string :=
  sort laterLabel (JsObject.keys groupedByMonth).

(** The default [sort()] of strings: by code units. *)
Definition laterString (a b : string) : bool := String.ltb b a.

(** A category of a month in the ledger: its rows as printed, then the
    subtotal line. *)
Record CategoryBlock := mkCategoryBlock {
  blockCategory : string;
  blockRows : list (Z * Z * Z);
  categoryTotal : Q;
  categoryTax : Q
}.

(** A month of the ledger, with its total line. *)
Record MonthBlock := mkMonthBlock {
  blockMonth : string;
  blockCategories : list CategoryBlock;
  monthTotal : Q;
  monthTax : Q
}.

(** [for (const receipt of categoryReceipts)] *)
Definition categoryBlock (category : string) (categoryReceipts : list Receipt)
  : CategoryBlock :=
  mkCategoryBlock category (map Pdf.rowText categoryReceipts)
    (fold_left (fun categoryTotal r => categoryTotal + snd (Pdf.row r))%Q
               categoryReceipts 0%Q)
    (fold_left (fun categoryTax r => categoryTax + snd (fst (Pdf.row r)))%Q
               categoryReceipts 0%Q).

(** [for (const category of Object.keys(categories).sort())] *)
Fixpoint categoryBlocks (categories : list (string * list Receipt))
  (names : list string) : Result (list CategoryBlock) :=
  match names with
  | [] => Ok []
  | category :: names' =>
      categoryReceipts <- nonNull (JsMap.get category categories) ;;
      rest <- categoryBlocks categories names' ;;
      Ok (categoryBlock category categoryReceipts :: rest)
  end.

(** One turn of [for (const monthYear of sortedMonths)]. *)
Definition monthBlock (groupedByMonth : Pdf.Grouped) (monthYear : string)
  : Result MonthBlock :=
  categories <- nonNull (JsMap.get monthYear groupedByMonth) ;;
  blocks <- categoryBlocks categories
              (sort laterString (JsObject.keys categories)) ;;
  Ok (mkMonthBlock monthYear blocks
        (fold_left (fun monthTotal b => monthTotal + categoryTotal b)%Q blocks 0%Q)
        (fold_left (fun monthTax b => monthTax + categoryTax b)%Q blocks 0%Q)).

Fixpoint monthBlocks (groupedByMonth : Pdf.Grouped) (months : list string)
  : Result (list MonthBlock) :=
  match months with
  | [] => Ok []
  | monthYear :: months' =>
      b <- monthBlock groupedByMonth monthYear ;;
      rest <- monthBlocks groupedByMonth months' ;;
      Ok (b :: rest)
  end.

(** What the document shows: the cover figures, the category table with
    its totals row, and the ledger. *)
Record Report := mkReport {
  transactions : nat;
  categoryCount : nat;
  coverPreTax : Q;
  coverTax : Q;
  coverTotal : Q;
  categoryRows : list (string * Totals.t);
  ledger : list MonthBlock
}.

Definition report (receiptsData : list Receipt) : Result Report :=
  st <- Pdf.loop ([], []) receiptsData ;;
  let groupedByMonth := fst st in
  let categoryTotals := snd st in
  let months := sortedMonths groupedByMonth in
  let totalAmount := totalAmount receiptsData in
  let totalTax := totalTax receiptsData in
  let preTaxAmount := (totalAmount - totalTax)%Q in
  blocks <- monthBlocks groupedByMonth months ;;
  Ok (mkReport (List.length receiptsData)
               (List.length (JsObject.keys categoryTotals))
               preTaxAmount totalTax totalAmount
               (sort byAmountDesc (JsObject.entries categoryTotals))
               blocks).

End PdfReport.

(** ** The summary handler (server/routes.ts, [GET /api/receipts/summary]) *)

(** [year] is the query parameter or [undefined]; the default value of the
    parameter of [getReceiptStats], the current year, replaces
    [undefined] only. *)
Definition summary {eng : Engine} (currentYear : string) (db : list Receipt)
  (q : Query) : Response Stats :=
  let year := match Filters.year q with Some y => y | None => currentYear end in
  match getReceiptStats db (Filters.userId q) year with
  | Ok stats => Status200 stats
  | Throw _ => Status500 "Failed to get summary"
  end.

(** ** More vocabulary *)

(** The day of a date, at midnight. *)
Definition dayOf (d : Date) : Date :=
  mkDate (getFullYear d) (getMonth d) (getDate d) 0.

(** The engine reads the text it prints for the date of [r] back as the
    day of that date (as V8 does in the en-US locale for years from 100
    on, and in a locale that prints dates in the ISO form for years of
    four digits). *)
Definition readsBack {eng : Engine} (r : Receipt) : Prop :=
  parseDate (toLocaleDateString (date r)) = Some (dayOf (date r)).

(** A date of the calendar: a day of its month, a time within the day. *)
Definition validDate (d : Date) : Prop :=
  1 <= getDate d <= daysInMonth (getFullYear d) (getMonth d) /\
  0 <= msOfDay d < 86400000.

(** After midnight on the last day of [month] (of the year, when [month]
    is December). *)
Definition lateOnLastDay (d : Date) : Prop :=
  getDate d = daysInMonth (getFullYear d) (getMonth d) /\ 0 < msOfDay d.

(** A bucket and a row of the exact arithmetic, as the records of the
    rest of the development. *)
Definition exactTotals (t : Table.Totals Q) : Totals.t :=
  Totals.mk (Table.amount t) (Table.tax t) (Table.count t).

Definition exactEntry (kv : string * Table.Totals Q) : string * Totals.t :=
  (fst kv, exactTotals (snd kv)).

(** The cells of a row of the "Expenses" sheet that [Table.Row] keeps. *)
Definition cellsOf (row : Excel.Row) : Table.Row Q :=
  Table.mkRow (Excel.Date_ row) (Excel.Category row) (Excel.Tax row)
              (Excel.TotalPaid row).

(** A filter with its empty strings taken out. *)
Definition dropEmpty (f : Filters.t) : Filters.t :=
  Filters.mk (truthy (Filters.month f)) (truthy (Filters.year f))
             (truthy (Filters.category f)) (truthy (Filters.search f))
             (truthy (Filters.userId f)) (truthy (Filters.startDate f))
             (truthy (Filters.endDate f)).

Definition inMonth (m : Month) (r : Receipt) : bool :=
  monthIndex (getMonth (date r)) =? monthIndex m.

Definition inCategory (c : string) (r : Receipt) : bool :=
  String.eqb (category r) c.

(** Sum of the [count] fields of category totals. *)
Definition sumCount (l : list (string * Totals.t)) : Z :=
  fold_right (fun kv acc => Totals.count (snd kv) + acc) 0 l.

(** Sum of a quantity over any list. *)
Definition sumList {A : Type} (f : A -> Q) (l : list A) : Q :=
  fold_right (fun x acc => f x + acc)%Q 0%Q l.

(** The value under a key that is there, [d] otherwise. *)
Definition getOr {V : Type} (d : V) (k : string) (m : list (string * V)) : V :=
  match JsMap.get k m with
  | Some v => v
  | None => d
  end.

(** The receipts of a month in the order in which the ledger prints
    them: category by category, the categories in the order of the
    default sort; each with the headings it is printed under. *)
Definition printedEntries (monthYear : string)
  (categories : list (string * list Receipt))
  : list (string * string * Receipt) :=
  List.concat
    (map (fun k => map (fun r => (monthYear, k, r)) (getOr [] k categories))
         (sort PdfReport.laterString (JsObject.keys categories))).

(** The printed row of a record under its headings. *)
Definition rowEntry (e : string * string * Receipt)
  : string * string * (Z * Z * Z) :=
  (fst (fst e), snd (fst e), Pdf.rowText (snd e)).

(** Sum of the [Receipts] column of a summary sheet. *)
Definition sumReceipts (rows : list SummaryRow.t) : Z :=
  fold_right (fun x acc => SummaryRow.Receipts x + acc) 0 rows.

(** The receipts held by the groups, each with the month label and the
    category of its group. *)
Definition groupedEntries (g : Pdf.Grouped) : list (string * string * Receipt) :=
  List.concat
    (map (fun kv =>
            List.concat
              (map (fun kv2 => map (fun r => (fst kv, fst kv2, r)) (snd kv2))
                   (snd kv)))
         g).

(** The rows of the ledger, each with the month heading and the category
    heading it is printed under. *)
Definition ledgerEntries (l : list PdfReport.MonthBlock)
  : list (string * string * (Z * Z * Z)) :=
  List.concat
    (map (fun mb =>
            List.concat
              (map (fun cb =>
                      map (fun row => (PdfReport.blockMonth mb,
                                       PdfReport.blockCategory cb, row))
                          (PdfReport.blockRows cb))
                   (PdfReport.blockCategories mb)))
         l).

(** Where a record belongs in the ledger, and what its row shows. *)
Definition ledgerEntry (r : Receipt) : string * string * (Z * Z * Z) :=
  (monthYearOf (date r), category r, Pdf.rowText r).

(** The month a label stands for, counted from year 0. *)
Definition monthOrdinal (d : Date) : Z :=
  getFullYear d * 12 + monthIndex (getMonth d).

(** The month ordinal a label of the ledger is sorted by; 0 for a label
    that gives no date. *)
Definition labelOrdinal (label : string) : Z :=
  match PdfReport.labelDate label with
  | Some d => monthOrdinal d
  | None => 0
  end.

(** The label of month [m] of year [y] is read back as the first day of
    that month. *)
Definition labelReadBack (y : Z) (m : Month) : bool :=
  match PdfReport.labelDate (monthYearOf (mkDate y m 1 0)) with
  | Some d =>
      (getFullYear d =? y) && (monthIndex (getMonth d) =? monthIndex m) &&
      (getDate d =? 1) && (msOfDay d =? 0)
  | None => false
  end.

(** * Properties *)

(** ** Tax derivation *)

Lemma getTax_derived (r : Receipt) :
  tax r = None -> (getTax r == amount r # 2100)%Q.
Proof.
  intros H. unfold getTax, Number. rewrite H.
  unfold Qeq, Qminus, Qdiv, Qplus, Qmult, Qopp, Qinv. simpl. lia.
Qed.

Lemma Qfloor_unique (x : Q) (k : Z) :
  (inject_Z k <= x)%Q -> (x < inject_Z (k + 1))%Q -> Qfloor x = k.
Proof.
  intros Hl Hu.
  pose proof (Qfloor_le x) as H1. pose proof (Qlt_floor x) as H2.
  assert (inject_Z k < inject_Z (Qfloor x + 1))%Q as A
    by (eapply Qle_lt_trans; eauto).
  assert (inject_Z (Qfloor x) < inject_Z (k + 1))%Q as B
    by (eapply Qle_lt_trans; eauto).
  rewrite <- Zlt_Qlt in A, B. lia.
Qed.

(** A whole number of cents prints as itself. *)
Lemma toFixed2_cents (k : Z) : toFixed2 (k # 100) = k.
Proof.
  unfold toFixed2. destruct (Qle_bool 0 (k # 100)) eqn:E.
  - apply Qfloor_unique.
    + unfold Qle, Qmult, Qplus, inject_Z; simpl. lia.
    + unfold Qlt, Qmult, Qplus, inject_Z; simpl. lia.
  - enough (Qfloor (- (k # 100) * 100 + (1 # 2)) = - k)%Z by lia.
    apply Qfloor_unique.
    + unfold Qle, Qmult, Qplus, Qopp, inject_Z; simpl. lia.
    + unfold Qlt, Qmult, Qplus, Qopp, inject_Z; simpl. lia.
Qed.

#[local] Instance toFixed2_proper : Proper (Qeq ==> eq) toFixed2.
Proof.
  intros x y E. unfold toFixed2.
  assert (Qle_bool 0 x = Qle_bool 0 y) as -> by (rewrite E; reflexivity).
  destruct (Qle_bool 0 y); [| f_equal]; apply Qfloor_comp; rewrite E; reflexivity.
Qed.

(** The cents a number of 2100ths prints as. *)
Lemma toFixed2_2100 (n : Z) :
  toFixed2 (n # 2100) =
    if 0 <=? n then (2 * n + 21) / 42 else - ((21 - 2 * n) / 42).
Proof.
  unfold toFixed2, Qle_bool. cbn [Qnum Qden].
  replace (0 * Z.pos 2100 <=? n * 1) with (0 <=? n)
    by (apply Bool.eq_true_iff_eq; rewrite !Z.leb_le; lia).
  destruct (0 <=? n) eqn:E.
  - unfold Qfloor, Qmult, Qplus. cbn [Qnum Qden].
    Z.to_euclidean_division_equations. lia.
  - f_equal. unfold Qfloor, Qmult, Qplus, Qopp. cbn [Qnum Qden].
    Z.to_euclidean_division_equations. lia.
Qed.

(** C1: a stored tax is returned as it is; without one the tax is
    [amount - amount / 1.05]; for an amount of 0 that is 0, and a negative
    amount goes through the same formula, giving a negative tax. *)
Theorem getTax_stored_or_derived (r : Receipt) :
  (forall t, tax r = Some t -> getTax r = Number t) /\
  (tax r = None ->
   getTax r = (Number (amount r) - Number (amount r) / 1.05)%Q) /\
  (tax r = None -> amount r = 0 -> (getTax r == 0)%Q) /\
  (tax r = None -> amount r < 0 ->
   (getTax r == Number (amount r) / 21)%Q /\ (getTax r < 0)%Q).
Proof.
  repeat split.
  - intros t H. unfold getTax. now rewrite H.
  - intros H. unfold getTax. now rewrite H.
  - intros H H0. rewrite (getTax_derived r H), H0. reflexivity.
  - rewrite (getTax_derived r H). unfold Number, Qeq, Qdiv, Qmult, Qinv.
    simpl. lia.
  - rewrite (getTax_derived r H). unfold Qlt. simpl. lia.
Qed.

Lemma getTax_stored_or_derived_witness :
  tax recNeg = None /\ amount recNeg < 0 /\
  (getTax recNeg == Number (amount recNeg) / 21)%Q /\ (getTax recNeg < 0)%Q.
Proof.
  split; [reflexivity | split; [reflexivity |]].
  apply (getTax_stored_or_derived recNeg); reflexivity.
Defined.

(** C2, as the specification states it, fails: the tax derived for 100.00
    is 100/21, neither its rounding to two decimals nor 4.76, and the
    pre-tax amount is not 95.24. *)
Lemma getTax_not_rounded :
  tax rec100 = None /\
  ~ (getTax rec100 ==
     round2 (Number (amount rec100) - Number (amount rec100) / 1.05))%Q /\
  ~ (getTax rec100 == 4.76)%Q /\
  ~ (Number (amount rec100) - getTax rec100 == 95.24)%Q.
Proof.
  split; [reflexivity |].
  repeat split; intros H; vm_compute in H; discriminate H.
Qed.

(** C2, amended: without a stored tax the derived tax is
    [amount - amount / 1.05] as it is, with no rounding: unless the amount
    in cents is a multiple of 21 it is not a number of two decimals.
    Rounded to two decimals, as [toFixed(2)] does where a figure is
    printed (the rows of the PDF ledger, for instance), it is the cent
    nearest to a twenty-first of the amount.  For 100.00 the derived tax
    lies strictly between 4.76 and 4.77 and the pre-tax amount strictly
    between 95.23 and 95.24; they are printed as 4.76 and 95.24. *)
Theorem getTax_unrounded :
  (forall r : Receipt, tax r = None ->
     (getTax r == Number (amount r) - Number (amount r) / 1.05)%Q /\
     (amount r mod 21 <> 0 -> forall cents : Z, ~ (getTax r == cents # 100)%Q) /\
     2 * Z.abs (21 * toFixed2 (getTax r) - amount r) < 21 /\
     Pdf.rowText r =
       (toFixed2 (Number (amount r) - getTax r)%Q,
        toFixed2 (getTax r), amount r)) /\
  (4.76 < getTax rec100 < 4.77)%Q /\
  (95.23 < Number (amount rec100) - getTax rec100 < 95.24)%Q /\
  Pdf.rowText rec100 = (9524, 476, 10000).
Proof.
  split;
    [| split; [split; reflexivity | split; [split; reflexivity | reflexivity]]].
  intros r H.
  assert (getTax r = (Number (amount r) - Number (amount r) / 1.05)%Q) as Hd
    by (unfold getTax; now rewrite H).
  split; [rewrite Hd; reflexivity |].
  split; [| split].
  - intros M cents E. rewrite (getTax_derived r H) in E.
    unfold Qeq in E. cbn [Qnum Qden] in E. apply M.
    apply Z.mod_divide; [lia |]. exists cents. lia.
  - rewrite (getTax_derived r H), toFixed2_2100.
    destruct (0 <=? amount r); Z.to_euclidean_division_equations; lia.
  - unfold Pdf.rowText, Pdf.row, orElse, NumberOf, getTax. rewrite H.
    f_equal. apply toFixed2_cents.
Qed.

Lemma getTax_unrounded_witness :
  tax rec100 = None /\ amount rec100 mod 21 <> 0 /\
  ~ (getTax rec100 == 476 # 100)%Q /\ toFixed2 (getTax rec100) = 476.
Proof.
  destruct (proj1 getTax_unrounded rec100 eq_refl) as (_ & H2 & _).
  split; [reflexivity |].
  assert (amount rec100 mod 21 <> 0) as M by (vm_compute; discriminate).
  split; [exact M |]. split; [exact (H2 M 476) | reflexivity].
Defined.

(** ** Maps in insertion order *)

Section JsMapFacts.
Context {V : Type}.
Implicit Types (m : list (string * V)) (k : string) (v : V).

Lemma JsMap_get_set_eq k v m : JsMap.get k (JsMap.set k v m) = Some v.
Proof.
  induction m as [| [k' v'] m IH]; simpl.
  - now rewrite String.eqb_refl.
  - destruct (String.eqb k k') eqn:E; simpl.
    + now rewrite String.eqb_refl.
    + now rewrite E.
Qed.

Lemma JsMap_get_set_neq k k' v m :
  k <> k' -> JsMap.get k' (JsMap.set k v m) = JsMap.get k' m.
Proof.
  intros N. induction m as [| [k0 v0] m IH]; simpl.
  - destruct (String.eqb k' k) eqn:E; [| reflexivity].
    apply String.eqb_eq in E. congruence.
  - destruct (String.eqb k k0) eqn:E; simpl.
    + apply String.eqb_eq in E. subst k0.
      destruct (String.eqb k' k) eqn:E'; [| reflexivity].
      apply String.eqb_eq in E'. congruence.
    + now rewrite IH.
Qed.

Lemma JsMap_get_keys k m : JsMap.get k m <> None <-> In k (map fst m).
Proof.
  induction m as [| [k' v'] m IH]; simpl.
  - tauto.
  - destruct (String.eqb k k') eqn:E.
    + apply String.eqb_eq in E. subst. split; [auto | discriminate].
    + apply String.eqb_neq in E. rewrite IH. split; [auto |].
      intros [H | H]; [congruence | exact H].
Qed.

Lemma JsMap_get_In k v m : JsMap.get k m = Some v -> In (k, v) m.
Proof.
  induction m as [| [k' v'] m IH]; simpl; [discriminate |].
  destruct (String.eqb k k') eqn:E.
  - apply String.eqb_eq in E. intros [= ->]. subst. now left.
  - auto.
Qed.

(** [set] on a key that is present keeps the order of the keys. *)
Lemma JsMap_keys_set_present k v m :
  JsMap.get k m <> None -> map fst (JsMap.set k v m) = map fst m.
Proof.
  induction m as [| [k' v'] m IH]; simpl; [congruence |].
  destruct (String.eqb k k') eqn:E; simpl.
  - apply String.eqb_eq in E. now subst.
  - intros H. now rewrite IH.
Qed.

(** [set] on a new key appends it. *)
Lemma JsMap_keys_set_absent k v m :
  JsMap.get k m = None -> map fst (JsMap.set k v m) = map fst m ++ [k].
Proof.
  induction m as [| [k' v'] m IH]; simpl; [reflexivity |].
  destruct (String.eqb k k') eqn:E; [discriminate |].
  intros H. simpl. now rewrite IH.
Qed.

Lemma sumBy_set (f : V -> Q) k v m :
  (sumBy f (JsMap.set k v m) ==
   sumBy f m - match JsMap.get k m with Some v0 => f v0 | None => 0 end + f v)%Q.
Proof.
  induction m as [| [k' v'] m IH]; simpl.
  - ring.
  - destruct (String.eqb k k') eqn:E; simpl.
    + ring.
    + rewrite IH. ring.
Qed.
End JsMapFacts.

Lemma fold_left_sumOver (f : Receipt -> Q) (l : list Receipt) (a : Q) :
  (fold_left (fun sum r => sum + f r) l a == a + sumOver f l)%Q.
Proof.
  revert a. induction l as [| r l IH]; intros a; simpl.
  - ring.
  - rewrite IH. ring.
Qed.

(** ** The yearly summary *)

Lemma monthName_inj (m1 m2 : Month) : monthName m1 = monthName m2 -> m1 = m2.
Proof. destruct m1, m2; simpl; intros H; (reflexivity || discriminate H). Qed.

Lemma monthName_key (m : Month) : In (monthName m) (map monthName allMonths).
Proof. apply in_map. destruct m; simpl; tauto. Qed.

Lemma initMonthly_keys :
  map fst (fst initMonthly) = map monthName allMonths /\
  map fst (snd initMonthly) = map monthName allMonths /\
  Forall (fun kv => snd kv = Bucket.zero) (fst initMonthly).
Proof. repeat split. vm_compute. repeat constructor. Qed.

(** One turn of the monthly loop finds its month, keeps the twelve keys in
    place, adds the record to the sums and leaves the other months alone. *)
Lemma monthlyStep_ok (st : MonthlyState) (r : Receipt) :
  map fst (fst st) = map monthName allMonths ->
  map fst (snd st) = map monthName allMonths ->
  exists st',
    monthlyStep st r = Ok st' /\
    map fst (fst st') = map monthName allMonths /\
    map fst (snd st') = map monthName allMonths /\
    (sumTotal (fst st') == sumTotal (fst st) + Number (amount r))%Q /\
    (sumTax (fst st') == sumTax (fst st) + getTax r)%Q /\
    (forall k, k <> monthName (getMonth (date r)) ->
               JsMap.get k (fst st') = JsMap.get k (fst st)).
Proof.
  intros K1 K2. unfold monthlyStep.
  set (name := monthName (getMonth (date r))).
  assert (JsMap.get name (fst st) <> None) as P1
    by (apply JsMap_get_keys; rewrite K1; apply monthName_key).
  assert (JsMap.get name (snd st) <> None) as P2
    by (apply JsMap_get_keys; rewrite K2; apply monthName_key).
  destruct (JsMap.get name (fst st)) as [current |] eqn:E1; [| congruence].
  destruct (JsMap.get name (snd st)) as [catMap |] eqn:E2; [| congruence].
  simpl. eexists. split; [reflexivity |]. simpl.
  assert (JsMap.get name (fst st) <> None) as P1' by congruence.
  assert (JsMap.get name (snd st) <> None) as P2' by congruence.
  repeat split.
  - rewrite JsMap_keys_set_present; assumption.
  - rewrite JsMap_keys_set_present; assumption.
  - unfold sumTotal. rewrite sumBy_set, E1. simpl. ring.
  - unfold sumTax. rewrite sumBy_set, E1. simpl. ring.
  - intros k N. apply JsMap_get_set_neq. congruence.
Qed.

Lemma forEachMonthly_ok (l : list Receipt) : forall st : MonthlyState,
  map fst (fst st) = map monthName allMonths ->
  map fst (snd st) = map monthName allMonths ->
  exists st',
    forEachMonthly st l = Ok st' /\
    map fst (fst st') = map monthName allMonths /\
    map fst (snd st') = map monthName allMonths /\
    (sumTotal (fst st') == sumTotal (fst st) + sumOver (fun r => Number (amount r)) l)%Q /\
    (sumTax (fst st') == sumTax (fst st) + sumOver getTax l)%Q /\
    (forall m, (forall r, In r l -> getMonth (date r) <> m) ->
               JsMap.get (monthName m) (fst st') = JsMap.get (monthName m) (fst st)).
Proof.
  induction l as [| r l IH]; intros st K1 K2; simpl.
  - exists st. repeat split; try assumption; ring.
  - destruct (monthlyStep_ok st r K1 K2) as (st1 & E & K1' & K2' & S1 & S2 & G).
    rewrite E. simpl.
    destruct (IH st1 K1' K2') as (st' & E' & K1'' & K2'' & S1' & S2' & G').
    exists st'. repeat split; try assumption.
    + rewrite S1', S1. ring.
    + rewrite S2', S2. ring.
    + intros m Hm. rewrite G' by (intros r' Hr'; apply Hm; now right).
      apply G. intros Heq. apply monthName_inj in Heq.
      apply (Hm r); [now left | congruence].
Qed.

Lemma categoryStep_sums (l : list Receipt) : forall m : list (string * Bucket.t),
  (sumTotal (fold_left categoryStep l m) ==
   sumTotal m + sumOver (fun r => Number (amount r)) l)%Q /\
  (sumTax (fold_left categoryStep l m) == sumTax m + sumOver getTax l)%Q.
Proof.
  induction l as [| r l IH]; intros m; simpl.
  - split; ring.
  - destruct (IH (categoryStep m r)) as [S1 S2]. rewrite S1, S2.
    unfold categoryStep, getOrZero, sumTotal, sumTax.
    rewrite !sumBy_set.
    destruct (JsMap.get (category r) m); simpl; split; ring.
Qed.

(** What [receiptStats] returns, for every list of records. *)
Lemma receiptStats_ok (l : list Receipt) :
  exists stats,
    receiptStats l = Ok stats /\
    map fst (monthlyBreakdown stats) = map monthName allMonths /\
    (forall m, (forall r, In r l -> getMonth (date r) <> m) ->
               In (monthName m, Bucket.zero) (monthlyBreakdown stats)) /\
    (sumTotal (monthlyBreakdown stats) == totalExpenses stats)%Q /\
    (sumTotal (categoryBreakdown stats) == totalExpenses stats)%Q /\
    (sumTax (monthlyBreakdown stats) == totalTax stats)%Q /\
    (sumTax (categoryBreakdown stats) == totalTax stats)%Q.
Proof.
  destruct initMonthly_keys as (K1 & K2 & _).
  destruct (forEachMonthly_ok l initMonthly K1 K2)
    as (st & E & K1' & K2' & S1 & S2 & G).
  destruct (categoryStep_sums l []) as [C1 C2].
  unfold receiptStats. rewrite E. simpl. eexists. split; [reflexivity |].
  simpl. repeat split.
  - exact K1'.
  - intros m Hm. apply JsMap_get_In. rewrite (G m Hm).
    destruct m; reflexivity.
  - rewrite S1, fold_left_sumOver. vm_compute (sumTotal (fst initMonthly)). ring.
  - rewrite C1, fold_left_sumOver. simpl. ring.
  - rewrite S2, fold_left_sumOver. vm_compute (sumTax (fst initMonthly)). ring.
  - rewrite C2, fold_left_sumOver. simpl. ring.
Qed.

(** A string of the date-only form is read as that day by every engine. *)
Lemma parseDate_iso {eng : Engine} (s : string) (d : Date) :
  newDate s = Some d -> parseDate s = Some d.
Proof. intros H. unfold parseDate. now rewrite H. Qed.

Lemma newDate_length (s : string) (d : Date) :
  newDate s = Some d -> List.length (list_ascii_of_string s) = 10%nat.
Proof.
  unfold newDate.
  destruct (list_ascii_of_string s)
    as [| ? [| ? [| ? [| ? [| ? [| ? [| ? [| ? [| ? [| ? [| ? ?]]]]]]]]]]];
    try discriminate.
  reflexivity.
Qed.

Lemma length_list_ascii_app (a b : string) :
  List.length (list_ascii_of_string (a ++ b)) =
  (String.length a + String.length b)%nat.
Proof.
  induction a as [| c a IH]; simpl.
  - induction b as [| c b IH]; simpl; congruence.
  - now rewrite IH.
Qed.

(** A year whose first of January is of the date-only form is written with
    four digits. *)
Lemma newDate_isYear4 (year : string) (d : Date) :
  newDate (year ++ "-01-01") = Some d -> isYear4 year = true.
Proof.
  intros H. pose proof (newDate_length _ _ H) as L.
  rewrite length_list_ascii_app in L.
  destruct year as [| a [| b [| c [| e [| ? ?]]]]]; simpl in L; try lia.
  unfold newDate in H. unfold isYear4. simpl in H |- *.
  destruct (digit a), (digit b), (digit c), (digit e);
    solve [reflexivity | discriminate].
Qed.

Lemma receiptStatsOf_months (l : list Receipt) :
  receiptStatsOf (map monthName allMonths) l = receiptStats l.
Proof. reflexivity. Qed.

Lemma monthNamesOf_year4 {eng : Engine} (year : string) :
  isYear4 year = true -> monthNamesOf year = map monthName allMonths.
Proof. intros H. unfold monthNamesOf. now rewrite H. Qed.

(** With a year that parses, [getReceiptStats] aggregates the records of
    that year (and of that user). *)
Lemma getReceiptStats_selects {eng : Engine} (db : list Receipt) (user : option string)
  (year : string) (d1 d2 : Date) :
  newDate (year ++ "-01-01") = Some d1 ->
  newDate (year ++ "-12-31") = Some d2 ->
  exists yearReceipts,
    getReceiptStats db user year = receiptStats yearReceipts /\
    (forall r, In r yearReceipts <-> In r db /\ inYear d1 d2 user r).
Proof.
  intros H1 H2. unfold getReceiptStats, selectWhere.
  rewrite (parseDate_iso _ _ H1), (parseDate_iso _ _ H2).
  rewrite (monthNamesOf_year4 _ (newDate_isYear4 _ _ H1)).
  exists (filter
            (fun r => forallb (holds r)
                        ([gte_date (Some d1); lte_date (Some d2)]
                         ++ pushIf (truthy user) eq_userId)) db).
  split.
  - destruct (truthy user); simpl; reflexivity.
  - intros r. rewrite filter_In. unfold inYear.
    destruct (truthy user) as [u |]; simpl; rewrite ?andb_true_iff.
    + rewrite String.eqb_eq. split.
      * intros (? & ? & ? & ? & _). repeat split; auto. now intros u' [= <-].
      * intros (? & ? & ? & Hu). repeat split; auto.
    + split.
      * intros (? & ? & ? & _). repeat split; auto. discriminate.
      * intros (? & ? & ? & _). repeat split; auto.
Qed.

(** C3: whatever the records, the empty set included, the yearly summary
    comes back with exactly twelve monthly buckets, January to December in
    that order; a month without records has total 0 and tax 0; with no
    record at all the grand totals are 0 and every bucket is zero. *)
Theorem getReceiptStats_twelve_months {eng : Engine} (db : list Receipt)
  (user : option string) (year : string) (d1 d2 : Date) :
  newDate (year ++ "-01-01") = Some d1 ->
  newDate (year ++ "-12-31") = Some d2 ->
  exists stats yearReceipts,
    getReceiptStats db user year = Ok stats /\
    (forall r, In r yearReceipts <-> In r db /\ inYear d1 d2 user r) /\
    map fst (monthlyBreakdown stats) =
      ["January"; "February"; "March"; "April"; "May"; "June"; "July";
       "August"; "September"; "October"; "November"; "December"]%string /\
    List.length (monthlyBreakdown stats) = 12%nat /\
    (forall m, (forall r, In r yearReceipts -> getMonth (date r) <> m) ->
               In (monthName m, Bucket.zero) (monthlyBreakdown stats)) /\
    (yearReceipts = [] ->
     totalExpenses stats = 0%Q /\ totalTax stats = 0%Q /\
     Forall (fun kv => snd kv = Bucket.zero) (monthlyBreakdown stats)).
Proof.
  intros H1 H2.
  destruct (getReceiptStats_selects db user year d1 d2 H1 H2) as (l & E & M).
  destruct (receiptStats_ok l) as (stats & R & K & Z & _).
  exists stats, l. rewrite E.
  split; [exact R |]. split; [exact M |]. split; [exact K |].
  split; [rewrite <- (length_map fst), K; reflexivity |].
  split; [exact Z |].
  intros ->. injection R as <-. repeat split. apply initMonthly_keys.
Qed.

Lemma getReceiptStats_twelve_months_witness :
  exists stats,
    getReceiptStats [recA; recB] None "2024" = Ok stats /\
    List.length (monthlyBreakdown stats) = 12%nat /\
    In ("March"%string, Bucket.zero) (monthlyBreakdown stats).
Proof.
  destruct (getReceiptStats_twelve_months [recA; recB] None "2024"
              (mkDate 2024 Jan 1 0) (mkDate 2024 Dec 31 0) eq_refl eq_refl)
    as (stats & l & E & M & _ & L & Z & _).
  exists stats. split; [exact E | split; [exact L |]].
  apply (Z Mar). intros r Hr. apply M in Hr. destruct Hr as [[<- | [<- | []]] _];
    discriminate.
Defined.



(** ** The stable sort *)

Section SortFacts.
Context {A : Type} (after : A -> A -> bool).

Lemma insertSorted_perm (x : A) (l : list A) :
  Permutation (x :: l) (insertSorted after x l).
Proof.
  induction l as [| y l IH]; simpl; [reflexivity |].
  destruct (after x y); [| reflexivity].
  rewrite perm_swap. now apply perm_skip.
Qed.

Lemma sort_perm (l : list A) : Permutation l (sort after l).
Proof.
  induction l as [| x l IH]; simpl; [reflexivity |].
  rewrite <- insertSorted_perm. now apply perm_skip.
Qed.

Lemma sort_In (l : list A) (x : A) : In x (sort after l) <-> In x l.
Proof.
  split; apply Permutation_in; [symmetry |]; apply sort_perm.
Qed.

(** An element walks only past elements outside its own class, so the
    members of a class keep their order. *)
Lemma insertSorted_filter (p : A -> bool) (x : A) (l : list A) :
  (forall y, p x = true -> p y = true -> after x y = false) ->
  filter p (insertSorted after x l) = filter p (x :: l).
Proof.
  intros H. induction l as [| y l IH]; simpl; [reflexivity |].
  destruct (after x y) eqn:E; [| reflexivity].
  simpl in *. rewrite IH.
  destruct (p x) eqn:Px, (p y) eqn:Py; try reflexivity.
  rewrite (H y eq_refl Py) in E. discriminate.
Qed.

Lemma sort_stable (p : A -> bool) (l : list A) :
  (forall x y, p x = true -> p y = true -> after x y = false) ->
  filter p (sort after l) = filter p l.
Proof.
  intros H. induction l as [| x l IH]; simpl; [reflexivity |].
  rewrite insertSorted_filter by (intros y; apply H).
  simpl. now rewrite IH.
Qed.

Hypothesis after_trans :
  forall a b c, after a b = false -> after b c = false -> after a c = false.
Hypothesis after_asym : forall a b, after a b = true -> after b a = false.

Lemma insertSorted_sorted (x : A) (l : list A) :
  StronglySorted (fun a b => after a b = false) l ->
  StronglySorted (fun a b => after a b = false) (insertSorted after x l).
Proof.
  induction l as [| y l IH]; simpl; intros S.
  - repeat constructor.
  - inversion S as [| ? ? S' F]; subst.
    destruct (after x y) eqn:E.
    + constructor; [auto |].
      eapply Permutation_Forall; [apply insertSorted_perm |].
      constructor; [now apply after_asym | exact F].
    + constructor; [exact S |].
      constructor; [exact E |].
      eapply Forall_impl; [| exact F]. intros z Hz. eapply after_trans; eauto.
Qed.

Lemma sort_sorted (l : list A) :
  StronglySorted (fun a b => after a b = false) (sort after l).
Proof.
  induction l as [| x l IH]; simpl; [constructor |].
  now apply insertSorted_sorted.
Qed.
End SortFacts.

Lemma StronglySorted_impl {A : Type} (R R' : A -> A -> Prop) (l : list A) :
  (forall a b, R a b -> R' a b) -> StronglySorted R l -> StronglySorted R' l.
Proof.
  intros H. induction 1 as [| x l S IH F]; constructor; [exact IH |].
  eapply Forall_impl; [| exact F]. intros; now apply H.
Qed.

Lemma Qlt_bool_false (x y : Q) : Qlt_bool x y = false <-> (y <= x)%Q.
Proof.
  unfold Qlt_bool. rewrite negb_false_iff. apply Qle_bool_iff.
Qed.

(** Sorting by amount, largest first: the result is non-increasing, holds
    the same buckets, and keeps buckets of equal amount in their order. *)
Lemma byAmountDesc_sort (l : list (string * Totals.t)) :
  nonIncreasing Totals.amount (sort byAmountDesc l) /\
  Permutation l (sort byAmountDesc l) /\
  (forall v, withTotal Totals.amount v (sort byAmountDesc l) =
             withTotal Totals.amount v l).
Proof.
  split; [| split].
  - unfold nonIncreasing.
    apply StronglySorted_impl with (R := fun a b => byAmountDesc a b = false).
    + intros a b. unfold byAmountDesc. now rewrite Qlt_bool_false.
    + apply sort_sorted; unfold byAmountDesc.
      * intros a b c. rewrite !Qlt_bool_false. intros; eapply Qle_trans; eauto.
      * intros a b H. apply Qlt_bool_false.
        destruct (Qlt_le_dec (Totals.amount (snd a)) (Totals.amount (snd b)))
          as [L | L]; [now apply Qlt_le_weak |].
        apply Qlt_bool_false in L. congruence.
  - apply sort_perm.
  - intros v. unfold withTotal. apply sort_stable.
    intros x y Hx Hy. apply Qeq_bool_iff in Hx, Hy.
    unfold byAmountDesc. apply Qlt_bool_false. rewrite Hx, Hy. apply Qle_refl.
Qed.

(** ** Order of the keys of a dictionary *)

Lemma existsb_keys {V : Type} (k : string) (o : list (string * V)) :
  existsb (String.eqb k) (map fst o) = JsMap.has k o.
Proof.
  unfold JsMap.has. induction o as [| [k' v] o IH]; simpl; [reflexivity |].
  destruct (String.eqb k k'); [reflexivity | exact IH].
Qed.

Lemma firstSeen_ext (l : list string) : forall s1 s2 : list string,
  (forall k, existsb (String.eqb k) s1 = existsb (String.eqb k) s2) ->
  firstSeen s1 l = firstSeen s2 l.
Proof.
  induction l as [| k l IH]; intros s1 s2 H; simpl; [reflexivity |].
  rewrite <- (H k). destruct (existsb (String.eqb k) s1); [now apply IH |].
  f_equal. apply IH. intros k'. simpl. now rewrite H.
Qed.

Section KeyOrder.
Context {V R : Type} (key : R -> string) (skip : R -> bool).
Context (step : list (string * V) -> R -> list (string * V)).

Hypothesis step_skip : forall o r, skip r = true -> step o r = o.
Hypothesis step_keys : forall o r, skip r = false ->
  map fst (step o r) =
    if JsMap.has (key r) o then map fst o else map fst o ++ [key r].

(** Folding such a step over [l] lists the new keys in the order in which
    they are first met. *)
Lemma fold_left_keys (l : list R) : forall o : list (string * V),
  map fst (fold_left step l o) =
  map fst o
  ++ firstSeen (map fst o) (map key (filter (fun r => negb (skip r)) l)).
Proof.
  induction l as [| r l IH]; intros o; simpl.
  - now rewrite app_nil_r.
  - rewrite IH. destruct (skip r) eqn:S; simpl.
    + now rewrite step_skip.
    + rewrite step_keys by assumption. rewrite existsb_keys.
      destruct (JsMap.has (key r) o); [reflexivity |].
      rewrite <- app_assoc. simpl. do 2 f_equal.
      apply firstSeen_ext. intros k. rewrite existsb_app. simpl.
      rewrite orb_false_r. apply orb_comm.
Qed.
End KeyOrder.

Lemma JsMap_set_keys {V : Type} (k : string) (v : V) (o : list (string * V)) :
  map fst (JsMap.set k v o) =
    if JsMap.has k o then map fst o else map fst o ++ [k].
Proof.
  unfold JsMap.has. destruct (JsMap.get k o) eqn:E.
  - apply JsMap_keys_set_present. congruence.
  - now apply JsMap_keys_set_absent.
Qed.

Lemma filter_all {A : Type} (p : A -> bool) (l : list A) :
  (forall x, In x l -> p x = true) -> filter p l = l.
Proof.
  induction l as [| x l IH]; simpl; intros H; [reflexivity |].
  rewrite (H x) by now left. f_equal. apply IH. intros; apply H; now right.
Qed.

Lemma filter_none {A : Type} (p : A -> bool) (l : list A) :
  (forall x, In x l -> p x = false) -> filter p l = [].
Proof.
  induction l as [| x l IH]; simpl; intros H; [reflexivity |].
  rewrite (H x) by now left. apply IH. intros; apply H; now right.
Qed.

(** Without array-index names [Object.entries] follows creation order. *)
Lemma entries_creation_order {V : Type} (o : list (string * V)) :
  (forall k, In k (map fst o) -> JsObject.isIndex k = false) ->
  JsObject.entries o = o.
Proof.
  intros H. unfold JsObject.entries.
  rewrite filter_none, filter_all; [reflexivity | |];
    intros [k v] Hin; simpl; rewrite (H k); try reflexivity;
    apply in_map_iff; now exists (k, v).
Qed.

Lemma entries_perm {V : Type} (o : list (string * V)) :
  Permutation o (JsObject.entries o).
Proof.
  unfold JsObject.entries. rewrite <- sort_perm.
  induction o as [| kv o IH]; simpl; [reflexivity |].
  destruct (JsObject.isIndex (fst kv)); simpl.
  - now apply perm_skip.
  - rewrite <- Permutation_middle. now apply perm_skip.
Qed.

Lemma firstSeen_In (l : list string) : forall (seen : list string) (k : string),
  In k (firstSeen seen l) -> In k l.
Proof.
  induction l as [| k' l IH]; intros seen k; simpl; [tauto |].
  destruct (existsb (String.eqb k') seen).
  - intros H. right. eapply IH; eauto.
  - intros [H | H]; [now left | right; eapply IH; eauto].
Qed.

(** ** Category buckets of the summary and of the exports *)

Lemma addTotals_inherited (k : string) (a t : Q) (o : list (string * Totals.t)) :
  JsObject.inherited k = true -> addTotals k a t o = o.
Proof. intros H. unfold addTotals. now rewrite H. Qed.

Lemma addTotals_keys (k : string) (a t : Q) (o : list (string * Totals.t)) :
  JsObject.inherited k = false ->
  map fst (addTotals k a t o) =
    if JsMap.has k o then map fst o else map fst o ++ [k].
Proof. intros H. unfold addTotals. rewrite H. apply JsMap_set_keys. Qed.

(** The summary lists its categories in the order of their first record. *)
Lemma categoryBreakdown_keys (l : list Receipt) :
  map fst (fold_left categoryStep l []) = firstSeen [] (map category l).
Proof.
  rewrite (fold_left_keys category (fun _ => false) categoryStep).
  - simpl. now rewrite filter_all.
  - discriminate.
  - intros o r _. apply JsMap_set_keys.
Qed.

(** The tax an export derives for a record. *)
Lemma export_tax (r : Receipt) :
  NumberOf (orElse (tax r) (Number (amount r) - Number (amount r) / 1.05)%Q)
  = getTax r.
Proof. unfold getTax, orElse, NumberOf. now destruct (tax r). Qed.

(** The PDF loop goes through when no category bears an inherited name,
    and then [categoryTotals] is filled record by record. *)
Lemma Pdf_loop_ok (l : list Receipt) :
  forall st : Pdf.Grouped * list (string * Totals.t),
  (forall r, In r l -> JsObject.inherited (category r) = false) ->
  exists st',
    Pdf.loop st l = Ok st' /\
    snd st' =
      fold_left (fun o r => addTotals (category r) (Number (amount r)) (getTax r) o)
                l (snd st).
Proof.
  induction l as [| r l IH]; intros st H; simpl.
  - now exists st.
  - unfold Pdf.step. rewrite export_tax.
    set (g := if JsMap.has (monthYearOf (date r)) (fst st) then fst st
              else JsMap.set (monthYearOf (date r)) [] (fst st)).
    assert (exists c, JsMap.get (monthYearOf (date r)) g = Some c) as [c Hc].
    { subst g. unfold JsMap.has.
      destruct (JsMap.get (monthYearOf (date r)) (fst st)) eqn:E.
      - eauto.
      - rewrite JsMap_get_set_eq. eauto. }
    rewrite Hc. simpl. rewrite (H r) by now left. simpl.
    apply IH. intros r' Hr'. apply H. now right.
Qed.

(** An inherited category name stops the PDF export. *)
Lemma Pdf_loop_inherited (r : Receipt) (l : list Receipt)
  (st : Pdf.Grouped * list (string * Totals.t)) :
  JsObject.inherited (category r) = true ->
  Pdf.loop st (r :: l) = Throw TypeError.
Proof.
  intros H. simpl. unfold Pdf.step.
  set (g := if JsMap.has (monthYearOf (date r)) (fst st) then fst st
            else JsMap.set (monthYearOf (date r)) [] (fst st)).
  assert (exists c, JsMap.get (monthYearOf (date r)) g = Some c) as [c Hc].
  { subst g. unfold JsMap.has.
    destruct (JsMap.get (monthYearOf (date r)) (fst st)) eqn:E.
    - eauto.
    - rewrite JsMap_get_set_eq. eauto. }
  rewrite Hc. simpl. now rewrite H.
Qed.

Lemma Excel_summaryByCategory_fold (rows : list Excel.Row) :
  forall st : list (string * Totals.t) * list (string * Totals.t),
  snd (fold_left Excel.summaryStep rows st) =
  fold_left (fun o row => addTotals (Excel.Category row) (Excel.TotalPaid row)
                                    (Excel.Tax row) o)
            rows (snd st).
Proof.
  induction rows as [| row rows IH]; intros st; simpl; [reflexivity |].
  now rewrite IH.
Qed.

Lemma map_filter_comm {A B : Type} (f : A -> B) (p : B -> bool) (l : list A) :
  map f (filter (fun x => p (f x)) l) = filter p (map f l).
Proof.
  induction l as [| x l IH]; simpl; [reflexivity |].
  destruct (p (f x)); simpl; now rewrite IH.
Qed.

(** ** The category tables in any arithmetic *)

Section SortedOn.
Context {A : Type} (after : A -> A -> bool) (dom : list A).

Hypothesis after_trans : forall a b c, In a dom -> In b dom -> In c dom ->
  after a b = false -> after b c = false -> after a c = false.
Hypothesis after_asym : forall a b, In a dom -> In b dom ->
  after a b = true -> after b a = false.

Lemma insertSorted_sorted_on (x : A) (l : list A) :
  In x dom -> incl l dom ->
  StronglySorted (fun a b => after a b = false) l ->
  StronglySorted (fun a b => after a b = false) (insertSorted after x l).
Proof.
  intros Hx. induction l as [| y l IH]; simpl; intros Hl S.
  - repeat constructor.
  - inversion S as [| ? ? S' F]; subst.
    assert (In y dom) as Hy by (apply Hl; now left).
    assert (incl l dom) as Hl' by (intros z Hz; apply Hl; now right).
    destruct (after x y) eqn:E.
    + constructor; [auto |].
      eapply Permutation_Forall; [apply insertSorted_perm |].
      constructor; [now apply after_asym | exact F].
    + constructor; [exact S |].
      constructor; [exact E |].
      rewrite Forall_forall in F |- *. intros z Hz.
      apply (after_trans x y z); auto.
Qed.

Lemma sort_sorted_on (l : list A) :
  incl l dom -> StronglySorted (fun a b => after a b = false) (sort after l).
Proof.
  induction l as [| x l IH]; simpl; intros H; [constructor |].
  assert (incl l dom) as H' by (intros z Hz; apply H; now right).
  apply insertSorted_sorted_on; [apply H; now left | | now apply IH].
  intros z Hz. apply H'. now apply sort_In in Hz.
Qed.
End SortedOn.

Lemma consistentOn_spec {A : Type} (after : A -> A -> bool) (l : list A) :
  consistentOn after l = true ->
  (forall a b c, In a l -> In b l -> In c l ->
     after a b = false -> after b c = false -> after a c = false) /\
  (forall a b, In a l -> In b l -> after a b = true -> after b a = false).
Proof.
  unfold consistentOn. intros H. rewrite forallb_forall in H. split.
  - intros a b c Ha Hb Hc E1 E2. specialize (H a Ha).
    rewrite forallb_forall in H. specialize (H b Hb).
    apply andb_true_iff in H. destruct H as [_ H].
    rewrite forallb_forall in H. specialize (H c Hc).
    rewrite E1, E2 in H. simpl in H. now apply negb_true_iff in H.
  - intros a b Ha Hb E1. specialize (H a Ha).
    rewrite forallb_forall in H. specialize (H b Hb).
    apply andb_true_iff in H. destruct H as [H _].
    rewrite E1 in H. simpl in H. now apply negb_true_iff in H.
Qed.

(** A consistent comparison makes [sort] the stable sort. *)
Lemma sort_stablySorted {A : Type} (after : A -> A -> bool) (es : list A) :
  consistentOn after es = true -> stablySorted after es (sort after es).
Proof.
  intros C. destruct (consistentOn_spec after es C) as [T S].
  split; [apply sort_perm |]. split.
  - apply (sort_sorted_on after es T S). intros x Hx. exact Hx.
  - intros p Hp. now apply sort_stable.
Qed.

Section TableFacts.
Context {N : Type} {arith : Arith N}.

Lemma Table_add_inherited (k : string) (a t : N)
  (o : list (string * Table.Totals N)) :
  JsObject.inherited k = true -> Table.add k a t o = o.
Proof. intros H. unfold Table.add. now rewrite H. Qed.

Lemma Table_add_keys (k : string) (a t : N)
  (o : list (string * Table.Totals N)) :
  JsObject.inherited k = false ->
  map fst (Table.add k a t o) =
    if JsMap.has k o then map fst o else map fst o ++ [k].
Proof. intros H. unfold Table.add. rewrite H. apply JsMap_set_keys. Qed.

(** The loop of the PDF handler goes through when no category bears an
    inherited name, and stops at the first one that does. *)
Lemma Table_pdfLoop (l : list Receipt) :
  forall o : list (string * Table.Totals N),
  Table.pdfLoop o l =
    if existsb (fun r => JsObject.inherited (category r)) l then Throw TypeError
    else Ok (fold_left
               (fun o r => Table.add (category r) (Table.total r) (Table.taxOf r) o)
               l o).
Proof.
  induction l as [| r l IH]; intros o; simpl; [reflexivity |].
  unfold Table.pdfStep. destruct (JsObject.inherited (category r)); simpl;
    [reflexivity | apply IH].
Qed.

Lemma existsb_none {A : Type} (p : A -> bool) (l : list A) :
  (forall x, In x l -> p x = false) -> existsb p l = false.
Proof.
  induction l as [| x l IH]; simpl; intros H; [reflexivity |].
  rewrite (H x) by now left. apply IH. intros; apply H; now right.
Qed.

Lemma Table_keys {R : Type} (key : R -> string) (a t : R -> N) (l : list R) :
  map fst (fold_left (fun o r => Table.add (key r) (a r) (t r) o) l []) =
  firstSeen [] (filter (fun c => negb (JsObject.inherited c)) (map key l)).
Proof.
  rewrite (fold_left_keys key (fun r => JsObject.inherited (key r))).
  - simpl. now rewrite (map_filter_comm key (fun c => negb (JsObject.inherited c))).
  - intros o r Hs. now apply Table_add_inherited.
  - intros o r Hs. now apply Table_add_keys.
Qed.
End TableFacts.

(** C5, as the specification states it, fails.  In the summary API the
    category breakdown of two records, 10.00 of Food then 20.00 of Travel,
    lists Food before Travel.  In the PDF table, three records of Office
    of 19.70, 19.04 and 11.26 followed by one of Travel of 50.00 make two
    categories that both total 50.00, Office first seen; in the arithmetic
    of doubles the sum of Office falls short of 50 and Travel is listed
    first. *)
Lemma categoryBreakdown_not_sorted :
  (exists stats,
     getReceiptStats [recSmall; recLarge] None "2024" = Ok stats /\
     map fst (categoryBreakdown stats) = ["Food"; "Travel"]%string /\
     ~ nonIncreasing Bucket.total (categoryBreakdown stats)) /\
  (Number 1970%Z + Number 1904%Z + Number 1126%Z == Number 5000%Z)%Q /\
  firstSeen [] (map category [recOffice1; recOffice2; recOffice3; recTrain])
    = ["Office"; "Travel"]%string /\
  exists cats,
    Table.pdfSortedCategories (N := PrimFloat.float)
      [recOffice1; recOffice2; recOffice3; recTrain] = Ok cats /\
    map fst cats = ["Travel"; "Office"]%string.
Proof.
  split; [| split; [reflexivity | split; [reflexivity |]]].
  - eexists. split; [vm_compute; reflexivity |]. split; [reflexivity |].
    intros S. inversion S as [| ? ? _ F]; subst.
    inversion F as [| ? ? L _]; subst.
    vm_compute in L. now apply L.
  - eexists. split; vm_compute; reflexivity.
Qed.

(** A category named by a number is listed before those seen earlier. *)
Example numeric_category_first :
  Pdf.sortedCategories [recTie1; recTie2] =
    Ok [("1099"%string, Totals.mk (Number 5000) (getTax recTie2) 1);
        ("Shopping"%string, Totals.mk (Number 5000) (getTax recTie1) 1)].
Proof.
  vm_compute. reflexivity.
Qed.

(** C5, amended: in the category table of the PDF and in the category
    sheet of the Excel export, whatever the arithmetic the totals are
    computed in, the buckets are those of [categoryTotals] (of
    [summaryByCategory]), none standing before a bucket of larger computed
    total, and buckets none of which has a larger computed total than
    another standing in the order [Object.entries] gives them; this when
    the comparison of the totals is consistent, as it is for doubles that
    are numbers.  The order of [Object.entries] is the order in which the
    categories are first met (in the Excel export: met in the rows as the
    handler has sorted them) as long as no category name is an array
    index.  The PDF export is considered for category names that are not
    members of [Object.prototype]; the Excel export leaves such categories
    out.  The summary API returns its category breakdown in first-seen
    order, not sorted by total. *)
Theorem category_order {eng : Engine} {N : Type} {arith : Arith N} :
  (forall receiptsData : list Receipt,
     (forall r, In r receiptsData -> JsObject.inherited (category r) = false) ->
     exists o cats,
       Table.pdfCategoryTotals receiptsData = Ok o /\
       Table.pdfSortedCategories receiptsData = Ok cats /\
       map fst o = firstSeen [] (map category receiptsData) /\
       ((forall r, In r receiptsData -> JsObject.isIndex (category r) = false) ->
        JsObject.entries o = o) /\
       (consistentOn Table.byAmountDesc (JsObject.entries o) = true ->
        stablySorted Table.byAmountDesc (JsObject.entries o) cats)) /\
  (forall receipts : list Receipt,
     let o := Table.summaryByCategory receipts in
     let cats := Table.sortedCategoryEntries receipts in
     map fst o =
       firstSeen [] (filter (fun c => negb (JsObject.inherited c))
                            (map Table.Category (Table.excelData receipts))) /\
     ((forall r, In r receipts -> JsObject.isIndex (category r) = false) ->
      JsObject.entries o = o) /\
     (consistentOn Table.byAmountDesc (JsObject.entries o) = true ->
      stablySorted Table.byAmountDesc (JsObject.entries o) cats)) /\
  (forall yearReceipts : list Receipt,
     exists stats,
       receiptStats yearReceipts = Ok stats /\
       map fst (categoryBreakdown stats) =
         firstSeen [] (map category yearReceipts)).
Proof.
  split; [| split].
  - intros l H.
    assert (existsb (fun r => JsObject.inherited (category r)) l = false) as X
      by now apply existsb_none.
    eexists. eexists.
    unfold Table.pdfSortedCategories, Table.pdfCategoryTotals.
    rewrite Table_pdfLoop, X. cbn [bind].
    split; [reflexivity |]. split; [reflexivity |].
    assert (map fst
              (fold_left
                 (fun o r => Table.add (category r) (Table.total r) (Table.taxOf r) o)
                 l []) = firstSeen [] (map category l)) as K.
    { rewrite (Table_keys category). rewrite filter_all; [reflexivity |].
      intros c Hc. apply in_map_iff in Hc. destruct Hc as (r & <- & Hr).
      now rewrite (H r Hr). }
    split; [exact K |]. split.
    + intros NI. apply entries_creation_order. intros k Hk.
      rewrite K in Hk. apply firstSeen_In in Hk.
      apply in_map_iff in Hk. destruct Hk as (r & <- & Hr). now apply NI.
    + apply sort_stablySorted.
  - intros l o cats. subst o cats.
    assert (map fst (Table.summaryByCategory l) =
            firstSeen [] (filter (fun c => negb (JsObject.inherited c))
                                 (map Table.Category (Table.excelData l)))) as K
      by apply (Table_keys Table.Category).
    split; [exact K |]. split.
    + intros NI. apply entries_creation_order. intros k Hk.
      rewrite K in Hk. apply firstSeen_In in Hk.
      apply filter_In in Hk. destruct Hk as [Hk _].
      apply in_map_iff in Hk. destruct Hk as (row & <- & Hrow).
      unfold Table.excelData in Hrow. apply sort_In in Hrow.
      apply in_map_iff in Hrow. destruct Hrow as (r & <- & Hr).
      simpl. now apply NI.
    + apply sort_stablySorted.
  - intros l. destruct (receiptStats_ok l) as (stats & R & _).
    exists stats. split; [exact R |].
    unfold receiptStats in R.
    destruct (forEachMonthly initMonthly l); simpl in R; [| discriminate].
    injection R as <-. simpl. apply categoryBreakdown_keys.
Qed.

Lemma category_order_witness :
  exists o cats,
    Table.pdfCategoryTotals (N := PrimFloat.float)
      [recOffice1; recOffice2; recOffice3; recTrain] = Ok o /\
    Table.pdfSortedCategories [recOffice1; recOffice2; recOffice3; recTrain]
      = Ok cats /\
    consistentOn Table.byAmountDesc (JsObject.entries o) = true /\
    stablySorted Table.byAmountDesc (JsObject.entries o) cats /\
    map fst (JsObject.entries o) = ["Office"; "Travel"]%string /\
    map fst cats = ["Travel"; "Office"]%string.
Proof.
  destruct (proj1 (category_order (N := PrimFloat.float))
              [recOffice1; recOffice2; recOffice3; recTrain])
    as (o & cats & E1 & E2 & _ & _ & S).
  - intros r [<- | [<- | [<- | [<- | []]]]]; reflexivity.
  - assert (consistentOn Table.byAmountDesc (JsObject.entries o) = true) as C.
    { vm_compute in E1. injection E1 as <-. vm_compute. reflexivity. }
    exists o, cats. split; [exact E1 |]. split; [exact E2 |].
    split; [exact C |]. split; [exact (S C) |].
    vm_compute in E1. injection E1 as <-.
    vm_compute in E2. injection E2 as <-.
    split; reflexivity.
Defined.

(** ** The exact arithmetic as an instance *)

Lemma consistentOn_intro {A : Type} (after : A -> A -> bool) (l : list A) :
  (forall a b c, after a b = false -> after b c = false -> after a c = false) ->
  (forall a b, after a b = true -> after b a = false) ->
  consistentOn after l = true.
Proof.
  intros T S. unfold consistentOn.
  apply forallb_forall. intros a _. apply forallb_forall. intros b _.
  apply andb_true_iff. split.
  - destruct (after a b) eqn:E; [| reflexivity]. simpl. now rewrite (S a b E).
  - apply forallb_forall. intros c _.
    destruct (after a b) eqn:E1; [reflexivity |].
    destruct (after b c) eqn:E2; [reflexivity |].
    simpl. now rewrite (T a b c E1 E2).
Qed.

Lemma bool_eq_false (x y : bool) : (x = false <-> y = false) -> x = y.
Proof. destruct x, y; intros [H1 H2]; auto; symmetry; auto. Qed.

(** In the exact arithmetic the comparison by the difference of the
    totals is the comparison of the totals. *)
Lemma rational_byAmountDesc (a b : string * Table.Totals Q) :
  Table.byAmountDesc a b = byAmountDesc (exactEntry a) (exactEntry b).
Proof.
  unfold Table.byAmountDesc, byAmountDesc, exactEntry, exactTotals.
  cbn [snd Totals.amount isPositive nsub rational].
  apply bool_eq_false. rewrite !Qlt_bool_false.
  rewrite (Qle_minus_iff (Table.amount (snd b) - Table.amount (snd a)) 0).
  rewrite (Qle_minus_iff (Table.amount (snd b)) (Table.amount (snd a))).
  assert (0 + - (Table.amount (snd b) - Table.amount (snd a))
          == Table.amount (snd a) + - Table.amount (snd b))%Q as -> by ring.
  reflexivity.
Qed.

(** There the comparison is consistent on every table. *)
Lemma rational_consistent (es : list (string * Table.Totals Q)) :
  consistentOn Table.byAmountDesc es = true.
Proof.
  apply consistentOn_intro.
  - intros a b c. rewrite !rational_byAmountDesc. unfold byAmountDesc.
    rewrite !Qlt_bool_false. intros; eapply Qle_trans; eauto.
  - intros a b. rewrite !rational_byAmountDesc. unfold byAmountDesc.
    intros H. apply Qlt_bool_false.
    destruct (Qlt_le_dec (Totals.amount (snd (exactEntry a)))
                         (Totals.amount (snd (exactEntry b)))) as [L | L];
      [now apply Qlt_le_weak |].
    apply Qlt_bool_false in L. congruence.
Qed.

Lemma insertSorted_map {A B : Type} (f : A -> B) (after : A -> A -> bool)
  (after' : B -> B -> bool) (x : A) (l : list A) :
  (forall a b, after a b = after' (f a) (f b)) ->
  map f (insertSorted after x l) = insertSorted after' (f x) (map f l).
Proof.
  intros H. induction l as [| y l IH]; simpl; [reflexivity |].
  rewrite <- H. destruct (after x y); simpl; [now rewrite IH | reflexivity].
Qed.

Lemma sort_map {A B : Type} (f : A -> B) (after : A -> A -> bool)
  (after' : B -> B -> bool) (l : list A) :
  (forall a b, after a b = after' (f a) (f b)) ->
  map f (sort after l) = sort after' (map f l).
Proof.
  intros H. induction l as [| x l IH]; simpl; [reflexivity |].
  now rewrite (insertSorted_map f after after' _ _ H), IH.
Qed.

Lemma filter_map_comm {A B : Type} (f : A -> B) (p : B -> bool) (q : A -> bool)
  (l : list A) :
  (forall x, q x = p (f x)) -> filter p (map f l) = map f (filter q l).
Proof.
  intros H. induction l as [| x l IH]; simpl; [reflexivity |].
  rewrite <- H. destruct (q x); simpl; now rewrite IH.
Qed.

Lemma entries_exact (o : list (string * Table.Totals Q)) :
  JsObject.entries (map exactEntry o) = map exactEntry (JsObject.entries o).
Proof.
  unfold JsObject.entries. rewrite map_app. f_equal.
  - rewrite (filter_map_comm exactEntry _ (fun kv => JsObject.isIndex (fst kv)))
      by reflexivity.
    symmetry. now apply sort_map.
  - now apply filter_map_comm.
Qed.

Lemma get_exact (k : string) (o : list (string * Table.Totals Q)) :
  JsMap.get k (map exactEntry o) = option_map exactTotals (JsMap.get k o).
Proof.
  induction o as [| [k' v] o IH]; simpl; [reflexivity |].
  destruct (String.eqb k k'); [reflexivity | exact IH].
Qed.

Lemma set_exact (k : string) (v : Table.Totals Q)
  (o : list (string * Table.Totals Q)) :
  map exactEntry (JsMap.set k v o) = JsMap.set k (exactTotals v) (map exactEntry o).
Proof.
  induction o as [| [k' v'] o IH]; simpl; [reflexivity |].
  destruct (String.eqb k k'); simpl; [reflexivity | now rewrite IH].
Qed.

Lemma add_exact (k : string) (a t : Q) (o : list (string * Table.Totals Q)) :
  map exactEntry (Table.add k a t o) = addTotals k a t (map exactEntry o).
Proof.
  unfold Table.add, addTotals. destruct (JsObject.inherited k); [reflexivity |].
  rewrite set_exact, get_exact. now destruct (JsMap.get k o).
Qed.

Lemma fold_exact {R : Type} (key : R -> string) (a t : R -> Q) (l : list R) :
  forall o : list (string * Table.Totals Q),
  map exactEntry (fold_left (fun o r => Table.add (key r) (a r) (t r) o) l o) =
  fold_left (fun o r => addTotals (key r) (a r) (t r) o) l (map exactEntry o).
Proof.
  induction l as [| r l IH]; intros o; simpl; [reflexivity |].
  now rewrite IH, add_exact.
Qed.

Lemma fold_left_same {A B : Type} (f g : A -> B -> A) (l : list B) :
  (forall a b, f a b = g a b) -> forall a, fold_left f l a = fold_left g l a.
Proof.
  intros H. induction l as [| x l IH]; intros a; simpl; [reflexivity |].
  now rewrite H, IH.
Qed.

Lemma fold_left_mapped {A B C : Type} (f : A -> C -> A) (h : B -> C) (l : list B) :
  forall a, fold_left f (map h l) a = fold_left (fun a x => f a (h x)) l a.
Proof. induction l as [| x l IH]; intros a; simpl; [reflexivity | apply IH]. Qed.

(** In the exact arithmetic the tax of an export is that of [getTax]. *)
Lemma taxOf_exact (r : Receipt) : Table.taxOf r = getTax r.
Proof. reflexivity. Qed.

(** [categoryTotals] of the PDF handler, as a fold. *)
Lemma Pdf_categoryTotals_fold (l : list Receipt) :
  forall st : Pdf.Grouped * list (string * Totals.t),
  (st' <- Pdf.loop st l ;; Ok (snd st')) =
    if existsb (fun r => JsObject.inherited (category r)) l then Throw TypeError
    else Ok (fold_left
               (fun o r => addTotals (category r) (Number (amount r)) (getTax r) o)
               l (snd st)).
Proof.
  induction l as [| r l IH]; intros st; simpl; [reflexivity |].
  unfold Pdf.step. rewrite export_tax.
  set (g := if JsMap.has (monthYearOf (date r)) (fst st) then fst st
            else JsMap.set (monthYearOf (date r)) [] (fst st)).
  assert (exists c, JsMap.get (monthYearOf (date r)) g = Some c) as [c Hc].
  { subst g. unfold JsMap.has.
    destruct (JsMap.get (monthYearOf (date r)) (fst st)) eqn:E.
    - eauto.
    - rewrite JsMap_get_set_eq. eauto. }
  rewrite Hc. cbn [nonNull bind].
  destruct (JsObject.inherited (category r)); cbn [bind orb];
    [reflexivity | apply IH].
Qed.

(** In the exact arithmetic the category table of the PDF is the one of
    [Pdf.sortedCategories]. *)
Lemma Table_rational_pdf (l : list Receipt) :
  Pdf.sortedCategories l =
    match Table.pdfSortedCategories (N := Q) l with
    | Ok cats => Ok (map exactEntry cats)
    | Throw e => Throw e
    end.
Proof.
  unfold Pdf.sortedCategories, Pdf.categoryTotals, Table.pdfSortedCategories,
    Table.pdfCategoryTotals.
  rewrite Pdf_categoryTotals_fold, Table_pdfLoop.
  destruct (existsb (fun r => JsObject.inherited (category r)) l);
    cbn [bind]; [reflexivity |].
  f_equal. rewrite (sort_map exactEntry Table.byAmountDesc byAmountDesc)
    by apply rational_byAmountDesc.
  rewrite <- entries_exact. do 2 f_equal.
  rewrite (fold_exact category (fun r => Table.total r) (fun r => Table.taxOf r)).
  apply fold_left_same. intros o r. reflexivity.
Qed.

Lemma toRow_cells {eng : Engine} (r : Receipt) :
  Table.toRow r = cellsOf (Excel.toRow r).
Proof.
  unfold Table.toRow, cellsOf, Excel.toRow.
  cbn [Excel.Date_ Excel.Category Excel.Tax Excel.TotalPaid].
  now rewrite export_tax, taxOf_exact.
Qed.

(** In the exact arithmetic the entries behind the category sheet of the
    Excel export are those of [Excel.sortedCategoryEntries]. *)
Lemma Table_rational_excel {eng : Engine} (l : list Receipt) :
  Excel.sortedCategoryEntries l =
    map exactEntry (Table.sortedCategoryEntries (N := Q) l).
Proof.
  unfold Excel.sortedCategoryEntries, Table.sortedCategoryEntries.
  rewrite (sort_map exactEntry Table.byAmountDesc byAmountDesc)
    by apply rational_byAmountDesc.
  rewrite <- entries_exact. do 2 f_equal.
  unfold Excel.summaryByCategory, Table.summaryByCategory.
  rewrite Excel_summaryByCategory_fold. cbn [snd].
  rewrite (fold_exact Table.Category Table.TotalPaid Table.Tax).
  cbn [map].
  assert (Table.excelData l = map cellsOf (Excel.excelData l)) as ->.
  { unfold Table.excelData, Excel.excelData.
    rewrite (sort_map cellsOf Excel.olderRow Table.olderRow) by reflexivity.
    f_equal. rewrite map_map. apply map_ext. intros r. apply toRow_cells. }
  now rewrite fold_left_mapped.
Qed.

(** ** Dates and patterns *)

Lemma Date_leb_trans (a b c : Date) :
  Date_leb a b = true -> Date_leb b c = true -> Date_leb a c = true.
Proof.
  unfold Date_leb.
  rewrite !orb_true_iff, !andb_true_iff, !orb_true_iff, !andb_true_iff,
    !orb_true_iff, !andb_true_iff, !Z.ltb_lt, !Z.eqb_eq, !Z.leb_le.
  lia.
Qed.

(** No date lies between a start and an earlier end. *)
Lemma Date_empty_range (ds de d : Date) :
  Date_ltb de ds = true -> Date_leb ds d && Date_leb d de = false.
Proof.
  unfold Date_ltb. rewrite negb_true_iff. intros H.
  destruct (Date_leb ds d) eqn:E1; [| reflexivity].
  destruct (Date_leb d de) eqn:E2; [| reflexivity].
  rewrite (Date_leb_trans ds d de E1 E2) in H. discriminate.
Qed.

Lemma list_ascii_of_string_app (s t : string) :
  list_ascii_of_string (s ++ t) = list_ascii_of_string s ++ list_ascii_of_string t.
Proof. induction s as [| c s IH]; simpl; [reflexivity | now rewrite IH]. Qed.

(** A pattern that ends with an unescaped or escaped [%] is well formed. *)
Lemma tokens_percent_end (p : list ascii) :
  Like.tokens (p ++ ["%"%char]) <> None /\
  forall c, Like.tokens (c :: p ++ ["%"%char]) <> None.
Proof.
  induction p as [| a p [IH1 IH2]].
  - split; [discriminate |]. intros c. simpl.
    destruct (Ascii.eqb c "\"); [discriminate |].
    destruct (Ascii.eqb c "%"); [discriminate |].
    destruct (Ascii.eqb c "_"); discriminate.
  - split; [apply IH2 |]. intros c.
    change (Like.tokens (c :: (a :: p) ++ ["%"%char]))
      with (if Ascii.eqb c "\"%char
            then option_map (cons (Like.Lit a)) (Like.tokens (p ++ ["%"%char]))
            else if Ascii.eqb c "%"%char
                 then option_map (cons Like.AnySeq) (Like.tokens (a :: p ++ ["%"%char]))
                 else if Ascii.eqb c "_"%char
                      then option_map (cons Like.AnyChar) (Like.tokens (a :: p ++ ["%"%char]))
                      else option_map (cons (Like.Lit c)) (Like.tokens (a :: p ++ ["%"%char]))).
    specialize (IH2 a).
    destruct (Like.tokens (p ++ ["%"%char])); [| congruence].
    destruct (Like.tokens (a :: p ++ ["%"%char])); [| congruence].
    destruct (Ascii.eqb c "\"); [discriminate |].
    destruct (Ascii.eqb c "%"); [discriminate |].
    destruct (Ascii.eqb c "_"); discriminate.
Qed.

(** The pattern [`%${search}%`] is always accepted. *)
Lemma like_wrapped (t s : string) :
  Like.like t ("%" ++ s ++ "%") <> None.
Proof.
  unfold Like.like. rewrite !list_ascii_of_string_app. simpl.
  destruct (tokens_percent_end (list_ascii_of_string s)) as [H _].
  destruct (Like.tokens (list_ascii_of_string s ++ ["%"%char])); [| congruence].
  discriminate.
Qed.

Lemma tokens_plain (s : list ascii) : forall p : list ascii,
  forallb (fun c => negb (isLikeSpecial c)) s = true ->
  Like.tokens (s ++ p) = option_map (app (map Like.Lit s)) (Like.tokens p).
Proof.
  induction s as [| c s IH]; intros p H; simpl.
  - destruct (Like.tokens p); reflexivity.
  - simpl in H. apply andb_true_iff in H. destruct H as [Hc Hs].
    unfold isLikeSpecial in Hc. rewrite negb_true_iff, !orb_false_iff in Hc.
    destruct Hc as ((-> & ->) & ->).
    rewrite (IH p Hs). destruct (Like.tokens p); reflexivity.
Qed.

Lemma matches_any (t : list ascii) : Like.matches [Like.AnySeq] t = true.
Proof. induction t as [| c t IH]; simpl; [reflexivity | exact IH]. Qed.

Lemma matches_star (ts : list Like.tok) (t : list ascii) :
  Like.matches (Like.AnySeq :: ts) t = true <->
  exists pre post, t = pre ++ post /\ Like.matches ts post = true.
Proof.
  induction t as [| c t IH].
  - simpl. rewrite orb_false_r. split.
    + intros H. now exists [], [].
    + intros (pre & post & E & H). symmetry in E.
      apply app_eq_nil in E. destruct E as [-> ->]. exact H.
  - change (Like.matches (Like.AnySeq :: ts) (c :: t))
      with (Like.matches ts (c :: t) || Like.matches (Like.AnySeq :: ts) t).
    rewrite orb_true_iff, IH. split.
    + intros [H | (pre & post & -> & H)].
      * now exists [], (c :: t).
      * now exists (c :: pre), post.
    + intros ([| c' pre] & post & E & H).
      * left. simpl in E. now subst.
      * right. injection E as -> ->. now exists pre, post.
Qed.

Lemma matches_literals (s : list ascii) (ts : list Like.tok) :
  forall t : list ascii,
  Like.matches (map Like.Lit s ++ ts) t = true <->
  exists rest, t = s ++ rest /\ Like.matches ts rest = true.
Proof.
  induction s as [| c s IH]; intros t; simpl.
  - split; [intros H; now exists t | intros (rest & -> & H); exact H].
  - destruct t as [| c' t].
    + split; [discriminate | intros (rest & E & _); discriminate].
    + rewrite andb_true_iff, IH, Ascii.eqb_eq. split.
      * intros (-> & rest & -> & H). now exists rest.
      * intros (rest & E & H). injection E as -> ->. split; [reflexivity |].
        now exists rest.
Qed.

(** For a search string without special characters, [LIKE '%s%'] is
    containment, character for character. *)
Lemma like_plain_contains (t s : string) :
  forallb (fun c => negb (isLikeSpecial c)) (list_ascii_of_string s) = true ->
  Like.like t ("%" ++ s ++ "%") = Some true <->
  contains (list_ascii_of_string t) (list_ascii_of_string s).
Proof.
  intros P. unfold Like.like. rewrite !list_ascii_of_string_app.
  change (list_ascii_of_string "%") with ["%"%char].
  change (Like.tokens (["%"%char] ++ list_ascii_of_string s ++ ["%"%char]))
    with (option_map (cons Like.AnySeq)
            (Like.tokens (list_ascii_of_string s ++ ["%"%char]))).
  rewrite (tokens_plain _ _ P). simpl. unfold contains. split.
  - intros [= H]. apply matches_star in H. destruct H as (pre & post & -> & H).
    apply matches_literals in H. destruct H as (rest & -> & _).
    now exists pre, rest.
  - intros (pre & post & ->). f_equal. apply matches_star.
    exists pre, (list_ascii_of_string s ++ post). split; [reflexivity |].
    apply matches_literals. exists post. split; [reflexivity |].
    apply matches_any.
Qed.

(** ** Record selection *)

Lemma checkAll_app (a b : list Condition) :
  checkAll (a ++ b) = (_ <- checkAll a ;; checkAll b).
Proof.
  induction a as [| c a IH]; simpl; [reflexivity |].
  destruct (check c); simpl; [exact IH | reflexivity].
Qed.

Lemma checkAll_user (o : option string) : checkAll (pushIf o eq_userId) = Ok tt.
Proof. now destruct o. Qed.

Lemma checkAll_category (o : option string) :
  checkAll (pushIf o eq_category) = Ok tt.
Proof. now destruct o. Qed.

Lemma checkAll_search (o : option string) :
  checkAll (pushIf o (fun s => like_merchantName ("%" ++ s ++ "%"))) = Ok tt.
Proof.
  destruct o as [s |]; [| reflexivity].
  unfold pushIf, checkAll, check.
  pose proof (like_wrapped "" s) as H.
  destruct (Like.like "" ("%" ++ s ++ "%")); [reflexivity | congruence].
Qed.

(** Only the date conditions can make the query fail. *)
Lemma checkAll_conditions {eng : Engine} (f : Filters.t) :
  checkAll (conditions f) = checkAll (dateConditions f).
Proof.
  unfold conditions.
  rewrite checkAll_app, checkAll_user. simpl.
  rewrite checkAll_app. destruct (checkAll (dateConditions f)) as [[] |];
    simpl; [| reflexivity].
  now rewrite checkAll_app, checkAll_category, checkAll_search.
Qed.

Lemma holds_user (f : Filters.t) (r : Receipt) :
  forallb (holds r) (pushIf (truthy (Filters.userId f)) eq_userId) = true
  <-> matchesUser f r.
Proof.
  unfold matchesUser. destruct (truthy (Filters.userId f)) as [u |]; simpl.
  - rewrite andb_true_r, String.eqb_eq. split.
    + now intros -> u' [= <-].
    + intros H. now apply H.
  - split; [discriminate | reflexivity].
Qed.

Lemma holds_category (f : Filters.t) (r : Receipt) :
  forallb (holds r) (pushIf (truthy (Filters.category f)) eq_category) = true
  <-> matchesCategory f r.
Proof.
  unfold matchesCategory. destruct (truthy (Filters.category f)) as [c |]; simpl.
  - rewrite andb_true_r, String.eqb_eq. split.
    + now intros -> c' [= <-].
    + intros H. now apply H.
  - split; [discriminate | reflexivity].
Qed.

Lemma holds_search (f : Filters.t) (r : Receipt) :
  forallb (holds r)
    (pushIf (truthy (Filters.search f))
            (fun s => like_merchantName ("%" ++ s ++ "%"))) = true
  <-> matchesSearch f r.
Proof.
  unfold matchesSearch. destruct (truthy (Filters.search f)) as [s |];
    unfold pushIf, forallb, holds.
  - rewrite andb_true_r. split.
    + intros H s' [= <-].
      destruct (Like.like (merchantName r) ("%" ++ s ++ "%")) as [[] |];
        (reflexivity || discriminate).
    + intros H. now rewrite (H s eq_refl).
  - split; [discriminate | reflexivity].
Qed.

Lemma holds_conditions {eng : Engine} (f : Filters.t) (r : Receipt) :
  forallb (holds r) (conditions f) = true <->
  matchesUser f r /\ forallb (holds r) (dateConditions f) = true /\
  matchesCategory f r /\ matchesSearch f r.
Proof.
  unfold conditions. rewrite !forallb_app, !andb_true_iff.
  now rewrite holds_user, holds_category, holds_search.
Qed.

(** What [getReceipts] returns, in terms of its conditions. *)
Lemma getReceipts_checked {eng : Engine} (db : list Receipt) (f : Filters.t) :
  getReceipts db f =
    match checkAll (dateConditions f) with
    | Ok _ =>
        Ok (sort olderThan
              (filter (fun r => forallb (holds r) (conditions f)) db))
    | Throw e => Throw e
    end.
Proof.
  unfold getReceipts, selectWhere. rewrite checkAll_conditions.
  now destruct (checkAll (dateConditions f)).
Qed.

Lemma In_selected {eng : Engine} (db : list Receipt) (f : Filters.t) (r : Receipt) :
  In r (sort olderThan (filter (fun r => forallb (holds r) (conditions f)) db))
  <-> In r db /\ forallb (holds r) (conditions f) = true.
Proof. now rewrite sort_In, filter_In. Qed.

(** When a start or an end date is given, the date conditions are those of
    the range, whatever the year and the month. *)
Lemma dateConditions_range {eng : Engine} (f : Filters.t) :
  truthy (Filters.startDate f) <> None \/ truthy (Filters.endDate f) <> None ->
  dateConditions f =
    pushIf (truthy (Filters.startDate f)) (fun s => gte_date (parseDate s))
    ++ pushIf (truthy (Filters.endDate f)) (fun s => lte_date (parseDate s)).
Proof.
  unfold dateConditions.
  destruct (truthy (Filters.startDate f)), (truthy (Filters.endDate f));
    try reflexivity.
  intros [H | H]; congruence.
Qed.

(** C6 at a failing input, whatever the engine: asked for the records up
    to 2024-02-10, the list leaves out a record of that very day entered
    at 09:30, with or without a start date, and keeps the record of the
    same day dated at midnight: the end date is read as the first instant
    of its day.  Asked for the records from 2024-02-10 on, it returns
    both. *)
Lemma endDate_leaves_out_its_day {eng : Engine} :
  (getFullYear (date recLate), getMonth (date recLate), getDate (date recLate))
    = (2024, Feb, 10) /\
  listReceipts [recLate; recB] (filterRange None (Some "2024-02-10"%string))
    = Status200 [recB] /\
  listReceipts [recLate; recB]
    (filterRange (Some "2024-02-10"%string) (Some "2024-02-10"%string))
    = Status200 [recB] /\
  listReceipts [recLate; recB] (filterRange (Some "2024-02-10"%string) None)
    = Status200 [recLate; recB].
Proof. repeat split. Qed.

(** C7, as the specification states it, fails: the merchant name "Walmart"
    contains the search string "walmart" when case is ignored, and the
    record passes the filter without the search, yet the search drops
    it. *)
Lemma search_is_case_sensitive :
  containsIgnoreCase (merchantName recWalmart) "walmart" = true /\
  getReceipts [recWalmart] (withoutSearch (filterSearch "walmart"))
    = Ok [recWalmart] /\
  getReceipts [recWalmart] (filterSearch "walmart") = Ok [].
Proof. repeat split; vm_compute; reflexivity. Qed.

(** C7, amended: with a search string, the selection keeps exactly the
    records, among those the rest of the filter selects, whose merchant
    name matches the SQL pattern [%search%]; the match is case-sensitive,
    and for a search string free of [%], [_] and backslash it is
    containment of the search string, character for character. *)
Theorem getReceipts_search {eng : Engine} (db : list Receipt) (f : Filters.t) (s : string)
  (l0 : list Receipt) :
  truthy (Filters.search f) = Some s ->
  getReceipts db (withoutSearch f) = Ok l0 ->
  exists l,
    getReceipts db f = Ok l /\
    (forall r, In r l <->
               In r l0 /\
               Like.like (merchantName r) ("%" ++ s ++ "%") = Some true) /\
    (forallb (fun c => negb (isLikeSpecial c)) (list_ascii_of_string s) = true ->
     forall r, In r l <->
               In r l0 /\
               contains (list_ascii_of_string (merchantName r))
                        (list_ascii_of_string s)).
Proof.
  intros Hs H0. rewrite getReceipts_checked in H0 |- *.
  change (dateConditions (withoutSearch f)) with (dateConditions f) in H0.
  destruct (checkAll (dateConditions f)); [| discriminate].
  injection H0 as <-.
  assert (forall r,
            In r (sort olderThan
                    (filter (fun r => forallb (holds r) (conditions f)) db)) <->
            In r (sort olderThan
                    (filter (fun r => forallb (holds r)
                                        (conditions (withoutSearch f))) db)) /\
            Like.like (merchantName r) ("%" ++ s ++ "%") = Some true) as M.
  { intros r. rewrite !In_selected, !holds_conditions.
    change (dateConditions (withoutSearch f)) with (dateConditions f).
    change (matchesUser (withoutSearch f) r) with (matchesUser f r).
    change (matchesCategory (withoutSearch f) r) with (matchesCategory f r).
    assert (matchesSearch (withoutSearch f) r) as T by (intros s'; discriminate).
    assert (matchesSearch f r <->
            Like.like (merchantName r) ("%" ++ s ++ "%") = Some true) as S.
    { unfold matchesSearch. rewrite Hs. split.
      - intros H. now apply H.
      - now intros H s' [= <-]. }
    rewrite S. tauto. }
  eexists. split; [reflexivity |]. split; [exact M |].
  intros P r. rewrite M. now rewrite (like_plain_contains _ _ P).
Qed.

Lemma getReceipts_search_witness :
  exists l,
    getReceipts [recWalmart; recA] (filterSearch "alma") = Ok l /\
    In recWalmart l /\ ~ In recA l.
Proof.
  destruct (getReceipts_search [recWalmart; recA] (filterSearch "alma")
              "alma" [recWalmart; recA] eq_refl eq_refl) as (l & E & _ & M).
  exists l. split; [exact E |].
  specialize (M eq_refl). split.
  - apply M. split; [now left |]. now exists ["W"%char], ["r"%char; "t"%char].
  - intros H. apply M in H. destruct H as [_ (pre & post & H)].
    destruct pre as [| c [| c' pre]]; discriminate H.
Defined.

Lemma listFilters_id (q : Query) : listFilters q = q.
Proof. now destruct q. Qed.

(** C8, as the specification states it, fails: a range whose start date
    lies after its end date is not rejected; the list comes back empty
    with status 200. *)
Lemma impossible_range_accepted :
  newDate "2024-12-31" = Some (mkDate 2024 Dec 31 0) /\
  newDate "2024-01-01" = Some (mkDate 2024 Jan 1 0) /\
  Date_ltb (mkDate 2024 Jan 1 0) (mkDate 2024 Dec 31 0) = true /\
  getReceipts [recA; recB]
    (filterRange (Some "2024-12-31"%string) (Some "2024-01-01"%string)) = Ok [] /\
  listReceipts [recA; recB]
    (filterRange (Some "2024-12-31"%string) (Some "2024-01-01"%string))
    = Status200 [].
Proof. repeat split. Qed.

(** C8, amended: a start date or an end date that [new Date] reads as an
    Invalid Date, or, without a range, a year or a year and month whose
    first day it reads as one, makes the selection fail, and the list
    request is answered with status 500; which strings these are, beyond
    the date-only form, is the engine's business and the statement holds
    for every engine.  A range of two dates that are read, whose start lies
    after its end, is accepted and selects no record, the list request
    being answered normally with the empty list. *)
Theorem getReceipts_invalid_filter {eng : Engine} :
  (forall db f s,
     truthy (Filters.startDate f) = Some s -> parseDate s = None ->
     getReceipts db f = Throw RangeError /\
     listReceipts db f = Status500 "Failed to list receipts") /\
  (forall db f s,
     truthy (Filters.endDate f) = Some s -> parseDate s = None ->
     getReceipts db f = Throw RangeError /\
     listReceipts db f = Status500 "Failed to list receipts") /\
  (forall db f y,
     truthy (Filters.startDate f) = None -> truthy (Filters.endDate f) = None ->
     truthy (Filters.year f) = Some y ->
     match truthy (Filters.month f) with
     | Some m => parseDate (y ++ "-" ++ m ++ "-01") = None
     | None => parseDate (y ++ "-01-01") = None
     end ->
     getReceipts db f = Throw RangeError /\
     listReceipts db f = Status500 "Failed to list receipts") /\
  (forall db f s e ds de,
     truthy (Filters.startDate f) = Some s -> truthy (Filters.endDate f) = Some e ->
     parseDate s = Some ds -> parseDate e = Some de -> Date_ltb de ds = true ->
     getReceipts db f = Ok [] /\ listReceipts db f = Status200 []).
Proof.
  assert (forall db f, getReceipts db f = Throw RangeError ->
            getReceipts db f = Throw RangeError /\
            listReceipts db f = Status500 "Failed to list receipts") as T.
  { intros db f H. split; [exact H |].
    unfold listReceipts. now rewrite listFilters_id, H. }
  split; [| split; [| split]].
  - intros db f s Hs Hn. apply T. rewrite getReceipts_checked.
    rewrite dateConditions_range by (left; congruence).
    rewrite Hs. simpl. now rewrite Hn.
  - intros db f s He Hn. apply T. rewrite getReceipts_checked.
    rewrite dateConditions_range by (right; congruence).
    rewrite He. destruct (truthy (Filters.startDate f)) as [s0 |]; simpl.
    + destruct (parseDate s0); simpl; rewrite ?Hn; reflexivity.
    + now rewrite Hn.
  - intros db f y Hs He Hy Hn. apply T. rewrite getReceipts_checked.
    unfold dateConditions. rewrite Hs, He, Hy.
    destruct (truthy (Filters.month f)); rewrite Hn; reflexivity.
  - intros db f s e ds de Hs He Ds De Lt.
    assert (getReceipts db f = Ok []) as E.
    { rewrite getReceipts_checked.
      assert (dateConditions f = [gte_date (Some ds); lte_date (Some de)]) as DC.
      { rewrite dateConditions_range by (left; congruence).
        rewrite Hs, He. simpl. now rewrite Ds, De. }
      rewrite DC. simpl. rewrite filter_none; [reflexivity |].
      intros r _. apply not_true_is_false. intros H.
      apply holds_conditions in H. destruct H as (_ & H & _).
      rewrite DC in H. simpl in H. rewrite andb_true_r in H.
      now rewrite (Date_empty_range ds de (date r) Lt) in H. }
    split; [exact E |]. unfold listReceipts. now rewrite listFilters_id, E.
Qed.

Lemma getReceipts_invalid_filter_witness :
  getReceipts [recA; recB] (filterRange (Some "2024-13-01"%string) None)
    = Throw RangeError /\
  listReceipts [recA; recB]
    (filterRange (Some "2024-03-01"%string) (Some "2024-02-01"%string))
    = Status200 [].
Proof.
  destruct getReceipts_invalid_filter as (A & _ & _ & B). split.
  - apply (A [recA; recB] (filterRange (Some "2024-13-01"%string) None)
             "2024-13-01"%string); reflexivity.
  - apply (B [recA; recB]
             (filterRange (Some "2024-03-01"%string) (Some "2024-02-01"%string))
             "2024-03-01"%string "2024-02-01"%string
             (mkDate 2024 Mar 1 0) (mkDate 2024 Feb 1 0)); reflexivity.
Defined.

(** The examples that read dates come out the same whatever the engine:
    their date strings are of the date-only form. *)
Lemma examples_any_engine {eng : Engine} :
  getReceipts [recA; recB]
    (filterRange (Some "2024-12-31"%string) (Some "2024-01-01"%string)) = Ok [] /\
  listReceipts [recA; recB]
    (filterRange (Some "2024-12-31"%string) (Some "2024-01-01"%string))
    = Status200 [] /\
  option_map (fun stats => map fst (categoryBreakdown stats))
    (match getReceiptStats [recSmall; recLarge] None "2024" with
     | Ok stats => Some stats
     | Throw _ => None
     end) = Some ["Food"; "Travel"]%string.
Proof. repeat split. Qed.

(** ** The three surfaces *)

(** C9: for every record the summary, the Excel detail row and the PDF
    ledger row work with the same pre-tax amount, tax and total; the PDF
    prints these very numbers with two decimals. *)
Theorem derived_triple_agrees {eng : Engine} (r : Receipt) :
  Excel.row r = summaryRow r /\
  Pdf.row r = summaryRow r /\
  Pdf.row r = Excel.row r /\
  Pdf.rowText r =
    (let '(preTax, tax, total) := Excel.row r in
     (toFixed2 preTax, toFixed2 tax, toFixed2 total)).
Proof.
  unfold Excel.row, Excel.toRow, Pdf.rowText, Pdf.row, summaryRow. simpl.
  rewrite export_tax. repeat split.
Qed.

(** The exports never look at the date range of the request. *)
Lemma exports_drop_range {eng : Engine} (db : list Receipt) (q : Query)
  (startDate endDate : option string) :
  exportReceipts db (withRange q startDate endDate) = exportReceipts db q /\
  exportPdfReceipts db (withRange q startDate endDate) = exportPdfReceipts db q.
Proof. split; reflexivity. Qed.

(** C10 at a failing input: asked for the records from 2024-02-01 on, the
    list leaves out the record of 15 January, and both exports include
    it. *)
Lemma export_ignores_date_range {eng : Engine} :
  listReceipts [recA; recB] (filterRange (Some "2024-02-01"%string) None)
    = Status200 [recB] /\
  exportReceipts [recA; recB] (filterRange (Some "2024-02-01"%string) None)
    = Ok [recB; recA] /\
  exportPdfReceipts [recA; recB] (filterRange (Some "2024-02-01"%string) None)
    = Ok [recB; recA].
Proof. repeat split. Qed.

(** * Further properties of the code *)

(** ** Order and extent of a selection *)

Lemma Date_leb_total (a b : Date) :
  Date_leb a b = false -> Date_leb b a = true.
Proof.
  intros H. destruct (Date_leb b a) eqn:E; [reflexivity |].
  exfalso. apply not_true_iff_false in H, E. apply H. clear H.
  assert (~ Date_leb b a = true) as E' by exact E. clear E.
  unfold Date_leb in *.
  rewrite !orb_true_iff, !andb_true_iff, !orb_true_iff, !andb_true_iff,
    !orb_true_iff, !andb_true_iff, !Z.ltb_lt, !Z.eqb_eq, !Z.leb_le in *.
  lia.
Qed.

Lemma olderThan_order :
  (forall a b c, olderThan a b = false -> olderThan b c = false ->
                 olderThan a c = false) /\
  (forall a b, olderThan a b = true -> olderThan b a = false).
Proof.
  unfold olderThan, Date_ltb. split.
  - intros a b c. rewrite !negb_false_iff. intros H1 H2.
    eapply Date_leb_trans; eauto.
  - intros a b. rewrite negb_true_iff, negb_false_iff. apply Date_leb_total.
Qed.

(** X1: what [getReceipts] returns is the selected rows, each once, the
    latest first. *)
Theorem getReceipts_latest_first {eng : Engine} (db : list Receipt) (f : Filters.t)
  (l : list Receipt) :
  getReceipts db f = Ok l ->
  StronglySorted (fun a b => Date_leb (date b) (date a) = true) l /\
  Permutation l (filter (fun r => forallb (holds r) (conditions f)) db).
Proof.
  rewrite getReceipts_checked.
  destruct (checkAll (dateConditions f)); [| discriminate].
  intros [= <-]. split; [| symmetry; apply sort_perm].
  destruct olderThan_order as [T A].
  eapply StronglySorted_impl; [| apply sort_sorted; assumption].
  intros x y. unfold olderThan, Date_ltb. now rewrite negb_false_iff.
Qed.

Lemma getReceipts_latest_first_witness :
  exists l,
    getReceipts [recA; recB; rec100] Filters.none = Ok l /\
    StronglySorted (fun a b => Date_leb (date b) (date a) = true) l /\
    map id l = [3; 2; 1].
Proof.
  exists [rec100; recB; recA]. split; [reflexivity |]. split; [| reflexivity].
  apply (getReceipts_latest_first [recA; recB; rec100] Filters.none). reflexivity.
Defined.

(** X2: the backup never fails; it holds exactly the records of the user
    asked for, each once, and every record of the table, under the label
    "all", when no user is given. *)
Theorem backup_complete {eng : Engine} (now : string) (db : list Receipt) (q : Query) :
  exists b,
    backup now db q = Status200 b /\
    (forall r, In r (Backup.receipts b) <-> In r db /\ matchesUser q r) /\
    Permutation (Backup.receipts b)
      (filter (fun r => match truthy (Filters.userId q) with
                        | Some u => String.eqb (userId r) u
                        | None => true
                        end) db) /\
    (truthy (Filters.userId q) = None ->
     Permutation (Backup.receipts b) db /\ Backup.userId b = "all"%string).
Proof.
  unfold backup. rewrite getReceipts_checked.
  change (dateConditions
            (Filters.mk None None None None (Filters.userId q) None None))
    with (@nil Condition).
  simpl. eexists. split; [reflexivity |]. simpl.
  unfold conditions. simpl. rewrite app_nil_r.
  split; [| split].
  - intros r. rewrite sort_In, filter_In. now rewrite (holds_user q r).
  - rewrite <- sort_perm. apply Permutation_refl'. apply filter_ext.
    intros r. destruct (truthy (Filters.userId q)); simpl;
      [apply andb_true_r | reflexivity].
  - intros N. rewrite N. simpl. split; [| reflexivity].
    rewrite <- sort_perm. rewrite filter_all; [reflexivity | reflexivity].
Qed.

Lemma truthy_idem (o : option string) : truthy (truthy o) = truthy o.
Proof.
  destruct o as [s |]; simpl; [| reflexivity].
  destruct (String.eqb s "") eqn:E; simpl; [reflexivity | now rewrite E].
Qed.

(** X3: an empty string in any field of the filter counts as no value:
    the selection and the list answer are the same as without it. *)
Theorem getReceipts_empty_fields {eng : Engine} (db : list Receipt) (f : Filters.t) :
  getReceipts db (dropEmpty f) = getReceipts db f /\
  listReceipts db (dropEmpty f) = listReceipts db f.
Proof.
  assert (conditions (dropEmpty f) = conditions f) as E.
  { unfold conditions, dateConditions, dropEmpty. simpl.
    now rewrite !truthy_idem. }
  assert (getReceipts db (dropEmpty f) = getReceipts db f) as G
    by (unfold getReceipts; now rewrite E).
  split; [exact G |]. unfold listReceipts. now rewrite !listFilters_id, G.
Qed.

(** ** The year and the month of a filter *)

Lemma daysInMonth_range (y : Z) (m : Month) : 28 <= daysInMonth y m <= 31.
Proof. destruct m; simpl; try destruct (isLeapYear y); lia. Qed.

(** A year that gives a valid first of January gives the 31st of
    December of the same year too. *)
Lemma newDate_year (y : string) (d1 : Date) :
  newDate (y ++ "-01-01") = Some d1 ->
  d1 = mkDate (getFullYear d1) Jan 1 0 /\
  newDate (y ++ "-12-31") = Some (mkDate (getFullYear d1) Dec 31 0).
Proof.
  intros H. pose proof (newDate_length _ _ H) as L.
  revert H. unfold newDate. rewrite !list_ascii_of_string_app in *.
  rewrite length_app in L. simpl in L.
  destruct (list_ascii_of_string y) as [| a [| b [| c [| d [| e l]]]]];
    simpl in L; try lia.
  cbn [app list_ascii_of_string].
  destruct (digit a), (digit b), (digit c), (digit d); try discriminate.
  vm_compute (digit "0"). vm_compute (digit "1"). vm_compute (digit "2").
  vm_compute (digit "3"). vm_compute (isDash "-").
  cbn. intros [= <-]. split; reflexivity.
Qed.

Lemma makeDay_first (y : Z) (m : Month) : makeDay y m 1 = mkDate y m 1 0.
Proof.
  unfold makeDay. pose proof (daysInMonth_range y m) as R.
  destruct (1 <=? daysInMonth y m) eqn:E; [reflexivity |].
  apply Z.leb_gt in E. lia.
Qed.

(** A date built from a string that ends in "-01" is the first of its
    month, at midnight. *)
Lemma newDate_first (s : string) (d : Date) :
  newDate (s ++ "-01") = Some d -> getDate d = 1 /\ msOfDay d = 0.
Proof.
  intros H. pose proof (newDate_length _ _ H) as L.
  revert H. unfold newDate. rewrite !list_ascii_of_string_app in *.
  rewrite length_app in L. simpl in L.
  destruct (list_ascii_of_string s)
    as [| y1 [| y2 [| y3 [| y4 [| s1 [| m1 [| m2 [| e l]]]]]]]];
    simpl in L; try lia.
  cbn [app list_ascii_of_string].
  destruct (digit y1), (digit y2), (digit y3), (digit y4), (digit m1),
    (digit m2); try discriminate.
  vm_compute (digit "0"). vm_compute (digit "1"). vm_compute (isDash "-").
  cbv beta iota zeta.
  destruct (isDash s1 && true && (1 <=? 10 * 0 + 1) && (10 * 0 + 1 <=? 31));
    [| discriminate].
  destruct (monthOfIndex _) as [mo |]; [| discriminate].
  intros H.
  assert (d = makeDay (1000 * z + 100 * z0 + 10 * z1 + z2) mo 1) as ->
    by (change (10 * 0 + 1) with 1 in H; congruence).
  rewrite makeDay_first. split; reflexivity.
Qed.

(** The dates from the first of January to midnight of 31 December. *)
Lemma year_range (Y : Z) (d : Date) :
  validDate d ->
  Date_leb (mkDate Y Jan 1 0) d && Date_leb d (mkDate Y Dec 31 0) = true <->
  getFullYear d = Y /\ ~ (getMonth d = Dec /\ lateOnLastDay d).
Proof.
  unfold validDate, lateOnLastDay, Date_leb. destruct d as [y m dd ms].
  cbn [getFullYear getMonth getDate msOfDay].
  pose proof (daysInMonth_range y m) as R.
  rewrite !andb_true_iff, !orb_true_iff, !andb_true_iff, !orb_true_iff,
    !andb_true_iff, !orb_true_iff, !andb_true_iff,
    !Z.ltb_lt, !Z.eqb_eq, !Z.leb_le.
  destruct m; cbn [monthIndex daysInMonth] in *; intros V;
    (split;
     [ intros H; split; [lia | intros [M L]; first [discriminate M | lia]]
     | intros [HY HN];
       first [ lia
             | assert (~ (dd = 31 /\ 0 < ms))
                 by (intros L; apply HN; split; [reflexivity | exact L]);
               lia ] ]).
Qed.

(** The dates from the first of a month to midnight of its last day. *)
Lemma month_range (Y : Z) (M : Month) (d : Date) :
  validDate d ->
  Date_leb (mkDate Y M 1 0) d
  && Date_leb d (mkDate Y M (daysInMonth Y M) 0) = true <->
  getFullYear d = Y /\ getMonth d = M /\ ~ lateOnLastDay d.
Proof.
  unfold validDate, lateOnLastDay, Date_leb. destruct d as [y m dd ms].
  cbn [getFullYear getMonth getDate msOfDay].
  rewrite !andb_true_iff, !orb_true_iff, !andb_true_iff, !orb_true_iff,
    !andb_true_iff, !orb_true_iff, !andb_true_iff,
    !Z.ltb_lt, !Z.eqb_eq, !Z.leb_le.
  intros V. split.
  - intros H. assert (y = Y) as -> by lia.
    assert (monthIndex m = monthIndex M) as E by lia.
    assert (m = M) as -> by (destruct m, M; simpl in E; (reflexivity || lia)).
    repeat split; lia.
  - intros (-> & -> & H). lia.
Qed.

(** X4: with a year and nothing else about dates, the selection keeps
    the records of that calendar year, except those of 31 December dated
    after midnight: the upper bound is midnight of 31 December. *)
Theorem getReceipts_year {eng : Engine} (db : list Receipt) (f : Filters.t) (y : string)
  (d1 : Date) :
  truthy (Filters.startDate f) = None -> truthy (Filters.endDate f) = None ->
  truthy (Filters.year f) = Some y -> truthy (Filters.month f) = None ->
  newDate (y ++ "-01-01") = Some d1 ->
  exists l,
    getReceipts db f = Ok l /\
    forall r, validDate (date r) ->
      (In r l <->
       In r db /\ getFullYear (date r) = getFullYear d1 /\
       ~ (getMonth (date r) = Dec /\ lateOnLastDay (date r)) /\
       matchesUser f r /\ matchesCategory f r /\ matchesSearch f r).
Proof.
  intros Hs He Hy Hm H1. destruct (newDate_year y d1 H1) as [E1 H2].
  assert (dateConditions f =
          [gte_date (Some (mkDate (getFullYear d1) Jan 1 0));
           lte_date (Some (mkDate (getFullYear d1) Dec 31 0))]) as DC.
  { unfold dateConditions. rewrite Hs, He, Hy, Hm. cbv zeta.
    now rewrite (parseDate_iso _ _ H1), (parseDate_iso _ _ H2), E1. }
  rewrite getReceipts_checked, DC. simpl. eexists. split; [reflexivity |].
  intros r V. rewrite In_selected, holds_conditions, DC.
  cbn [forallb holds]. rewrite andb_true_r, (year_range _ _ V). tauto.
Qed.

Lemma getReceipts_year_witness :
  exists l,
    getReceipts
      [recA; sample 11 "Party" (mkDate 2024 Dec 31 72000000) 9900 None "Food"]
      (Filters.mk None (Some "2024"%string) None None None None None) = Ok l /\
    map id l = [1].
Proof.
  destruct (getReceipts_year
              [recA; sample 11 "Party" (mkDate 2024 Dec 31 72000000) 9900 None "Food"]
              (Filters.mk None (Some "2024"%string) None None None None None)
              "2024" (mkDate 2024 Jan 1 0) eq_refl eq_refl eq_refl eq_refl eq_refl)
    as (l & E & _).
  exists l. split; [exact E |].
  vm_compute in E. injection E as <-. reflexivity.
Defined.

Lemma string_append_assoc (a b c : string) :
  ((a ++ b) ++ c)%string = (a ++ b ++ c)%string.
Proof. induction a as [| x a IH]; simpl; [reflexivity | now rewrite IH]. Qed.

(** X5: with a year from 100 on and a month, the selection keeps the
    records of that month of that year, except those of its last day dated
    after midnight. *)
Theorem getReceipts_month {eng : Engine} (db : list Receipt) (f : Filters.t) (y m : string)
  (d : Date) :
  truthy (Filters.startDate f) = None -> truthy (Filters.endDate f) = None ->
  truthy (Filters.year f) = Some y -> truthy (Filters.month f) = Some m ->
  newDate (y ++ "-" ++ m ++ "-01") = Some d ->
  100 <= getFullYear d ->
  exists l,
    getReceipts db f = Ok l /\
    forall r, validDate (date r) ->
      (In r l <->
       In r db /\ getFullYear (date r) = getFullYear d /\
       getMonth (date r) = getMonth d /\ ~ lateOnLastDay (date r) /\
       matchesUser f r /\ matchesCategory f r /\ matchesSearch f r).
Proof.
  intros Hs He Hy Hm H1 HY.
  assert (getDate d = 1 /\ msOfDay d = 0) as [D1 D2].
  { apply (newDate_first (y ++ "-" ++ m)).
    rewrite <- H1. f_equal. now rewrite !string_append_assoc. }
  assert (d = mkDate (getFullYear d) (getMonth d) 1 0) as Ed
    by (destruct d; simpl in *; now subst).
  assert (lastDayOfMonth d =
          mkDate (getFullYear d) (getMonth d)
                 (daysInMonth (getFullYear d) (getMonth d)) 0) as El.
  { unfold lastDayOfMonth.
    assert ((0 <=? getFullYear d) && (getFullYear d <=? 99) = false) as ->
      by (apply andb_false_iff; right; apply Z.leb_gt; lia).
    reflexivity. }
  assert (dateConditions f =
          [gte_date (Some (mkDate (getFullYear d) (getMonth d) 1 0));
           lte_date (Some (mkDate (getFullYear d) (getMonth d)
                                  (daysInMonth (getFullYear d) (getMonth d)) 0))])
    as DC.
  { unfold dateConditions. rewrite Hs, He, Hy, Hm. cbv zeta.
    rewrite (parseDate_iso _ _ H1). cbn [option_map]. now rewrite El, <- Ed. }
  rewrite getReceipts_checked, DC. simpl. eexists. split; [reflexivity |].
  intros r V. rewrite In_selected, holds_conditions, DC.
  cbn [forallb holds]. rewrite andb_true_r, (month_range _ _ _ V). tauto.
Qed.

Lemma getReceipts_month_witness :
  exists l,
    getReceipts
      [recB; sample 12 "Leap" (mkDate 2024 Feb 29 0) 100 None "Food";
       sample 13 "Late" (mkDate 2024 Feb 29 1) 100 None "Food"]
      (Filters.mk (Some "02"%string) (Some "2024"%string)
                  None None None None None) = Ok l /\
    map id l = [12; 2].
Proof.
  destruct (getReceipts_month
              [recB; sample 12 "Leap" (mkDate 2024 Feb 29 0) 100 None "Food";
               sample 13 "Late" (mkDate 2024 Feb 29 1) 100 None "Food"]
              (Filters.mk (Some "02"%string) (Some "2024"%string)
                          None None None None None)
              "2024" "02" (mkDate 2024 Feb 1 0)
              eq_refl eq_refl eq_refl eq_refl eq_refl)
    as (l & E & _).
  - simpl. lia.
  - exists l. split; [exact E |].
    vm_compute in E. injection E as <-. reflexivity.
Defined.

(** ** What each bucket of the yearly summary holds *)

Lemma inMonth_name (m : Month) (r : Receipt) :
  inMonth m r = true <-> monthName (getMonth (date r)) = monthName m.
Proof.
  unfold inMonth. rewrite Z.eqb_eq. split.
  - intros H. f_equal. destruct (getMonth (date r)), m; simpl in H;
      (reflexivity || lia).
  - intros H. now rewrite (monthName_inj _ _ H).
Qed.

(** One turn of the monthly loop, spelled out. *)
Lemma monthlyStep_effect (st : MonthlyState) (r : Receipt) :
  map fst (fst st) = map monthName allMonths ->
  map fst (snd st) = map monthName allMonths ->
  let name := monthName (getMonth (date r)) in
  exists current catMap,
    JsMap.get name (fst st) = Some current /\
    JsMap.get name (snd st) = Some catMap /\
    monthlyStep st r =
      Ok (JsMap.set name (addReceipt current r) (fst st),
          JsMap.set name (categoryStep catMap r) (snd st)).
Proof.
  intros K1 K2 name.
  assert (JsMap.get name (fst st) <> None) as P1
    by (apply JsMap_get_keys; rewrite K1; apply monthName_key).
  assert (JsMap.get name (snd st) <> None) as P2
    by (apply JsMap_get_keys; rewrite K2; apply monthName_key).
  unfold monthlyStep. fold name.
  destruct (JsMap.get name (fst st)) as [current |]; [| congruence].
  destruct (JsMap.get name (snd st)) as [catMap |]; [| congruence].
  exists current, catMap. repeat split.
Qed.

(** The monthly loop leaves in each month the records of that month,
    added up in the order met, and their categories. *)
Lemma forEachMonthly_buckets (l : list Receipt) : forall st : MonthlyState,
  map fst (fst st) = map monthName allMonths ->
  map fst (snd st) = map monthName allMonths ->
  exists st',
    forEachMonthly st l = Ok st' /\
    forall m b0 cats0,
      JsMap.get (monthName m) (fst st) = Some b0 ->
      JsMap.get (monthName m) (snd st) = Some cats0 ->
      JsMap.get (monthName m) (fst st') =
        Some (fold_left addReceipt (filter (inMonth m) l) b0) /\
      JsMap.get (monthName m) (snd st') =
        Some (fold_left categoryStep (filter (inMonth m) l) cats0).
Proof.
  induction l as [| r l IH]; intros st K1 K2.
  - exists st. split; [reflexivity |]. intros m b0 cats0 H1 H2. now split.
  - destruct (monthlyStep_effect st r K1 K2) as (cur & cm & G1 & G2 & E).
    destruct (monthlyStep_ok st r K1 K2) as (st1 & E1 & K1' & K2' & _).
    destruct (IH st1 K1' K2') as (st' & E' & B).
    exists st'. simpl. rewrite E1. simpl. split; [exact E' |].
    intros m b0 cats0 H1 H2.
    rewrite E in E1. injection E1 as <-.
    destruct (inMonth m r) eqn:M.
    + apply inMonth_name in M. rewrite M in G1, G2.
      rewrite H1 in G1. rewrite H2 in G2.
      injection G1 as <-. injection G2 as <-.
      apply B; simpl; rewrite M; apply JsMap_get_set_eq.
    + assert (monthName (getMonth (date r)) <> monthName m) as N.
      { intros C. apply inMonth_name in C. congruence. }
      apply B; simpl; rewrite JsMap_get_set_neq; assumption.
Qed.

Lemma addReceipt_sums (l : list Receipt) : forall b0 : Bucket.t,
  (Bucket.total (fold_left addReceipt l b0) ==
   Bucket.total b0 + sumOver (fun r => Number (amount r)) l)%Q /\
  (Bucket.tax (fold_left addReceipt l b0) ==
   Bucket.tax b0 + sumOver getTax l)%Q.
Proof.
  induction l as [| r l IH]; intros b0; simpl.
  - split; ring.
  - destruct (IH (addReceipt b0 r)) as [S1 S2]. rewrite S1, S2. simpl.
    split; ring.
Qed.

(** The category loop leaves in each category the records of that
    category. *)
Lemma categoryStep_bucket (c : string) (l : list Receipt) :
  forall m : list (string * Bucket.t),
  JsMap.has c (fold_left categoryStep l m)
    = JsMap.has c m || existsb (inCategory c) l /\
  (Bucket.total (getOrZero c (fold_left categoryStep l m)) ==
   Bucket.total (getOrZero c m)
   + sumOver (fun r => Number (amount r)) (filter (inCategory c) l))%Q /\
  (Bucket.tax (getOrZero c (fold_left categoryStep l m)) ==
   Bucket.tax (getOrZero c m) + sumOver getTax (filter (inCategory c) l))%Q.
Proof.
  induction l as [| r l IH]; intros m; simpl.
  - rewrite orb_false_r. repeat split; ring.
  - destruct (IH (categoryStep m r)) as (H & S1 & S2). rewrite H, S1, S2.
    unfold categoryStep, inCategory, JsMap.has, getOrZero.
    destruct (String.eqb (category r) c) eqn:E.
    + apply String.eqb_eq in E. subst c. rewrite JsMap_get_set_eq. simpl.
      rewrite orb_true_r. repeat split; ring.
    + apply String.eqb_neq in E. rewrite JsMap_get_set_neq by assumption.
      simpl. repeat split; ring.
Qed.

Lemma firstSeen_NoDup (l : list string) : forall seen : list string,
  NoDup (firstSeen seen l) /\
  forall k, In k (firstSeen seen l) -> existsb (String.eqb k) seen = false.
Proof.
  induction l as [| k l IH]; intros seen; simpl.
  - split; [constructor | intros k []].
  - destruct (existsb (String.eqb k) seen) eqn:E; [apply IH |].
    destruct (IH (k :: seen)) as [N D]. split.
    + constructor; [| exact N]. intros C. apply D in C. simpl in C.
      now rewrite String.eqb_refl in C.
    + intros k' [<- | H]; [exact E |].
      apply D in H. simpl in H. now apply orb_false_iff in H.
Qed.

Lemma receiptStats_totals (l : list Receipt) (stats : Stats) :
  receiptStats l = Ok stats ->
  (totalExpenses stats == sumOver (fun r => Number (amount r)) l)%Q /\
  (totalTax stats == sumOver getTax l)%Q /\
  categoryBreakdown stats = fold_left categoryStep l [].
Proof.
  unfold receiptStats.
  destruct (forEachMonthly initMonthly l); simpl; [| discriminate].
  intros [= <-]. simpl. rewrite !fold_left_sumOver. repeat split; ring.
Qed.

Lemma JsMap_In_get {V : Type} (k : string) (v : V) (m : list (string * V)) :
  NoDup (map fst m) -> In (k, v) m -> JsMap.get k m = Some v.
Proof.
  induction m as [| [k' v'] m IH]; simpl; [tauto |].
  intros N [H | H]; inversion N as [| ? ? Hn N']; subst.
  - injection H as -> ->. now rewrite String.eqb_refl.
  - destruct (String.eqb k k') eqn:E; [| now apply IH].
    apply String.eqb_eq in E. subst k'. exfalso. apply Hn.
    apply in_map_iff. now exists (k, v).
Qed.

Lemma receiptStats_parts (l : list Receipt) (stats : Stats) :
  receiptStats l = Ok stats ->
  exists st',
    forEachMonthly initMonthly l = Ok st' /\
    monthlyBreakdown stats = fst st' /\
    monthlyCategoryBreakdown stats = snd st'.
Proof.
  unfold receiptStats.
  destruct (forEachMonthly initMonthly l) as [st' |]; simpl; [| discriminate].
  intros [= <-]. now exists st'.
Qed.

Lemma initMonthly_get (m : Month) :
  JsMap.get (monthName m) (fst initMonthly) = Some Bucket.zero /\
  JsMap.get (monthName m) (snd initMonthly) = Some [].
Proof. destruct m; split; reflexivity. Qed.

(** The buckets of [receiptStats], month by month and category by
    category. *)
Lemma receiptStats_buckets (l : list Receipt) :
  exists stats,
    receiptStats l = Ok stats /\
    (forall m, exists b cats,
        JsMap.get (monthName m) (monthlyBreakdown stats) = Some b /\
        JsMap.get (monthName m) (monthlyCategoryBreakdown stats) = Some cats /\
        b = fold_left addReceipt (filter (inMonth m) l) Bucket.zero /\
        cats = fold_left categoryStep (filter (inMonth m) l) []) /\
    map fst (monthlyCategoryBreakdown stats) = map monthName allMonths /\
    categoryBreakdown stats = fold_left categoryStep l [].
Proof.
  destruct (receiptStats_ok l) as (stats & R & _).
  exists stats. split; [exact R |].
  destruct (receiptStats_parts l stats R) as (st' & E & -> & ->).
  destruct initMonthly_keys as (K1 & K2 & _).
  destruct (forEachMonthly_buckets l initMonthly K1 K2) as (st2 & E2 & B).
  rewrite E in E2. injection E2 as <-.
  split; [| split].
  - intros m. destruct (initMonthly_get m) as [G1 G2].
    destruct (B m _ _ G1 G2) as [H1 H2].
    do 2 eexists. split; [exact H1 | split; [exact H2 | split; reflexivity]].
  - destruct (forEachMonthly_ok l initMonthly K1 K2) as (st3 & E3 & _ & K & _).
    rewrite E in E3. now injection E3 as <-.
  - now apply receiptStats_totals.
Qed.

(** X6: in the yearly summary each month's bucket is the sum of the
    amounts and of the taxes of the selected records of that month, each
    category appears once, exactly when a selected record bears it, and
    its bucket is the sum over the records of that category. *)
Theorem getReceiptStats_buckets {eng : Engine} (db : list Receipt) (user : option string)
  (year : string) (d1 d2 : Date) :
  newDate (year ++ "-01-01") = Some d1 ->
  newDate (year ++ "-12-31") = Some d2 ->
  exists stats yearReceipts,
    getReceiptStats db user year = Ok stats /\
    (forall r, In r yearReceipts <-> In r db /\ inYear d1 d2 user r) /\
    (forall m, exists b,
        In (monthName m, b) (monthlyBreakdown stats) /\
        (Bucket.total b ==
         sumOver (fun r => Number (amount r)) (filter (inMonth m) yearReceipts))%Q /\
        (Bucket.tax b == sumOver getTax (filter (inMonth m) yearReceipts))%Q) /\
    NoDup (map fst (categoryBreakdown stats)) /\
    (forall r, In r yearReceipts ->
               In (category r) (map fst (categoryBreakdown stats))) /\
    (forall c b, In (c, b) (categoryBreakdown stats) ->
        (exists r, In r yearReceipts /\ category r = c) /\
        (Bucket.total b ==
         sumOver (fun r => Number (amount r))
                 (filter (inCategory c) yearReceipts))%Q /\
        (Bucket.tax b ==
         sumOver getTax (filter (inCategory c) yearReceipts))%Q).
Proof.
  intros H1 H2.
  destruct (getReceiptStats_selects db user year d1 d2 H1 H2) as (l & E & M).
  destruct (receiptStats_buckets l) as (stats & R & B & _ & C).
  exists stats, l. rewrite E.
  assert (NoDup (map fst (categoryBreakdown stats))) as N.
  { rewrite C, categoryBreakdown_keys. apply firstSeen_NoDup. }
  split; [exact R |]. split; [exact M |]. split; [| split; [exact N | split]].
  - intros m. destruct (B m) as (b & cats & G1 & _ & -> & _).
    eexists. split; [apply JsMap_get_In; exact G1 |].
    destruct (addReceipt_sums (filter (inMonth m) l) Bucket.zero) as [S1 S2].
    rewrite S1, S2. simpl. split; ring.
  - intros r Hr. apply JsMap_get_keys. rewrite C.
    destruct (categoryStep_bucket (category r) l []) as (Hh & _).
    unfold JsMap.has in Hh.
    assert (existsb (inCategory (category r)) l = true) as Ex.
    { apply existsb_exists. exists r. split; [exact Hr |].
      apply String.eqb_refl. }
    rewrite Ex in Hh. simpl in Hh.
    destruct (JsMap.get (category r) (fold_left categoryStep l []));
      [discriminate | discriminate Hh].
  - intros c b Hb. apply (JsMap_In_get c b _ N) in Hb. rewrite C in Hb.
    destruct (categoryStep_bucket c l []) as (Hh & S1 & S2).
    unfold JsMap.has, getOrZero in *. rewrite Hb in *. simpl in *.
    split; [| split].
    + symmetry in Hh. apply existsb_exists in Hh. destruct Hh as (r & Hr & Hc).
      exists r. split; [exact Hr |]. now apply String.eqb_eq.
    + rewrite S1. ring.
    + rewrite S2. ring.
Qed.

Lemma getReceiptStats_buckets_witness :
  exists stats b,
    getReceiptStats [recA; recB; rec100] None "2024" = Ok stats /\
    In ("Food"%string, b) (categoryBreakdown stats) /\
    (Bucket.total b == 205)%Q.
Proof.
  destruct (getReceiptStats_buckets [recA; recB; rec100] None "2024"
              (mkDate 2024 Jan 1 0) (mkDate 2024 Dec 31 0) eq_refl eq_refl)
    as (stats & l & E & M & _ & _ & K & C).
  assert (In recA l) as HA by (apply M; split; [now left | repeat split; discriminate]).
  apply K in HA. apply in_map_iff in HA. destruct HA as ([c b] & Hc & Hb).
  simpl in Hc. subst c. exists stats, b. split; [exact E |]. split; [exact Hb |].
  vm_compute in E. injection E as <-.
  destruct Hb as [[= <-] | [[= ] | []]]. reflexivity.
Defined.

(** X7: the yearly summary counts the records of the calendar year asked
    for (and of the user, if any), except those of 31 December dated after
    midnight, and its grand totals are the sums over exactly those
    records. *)
Theorem getReceiptStats_year {eng : Engine} (db : list Receipt) (user : option string)
  (year : string) (d1 : Date) :
  newDate (year ++ "-01-01") = Some d1 ->
  exists stats yearReceipts,
    getReceiptStats db user year = Ok stats /\
    (forall r, In r yearReceipts -> In r db) /\
    (forall r, validDate (date r) ->
       (In r yearReceipts <->
        In r db /\ getFullYear (date r) = getFullYear d1 /\
        ~ (getMonth (date r) = Dec /\ lateOnLastDay (date r)) /\
        (forall u, truthy user = Some u -> userId r = u))) /\
    (totalExpenses stats == sumOver (fun r => Number (amount r)) yearReceipts)%Q /\
    (totalTax stats == sumOver getTax yearReceipts)%Q.
Proof.
  intros H1. destruct (newDate_year year d1 H1) as [E1 H2].
  destruct (getReceiptStats_selects db user year _ _ H1 H2) as (l & E & M).
  destruct (receiptStats_ok l) as (stats & R & _).
  destruct (receiptStats_totals l stats R) as (T1 & T2 & _).
  exists stats, l. rewrite E.
  split; [exact R |]. split; [intros r Hr; now apply M |].
  split; [| split; assumption].
  intros r V. rewrite M. unfold inYear.
  pose proof (year_range (getFullYear d1) (date r) V) as YR.
  rewrite andb_true_iff, <- E1 in YR. tauto.
Qed.

Lemma getReceiptStats_year_witness :
  exists stats,
    getReceiptStats
      [recA; sample 11 "Party" (mkDate 2024 Dec 31 72000000) 9900 None "Food"]
      None "2024" = Ok stats /\
    (totalExpenses stats == 105)%Q.
Proof.
  destruct (getReceiptStats_year
              [recA; sample 11 "Party" (mkDate 2024 Dec 31 72000000) 9900 None "Food"]
              None "2024" (mkDate 2024 Jan 1 0) eq_refl)
    as (stats & l & E & _).
  exists stats. split; [exact E |].
  vm_compute in E. injection E as <-. reflexivity.
Defined.

(** X8: when [new Date] reads the year parameter followed by "-01-01" as
    an Invalid Date, the summary request fails with status 500 whatever the
    table holds; which years these are is the engine's business and the
    statement holds for every engine.  The current year stands in for a
    missing parameter only. *)
Theorem summary_bad_year {eng : Engine} (currentYear : string) (db : list Receipt) (q : Query) :
  (forall y, Filters.year q = Some y -> parseDate (y ++ "-01-01") = None ->
             summary currentYear db q = Status500 "Failed to get summary") /\
  (Filters.year q = None ->
   summary currentYear db q =
     match getReceiptStats db (Filters.userId q) currentYear with
     | Ok stats => Status200 stats
     | Throw _ => Status500 "Failed to get summary"
     end).
Proof.
  split.
  - intros y Hy Hn. unfold summary, getReceiptStats, selectWhere.
    rewrite Hy, Hn. reflexivity.
  - intros Hy. unfold summary. now rewrite Hy.
Qed.

Lemma summary_bad_year_witness :
  summary "2024" [recA; recB]
    (Filters.mk None (Some "20x4"%string) None None None None None)
  = Status500 "Failed to get summary".
Proof.
  apply (proj1 (summary_bad_year "2024" [recA; recB]
                  (Filters.mk None (Some "20x4"%string) None None None None None))
               "20x4"%string);
    reflexivity.
Defined.

(** ** Months and their categories *)

Lemma firstSeen_nil (l : list string) : firstSeen [] l = [] <-> l = [].
Proof. destruct l; simpl; split; (reflexivity || discriminate). Qed.

(** X9: the summary lists the twelve months in calendar order and, under
    each month, the categories of that month's records in the order first
    met; their totals and taxes add up to the month's bucket, and a month
    has no category exactly when it has no record. *)
Theorem monthly_categories {eng : Engine} (db : list Receipt) (user : option string)
  (year : string) (d1 d2 : Date) :
  newDate (year ++ "-01-01") = Some d1 ->
  newDate (year ++ "-12-31") = Some d2 ->
  exists stats yearReceipts,
    getReceiptStats db user year = Ok stats /\
    (forall r, In r yearReceipts <-> In r db /\ inYear d1 d2 user r) /\
    map fst (monthlyCategoryBreakdown stats) = map monthName allMonths /\
    forall m, exists b cats,
      In (monthName m, b) (monthlyBreakdown stats) /\
      In (monthName m, cats) (monthlyCategoryBreakdown stats) /\
      map fst cats =
        firstSeen [] (map category (filter (inMonth m) yearReceipts)) /\
      (sumTotal cats == Bucket.total b)%Q /\
      (sumTax cats == Bucket.tax b)%Q /\
      (cats = [] <-> forall r, In r yearReceipts -> getMonth (date r) <> m).
Proof.
  intros H1 H2.
  destruct (getReceiptStats_selects db user year d1 d2 H1 H2) as (l & E & M).
  destruct (receiptStats_buckets l) as (stats & R & B & K & _).
  exists stats, l. rewrite E.
  split; [exact R |]. split; [exact M |]. split; [exact K |].
  intros m. destruct (B m) as (b & cats & G1 & G2 & Eb & Ec).
  exists b, cats.
  assert (In (monthName m, cats) (monthlyCategoryBreakdown stats)) as I2
    by now apply JsMap_get_In.
  assert (map fst cats = firstSeen [] (map category (filter (inMonth m) l)))
    as Kc by (rewrite Ec; apply categoryBreakdown_keys).
  destruct (addReceipt_sums (filter (inMonth m) l) Bucket.zero) as [S1 S2].
  destruct (categoryStep_sums (filter (inMonth m) l) []) as [C1 C2].
  assert (sumTotal cats == Bucket.total b)%Q as T1
    by (rewrite Ec, Eb, C1, S1; reflexivity).
  assert (sumTax cats == Bucket.tax b)%Q as T2
    by (rewrite Ec, Eb, C2, S2; reflexivity).
  split; [now apply JsMap_get_In |]. split; [exact I2 |].
  split; [exact Kc |]. split; [exact T1 |]. split; [exact T2 |].
  assert (cats = [] <-> filter (inMonth m) l = []) as N.
  { split.
    - intros ->. simpl in Kc. symmetry in Kc.
      apply (proj1 (firstSeen_nil _)) in Kc. now apply map_eq_nil in Kc.
    - intros F. rewrite F in Kc. simpl in Kc. now apply map_eq_nil in Kc. }
  rewrite N. split.
  - intros F r Hr Hm.
    assert (In r (filter (inMonth m) l)) as Hf.
    { apply filter_In. split; [exact Hr |]. apply inMonth_name. now rewrite Hm. }
    rewrite F in Hf. destruct Hf.
  - intros H. apply filter_none. intros r Hr.
    destruct (inMonth m r) eqn:Im; [| reflexivity].
    apply inMonth_name, monthName_inj in Im. now destruct (H r Hr).
Qed.

Lemma monthly_categories_witness :
  exists stats,
    getReceiptStats [recA; recB; rec100] None "2024" = Ok stats /\
    map (fun mc => (fst mc, map fst (snd mc)))
        (firstn 3 (monthlyCategoryBreakdown stats))
    = [("January", ["Food"]); ("February", ["Travel"]); ("March", ["Food"])]%string.
Proof.
  destruct (monthly_categories [recA; recB; rec100] None "2024"
              (mkDate 2024 Jan 1 0) (mkDate 2024 Dec 31 0) eq_refl eq_refl)
    as (stats & l & E & _).
  exists stats. split; [exact E |].
  vm_compute in E. injection E as <-. reflexivity.
Defined.

(** ** The PDF report *)

(** Twenty twenty-firsts and one twenty-first of a whole number, each
    rounded to the nearest whole number, add up to that number. *)
Lemma round_split_21 (n : Z) :
  toFixed2 ((20 * n) # 2100) + toFixed2 (n # 2100) = n.
Proof.
  rewrite !toFixed2_2100. destruct (0 <=? n) eqn:E.
  - apply Z.leb_le in E.
    assert ((0 <=? 20 * n) = true) as -> by (apply Z.leb_le; lia).
    Z.to_euclidean_division_equations. lia.
  - apply Z.leb_gt in E.
    assert ((0 <=? 20 * n) = false) as -> by (apply Z.leb_gt; lia).
    Z.to_euclidean_division_equations. lia.
Qed.

(** X10: in every row of the PDF ledger the printed pre-tax amount and the
    printed tax add up to the printed total, to the cent, and the printed
    total is the stored amount; rounding never loses or gains a cent. *)
Theorem pdf_row_adds_up (r : Receipt) :
  let '(preTax, tax, total) := Pdf.rowText r in
  preTax + tax = total /\ total = amount r.
Proof.
  unfold Pdf.rowText, Pdf.row, orElse, NumberOf.
  destruct (tax r) as [t |] eqn:T.
  - assert (Number (amount r) - Number t == (amount r - t) # 100)%Q as ->
      by (unfold Number, Qeq, Qminus, Qplus, Qopp; simpl; lia).
    unfold Number. rewrite !toFixed2_cents. split; lia.
  - assert (Number (amount r) - Number (amount r) / 1.05 == amount r # 2100)%Q
      as E by (unfold Number, Qeq, Qminus, Qdiv, Qplus, Qmult, Qopp, Qinv;
               simpl; lia).
    assert (Number (amount r) - (Number (amount r) - Number (amount r) / 1.05)
            == (20 * amount r) # 2100)%Q as E'
      by (remember (20 * amount r) as k eqn:Ek;
          unfold Number, Qeq, Qminus, Qdiv, Qplus, Qmult, Qopp, Qinv;
          simpl; lia).
    rewrite E', E. unfold Number. rewrite toFixed2_cents.
    split; [apply round_split_21 | reflexivity].
Qed.

Section SumList.
Context {A : Type}.

Lemma sumList_cons (f : A -> Q) (x : A) (l : list A) :
  sumList f (x :: l) = (f x + sumList f l)%Q.
Proof. reflexivity. Qed.

Lemma sumList_app (f : A -> Q) (l1 l2 : list A) :
  (sumList f (l1 ++ l2) == sumList f l1 + sumList f l2)%Q.
Proof.
  induction l1 as [| x l1 IH]; simpl; [ring | rewrite IH; ring].
Qed.

Lemma sumList_perm (f : A -> Q) (l l' : list A) :
  Permutation l l' -> (sumList f l == sumList f l')%Q.
Proof.
  induction 1 as [| x l l' _ IH | x y l | l l' l'' _ IH1 _ IH2]; simpl.
  - reflexivity.
  - now rewrite IH.
  - ring.
  - now rewrite IH1.
Qed.

Lemma sumList_ext (f g : A -> Q) (l : list A) :
  (forall x, In x l -> (f x == g x)%Q) -> (sumList f l == sumList g l)%Q.
Proof.
  induction l as [| x l IH]; intros H; simpl; [reflexivity |].
  rewrite (H x) by now left. rewrite IH; [reflexivity |].
  intros; apply H; now right.
Qed.

Lemma sumList_concat (f : A -> Q) (ls : list (list A)) :
  (sumList f (List.concat ls) == sumList (sumList f) ls)%Q.
Proof.
  induction ls as [| l ls IH]; simpl; [reflexivity |].
  now rewrite sumList_app, IH.
Qed.

Lemma sumList_map {B : Type} (f : A -> Q) (g : B -> A) (l : list B) :
  sumList f (map g l) = sumList (fun x => f (g x)) l.
Proof. induction l as [| x l IH]; simpl; [reflexivity | now rewrite IH]. Qed.

Lemma fold_left_sumList (f : A -> Q) (l : list A) (a : Q) :
  (fold_left (fun sum x => sum + f x) l a == a + sumList f l)%Q.
Proof.
  revert a. induction l as [| x l IH]; intros a; simpl; [ring |].
  rewrite IH. ring.
Qed.

Lemma concat_perm (l l' : list (list A)) :
  Permutation l l' -> Permutation (List.concat l) (List.concat l').
Proof.
  induction 1 as [| x l l' _ IH | x y l | l l' l'' _ IH1 _ IH2]; simpl.
  - reflexivity.
  - now apply Permutation_app_head.
  - rewrite !app_assoc. apply Permutation_app_tail. apply Permutation_app_comm.
  - now rewrite IH1.
Qed.
End SumList.

Lemma sumBy_sumList {V : Type} (f : V -> Q) (l : list (string * V)) :
  sumBy f l = sumList (fun kv => f (snd kv)) l.
Proof. reflexivity. Qed.

Lemma sumOver_sumList (f : Receipt -> Q) (l : list Receipt) :
  sumOver f l = sumList f l.
Proof. reflexivity. Qed.

Lemma sumCount_set (k : string) (v : Totals.t) (o : list (string * Totals.t)) :
  sumCount (JsMap.set k v o) =
  sumCount o
  - match JsMap.get k o with Some v0 => Totals.count v0 | None => 0 end
  + Totals.count v.
Proof.
  induction o as [| [k' v'] o IH]; simpl.
  - lia.
  - destruct (String.eqb k k'); simpl; [lia | rewrite IH; lia].
Qed.

Lemma sumCount_perm (l l' : list (string * Totals.t)) :
  Permutation l l' -> sumCount l = sumCount l'.
Proof.
  induction 1 as [| x l l' _ IH | x y l | l l' l'' _ IH1 _ IH2]; simpl; lia.
Qed.

(** Filling category totals from a list of items: the sums grow by the
    items whose name is not inherited. *)
Section TotalsFold.
Context {R : Type} (key : R -> string) (amt tx : R -> Q).

Let step (o : list (string * Totals.t)) (r : R) : list (string * Totals.t) :=
  addTotals (key r) (amt r) (tx r) o.

Let own (r : R) : bool := negb (JsObject.inherited (key r)).

Lemma addTotals_fold_sums (l : list R) : forall o : list (string * Totals.t),
  (sumBy Totals.amount (fold_left step l o) ==
   sumBy Totals.amount o + sumList amt (filter own l))%Q /\
  (sumBy Totals.tax (fold_left step l o) ==
   sumBy Totals.tax o + sumList tx (filter own l))%Q /\
  sumCount (fold_left step l o) =
    sumCount o + Z.of_nat (List.length (filter own l)).
Proof.
  induction l as [| r l IH]; intros o.
  - simpl. repeat split; (ring || lia).
  - cbn [fold_left filter]. destruct (IH (step o r)) as (S1 & S2 & S3).
    rewrite S1, S2, S3.
    assert (own r = negb (JsObject.inherited (key r))) as Ho by reflexivity.
    assert (step o r = addTotals (key r) (amt r) (tx r) o) as Hs by reflexivity.
    rewrite Ho, Hs. unfold addTotals.
    destruct (JsObject.inherited (key r)); cbn [negb].
    + repeat split; reflexivity.
    + rewrite !sumList_cons, !sumBy_set, sumCount_set.
      destruct (JsMap.get (key r) o) as [t |]; cbn [List.length];
        cbn [Totals.amount Totals.tax Totals.count Totals.zero];
        repeat split; (ring || lia).
Qed.
End TotalsFold.

(** ** Groups of the PDF export *)

Section JsMapGroups.
Context {V : Type}.
Implicit Types (m : list (string * V)) (k : string) (v : V).

Lemma JsMap_set_NoDup k v m :
  NoDup (map fst m) -> NoDup (map fst (JsMap.set k v m)).
Proof.
  intros N. rewrite JsMap_set_keys. unfold JsMap.has.
  destruct (JsMap.get k m) eqn:E; [exact N |].
  apply (Permutation_NoDup (l := k :: map fst m)).
  - rewrite Permutation_app_comm. reflexivity.
  - constructor; [| exact N]. intros C. apply JsMap_get_keys in C. congruence.
Qed.

Lemma JsMap_set_Forall (P : V -> Prop) k v m :
  Forall (fun kv => P (snd kv)) m -> P v ->
  Forall (fun kv => P (snd kv)) (JsMap.set k v m).
Proof.
  intros F Pv. induction m as [| [k' v'] m IH]; simpl.
  - repeat constructor. exact Pv.
  - inversion F as [| ? ? Pv' F']; subst.
    destruct (String.eqb k k'); constructor; auto.
Qed.

Lemma JsMap_get_Forall (P : V -> Prop) k v m :
  Forall (fun kv => P (snd kv)) m -> JsMap.get k m = Some v -> P v.
Proof.
  intros F G. apply JsMap_get_In in G. rewrite Forall_forall in F.
  exact (F _ G).
Qed.

(** Replacing the value under [k] by one that holds one more item. *)
Lemma JsMap_set_items {A : Type} (f : string -> V -> list A) k v m (x : A) :
  Permutation (f k v)
    (x :: match JsMap.get k m with Some v0 => f k v0 | None => [] end) ->
  Permutation
    (List.concat (map (fun kv => f (fst kv) (snd kv)) (JsMap.set k v m)))
    (x :: List.concat (map (fun kv => f (fst kv) (snd kv)) m)).
Proof.
  induction m as [| [k' v'] m IH]; simpl; intros H.
  - now rewrite app_nil_r.
  - destruct (String.eqb k k') eqn:E; simpl.
    + apply String.eqb_eq in E. subst k'. rewrite H. reflexivity.
    + rewrite (IH H). symmetry. apply Permutation_middle.
Qed.

Lemma JsMap_set_new_items {A : Type} (f : string -> V -> list A) k v m :
  JsMap.get k m = None -> f k v = [] ->
  List.concat (map (fun kv => f (fst kv) (snd kv)) (JsMap.set k v m)) =
  List.concat (map (fun kv => f (fst kv) (snd kv)) m).
Proof.
  induction m as [| [k' v'] m IH]; simpl; intros G E.
  - now rewrite E.
  - destruct (String.eqb k k'); [discriminate |]. simpl. now rewrite IH.
Qed.

Lemma getOr_In (d : V) (m : list (string * V)) (kv : string * V) :
  NoDup (map fst m) -> In kv m -> getOr d (fst kv) m = snd kv.
Proof.
  intros N H. destruct kv as [k v]. unfold getOr. cbn [fst snd].
  now rewrite (JsMap_In_get k v m N H).
Qed.

(** Looking up the keys, in any order, visits every entry once. *)
Lemma lookup_perm {B : Type} (F : string -> V -> B) (d : V)
  (m : list (string * V)) (names : list string) :
  NoDup (map fst m) -> Permutation names (map fst m) ->
  Permutation (map (fun k => F k (getOr d k m)) names)
              (map (fun kv => F (fst kv) (snd kv)) m).
Proof.
  intros N P.
  rewrite (Permutation_map (fun k => F k (getOr d k m)) P), map_map.
  apply Permutation_refl'. apply map_ext_in. intros kv H.
  now rewrite (getOr_In d m kv N H).
Qed.

Lemma keys_perm (m : list (string * V)) :
  Permutation (JsObject.keys m) (map fst m).
Proof.
  unfold JsObject.keys. apply Permutation_map. symmetry. apply entries_perm.
Qed.
End JsMapGroups.

(** The groups are well formed: no month twice, no category twice within
    a month; and a record goes to the group of its month and category. *)
Lemma Pdf_step_grouped (st : Pdf.Grouped * list (string * Totals.t))
  (r : Receipt) :
  JsObject.inherited (category r) = false ->
  NoDup (map fst (fst st)) ->
  Forall (fun kv => NoDup (map fst (snd kv))) (fst st) ->
  exists st',
    Pdf.step st r = Ok st' /\
    NoDup (map fst (fst st')) /\
    Forall (fun kv => NoDup (map fst (snd kv))) (fst st') /\
    Permutation (groupedEntries (fst st'))
      ((monthYearOf (date r), category r, r) :: groupedEntries (fst st)).
Proof.
  intros I N F. unfold Pdf.step.
  set (my := monthYearOf (date r)).
  set (g := if JsMap.has my (fst st) then fst st
            else JsMap.set my [] (fst st)).
  assert (NoDup (map fst g)) as Ng.
  { subst g. destruct (JsMap.has my (fst st)); [exact N |].
    now apply JsMap_set_NoDup. }
  assert (Forall (fun kv => NoDup (map fst (snd kv))) g) as Fg.
  { subst g. destruct (JsMap.has my (fst st)); [exact F |].
    apply (JsMap_set_Forall (fun c : list (string * list Receipt) =>
                               NoDup (map fst c)));
      [exact F | constructor]. }
  pose (inMonth := fun (m : string) (c : list (string * list Receipt)) =>
          List.concat
            (map (fun kv2 => map (fun x : Receipt => (m, fst kv2, x)) (snd kv2))
                 c)).
  assert (groupedEntries g = groupedEntries (fst st)) as Gg.
  { subst g. unfold JsMap.has.
    destruct (JsMap.get my (fst st)) eqn:E; [reflexivity |].
    now apply (JsMap_set_new_items inMonth). }
  assert (exists c, JsMap.get my g = Some c) as [c Hc].
  { subst g. unfold JsMap.has.
    destruct (JsMap.get my (fst st)) eqn:E; [eauto |].
    rewrite JsMap_get_set_eq. eauto. }
  rewrite Hc. cbn [bind nonNull]. rewrite I.
  eexists. split; [reflexivity |]. cbn [fst].
  assert (NoDup (map fst c)) as Nc
    by exact (JsMap_get_Forall (fun c : list (string * list Receipt) =>
                                  NoDup (map fst c)) _ _ _ Fg Hc).
  split; [now apply JsMap_set_NoDup |].
  split;
    [apply (JsMap_set_Forall (fun c : list (string * list Receipt) =>
                                NoDup (map fst c)));
       [exact Fg | now apply JsMap_set_NoDup] |].
  rewrite <- Gg.
  apply (JsMap_set_items inMonth). rewrite Hc.
  apply (JsMap_set_items
           (fun (k : string) (rs : list Receipt) =>
              map (fun x : Receipt => (my, k, x)) rs)).
  destruct (JsMap.get (category r) c) as [rs |]; [| reflexivity].
  rewrite map_app, Permutation_app_comm. reflexivity.
Qed.

Lemma Pdf_loop_grouped (l : list Receipt) :
  forall st : Pdf.Grouped * list (string * Totals.t),
  (forall r, In r l -> JsObject.inherited (category r) = false) ->
  NoDup (map fst (fst st)) ->
  Forall (fun kv => NoDup (map fst (snd kv))) (fst st) ->
  exists st',
    Pdf.loop st l = Ok st' /\
    NoDup (map fst (fst st')) /\
    Forall (fun kv => NoDup (map fst (snd kv))) (fst st') /\
    Permutation (groupedEntries (fst st'))
      (map (fun r => (monthYearOf (date r), category r, r)) l
       ++ groupedEntries (fst st)).
Proof.
  induction l as [| r l IH]; intros st H N F.
  - exists st. repeat split; auto.
  - destruct (Pdf_step_grouped st r (H r (or_introl eq_refl)) N F)
      as (st1 & E1 & N1 & F1 & P1).
    destruct (IH st1 (fun r' Hr' => H r' (or_intror Hr')) N1 F1)
      as (st' & E' & N' & F' & P').
    exists st'. simpl. rewrite E1. simpl.
    split; [exact E' |]. split; [exact N' |]. split; [exact F' |].
    rewrite P', P1. simpl. symmetry. apply Permutation_middle.
Qed.

(** An inherited category name anywhere in the list stops the loop. *)
Lemma Pdf_loop_throws (l : list Receipt) :
  forall st : Pdf.Grouped * list (string * Totals.t),
  existsb (fun r => JsObject.inherited (category r)) l = true ->
  NoDup (map fst (fst st)) ->
  Forall (fun kv => NoDup (map fst (snd kv))) (fst st) ->
  Pdf.loop st l = Throw TypeError.
Proof.
  induction l as [| r l IH]; intros st H N F; [discriminate |].
  destruct (JsObject.inherited (category r)) eqn:I.
  - now apply Pdf_loop_inherited.
  - simpl in H. rewrite I in H. simpl in H.
    destruct (Pdf_step_grouped st r I N F) as (st1 & E1 & N1 & F1 & _).
    simpl. rewrite E1. simpl. now apply IH.
Qed.

(** ** The ledger of the PDF export *)

Lemma categoryBlocks_ok (categories : list (string * list Receipt))
  (names : list string) :
  (forall k, In k names -> In k (map fst categories)) ->
  PdfReport.categoryBlocks categories names =
  Ok (map (fun k => PdfReport.categoryBlock k (getOr [] k categories)) names).
Proof.
  induction names as [| k names IH]; intros H; [reflexivity |].
  cbn [PdfReport.categoryBlocks map].
  assert (JsMap.get k categories <> None) as G
    by (apply JsMap_get_keys, H; now left).
  unfold getOr at 1. destruct (JsMap.get k categories) as [rs |]; [| congruence].
  cbn [nonNull bind]. rewrite IH by (intros; apply H; now right).
  reflexivity.
Qed.

Lemma categoryBlock_entries (my : string) (names : list string)
  (categories : list (string * list Receipt)) :
  List.concat
    (map (fun cb => map (fun row => (my, PdfReport.blockCategory cb, row))
                        (PdfReport.blockRows cb))
       (map (fun k => PdfReport.categoryBlock k (getOr [] k categories)) names))
  = map rowEntry
      (List.concat
         (map (fun k => map (fun r => (my, k, r)) (getOr [] k categories))
              names)).
Proof.
  induction names as [| k names IH]; [reflexivity |].
  cbn [map List.concat PdfReport.categoryBlock PdfReport.blockRows
       PdfReport.blockCategory].
  now rewrite IH, map_app, !map_map.
Qed.

Lemma categoryBlock_totals (my : string) (names : list string)
  (categories : list (string * list Receipt)) (f : PdfReport.CategoryBlock -> Q)
  (h : Receipt -> Q) :
  (forall k rs, f (PdfReport.categoryBlock k rs) == sumList h rs)%Q ->
  (fold_left (fun sum b => sum + f b)%Q
     (map (fun k => PdfReport.categoryBlock k (getOr [] k categories)) names) 0
   == sumList (fun e => h (snd e))
        (List.concat
           (map (fun k => map (fun r => (my, k, r)) (getOr [] k categories))
                names)))%Q.
Proof.
  intros H. rewrite fold_left_sumList, Qplus_0_l, sumList_map, sumList_concat,
    sumList_map.
  apply sumList_ext. intros k _. rewrite sumList_map. apply H.
Qed.

Lemma categoryTotal_sum (k : string) (rs : list Receipt) :
  (PdfReport.categoryTotal (PdfReport.categoryBlock k rs)
   == sumList (fun r => Number (amount r)) rs)%Q.
Proof.
  cbn [PdfReport.categoryBlock PdfReport.categoryTotal].
  rewrite fold_left_sumList, Qplus_0_l. reflexivity.
Qed.

Lemma categoryTax_sum (k : string) (rs : list Receipt) :
  (PdfReport.categoryTax (PdfReport.categoryBlock k rs) == sumList getTax rs)%Q.
Proof.
  cbn [PdfReport.categoryBlock PdfReport.categoryTax].
  rewrite fold_left_sumList, Qplus_0_l.
  apply sumList_ext. intros r _. unfold Pdf.row. cbn [fst snd].
  now rewrite export_tax.
Qed.

(** A month that has a group is printed: its rows and its total line are
    those of the receipts of the group. *)
Lemma monthBlock_ok (g : Pdf.Grouped) (my : string) :
  In my (map fst g) ->
  exists b,
    PdfReport.monthBlock g my = Ok b /\
    PdfReport.blockMonth b = my /\
    ledgerEntries [b] = map rowEntry (printedEntries my (getOr [] my g)) /\
    (PdfReport.monthTotal b ==
       sumList (fun e => Number (amount (snd e)))
               (printedEntries my (getOr [] my g)))%Q /\
    (PdfReport.monthTax b ==
       sumList (fun e => getTax (snd e)) (printedEntries my (getOr [] my g)))%Q.
Proof.
  intros H. apply JsMap_get_keys in H. unfold PdfReport.monthBlock, getOr.
  destruct (JsMap.get my g) as [c |]; [| congruence].
  cbn [nonNull bind]. rewrite categoryBlocks_ok.
  - cbn [bind]. eexists. split; [reflexivity |].
    unfold ledgerEntries.
    cbn [PdfReport.blockMonth PdfReport.blockCategories PdfReport.monthTotal
         PdfReport.monthTax map List.concat].
    split; [reflexivity |].
    split; [rewrite app_nil_r; apply categoryBlock_entries |].
    split.
    + apply (categoryBlock_totals my _ _ PdfReport.categoryTotal
               (fun r => Number (amount r))).
      apply categoryTotal_sum.
    + apply (categoryBlock_totals my _ _ PdfReport.categoryTax getTax).
      apply categoryTax_sum.
  - intros k Hk. apply (Permutation_in k (keys_perm c)).
    apply (Permutation_in k
             (Permutation_sym (sort_perm PdfReport.laterString _))).
    exact Hk.
Qed.

Lemma printedEntries_perm (my : string) (c : list (string * list Receipt)) :
  NoDup (map fst c) ->
  Permutation (printedEntries my c)
    (List.concat (map (fun kv2 => map (fun r => (my, fst kv2, r)) (snd kv2)) c)).
Proof.
  intros N. unfold printedEntries. apply concat_perm.
  apply (lookup_perm (fun k rs => map (fun r : Receipt => (my, k, r)) rs) [] c);
    [exact N |].
  rewrite <- sort_perm. apply keys_perm.
Qed.

Lemma monthBlocks_ok (g : Pdf.Grouped) (months : list string) :
  (forall my, In my months -> In my (map fst g)) ->
  exists bs,
    PdfReport.monthBlocks g months = Ok bs /\
    map PdfReport.blockMonth bs = months /\
    ledgerEntries bs =
      map rowEntry
        (List.concat (map (fun my => printedEntries my (getOr [] my g)) months)) /\
    (sumList PdfReport.monthTotal bs ==
       sumList (fun e => Number (amount (snd e)))
         (List.concat (map (fun my => printedEntries my (getOr [] my g)) months)))%Q /\
    (sumList PdfReport.monthTax bs ==
       sumList (fun e => getTax (snd e))
         (List.concat (map (fun my => printedEntries my (getOr [] my g)) months)))%Q.
Proof.
  induction months as [| my months IH]; intros H.
  - exists []. repeat split; reflexivity.
  - destruct (monthBlock_ok g my (H my (or_introl eq_refl)))
      as (b & Eb & Bm & Br & Bt & Bx).
    destruct (IH (fun k Hk => H k (or_intror Hk)))
      as (bs & Ebs & Sm & Sr & St & Sx).
    exists (b :: bs). cbn [PdfReport.monthBlocks]. rewrite Eb, Ebs.
    split; [reflexivity |].
    cbn [map List.concat]. unfold ledgerEntries in *.
    cbn [map List.concat] in *. rewrite app_nil_r in Br.
    split; [now rewrite Bm, Sm |].
    split; [now rewrite Br, Sr, map_app |].
    rewrite !sumList_cons, !sumList_app, Bt, Bx, St, Sx.
    split; reflexivity.
Qed.

Lemma printed_perm (g : Pdf.Grouped) (months : list string) :
  NoDup (map fst g) ->
  Forall (fun kv => NoDup (map fst (snd kv))) g ->
  Permutation months (map fst g) ->
  Permutation
    (List.concat (map (fun my => printedEntries my (getOr [] my g)) months))
    (groupedEntries g).
Proof.
  intros N F P.
  rewrite (concat_perm _ _ (lookup_perm printedEntries [] g months N P)).
  unfold groupedEntries. clear N P.
  induction F as [| kv g Hkv _ IH]; [reflexivity |].
  cbn [map List.concat]. apply Permutation_app; [| exact IH].
  now apply printedEntries_perm.
Qed.

(** The month groups are those of the months of the records. *)
Lemma Pdf_loop_months (l : list Receipt) :
  forall st st' : Pdf.Grouped * list (string * Totals.t),
  Pdf.loop st l = Ok st' ->
  forall k, In k (map fst (fst st')) <->
            In k (map fst (fst st)) \/
            exists r, In r l /\ monthYearOf (date r) = k.
Proof.
  induction l as [| r l IH]; intros st st' E k.
  - injection E as <-. split; [tauto | intros [H | (r & [] & _)]; exact H].
  - cbn [Pdf.loop] in E. destruct (Pdf.step st r) as [st1 | e] eqn:E1;
      [| discriminate].
    cbn [bind] in E. rewrite (IH st1 st' E k).
    assert (In k (map fst (fst st1)) <->
            In k (map fst (fst st)) \/ monthYearOf (date r) = k) as K.
    { unfold Pdf.step in E1.
      set (my := monthYearOf (date r)) in *.
      set (g := if JsMap.has my (fst st) then fst st
                else JsMap.set my [] (fst st)) in *.
      assert (JsMap.has my g = true /\
              (In k (map fst g) <-> In k (map fst (fst st)) \/ my = k))
        as [Hg Kg].
      { subst g. destruct (JsMap.has my (fst st)) eqn:Hh.
        - split; [exact Hh |]. split; [tauto |].
          intros [H | <-]; [exact H |].
          apply JsMap_get_keys. unfold JsMap.has in Hh.
          destruct (JsMap.get my (fst st)); [discriminate | discriminate Hh].
        - split.
          + unfold JsMap.has. now rewrite JsMap_get_set_eq.
          + rewrite JsMap_set_keys, Hh, in_app_iff. simpl. tauto. }
      unfold JsMap.has in Hg.
      destruct (JsMap.get my g) as [c |] eqn:Hc; [| discriminate].
      cbn [nonNull bind] in E1.
      destruct (JsObject.inherited (category r)); [discriminate |].
      injection E1 as <-. cbn [fst].
      rewrite JsMap_set_keys. unfold JsMap.has. now rewrite Hc. }
    rewrite K. split.
    + intros [[H | H] | (r' & Hr' & H)]; [tauto | right | right].
      * exists r. split; [now left | exact H].
      * exists r'. split; [now right | exact H].
    + intros [H | (r' & [<- | Hr'] & H)]; [tauto | tauto |].
      right. exists r'. tauto.
Qed.

(** The whole of the PDF data, when no category bears an inherited name. *)
Lemma report_ok (receiptsData : list Receipt) :
  (forall r, In r receiptsData -> JsObject.inherited (category r) = false) ->
  exists (g : Pdf.Grouped) (bs : list PdfReport.MonthBlock),
    PdfReport.report receiptsData =
      Ok (PdfReport.mkReport
            (List.length receiptsData)
            (List.length
               (JsObject.keys
                  (fold_left (fun o r => addTotals (category r)
                                           (Number (amount r)) (getTax r) o)
                             receiptsData [])))
            (PdfReport.totalAmount receiptsData - PdfReport.totalTax receiptsData)%Q
            (PdfReport.totalTax receiptsData)
            (PdfReport.totalAmount receiptsData)
            (sort byAmountDesc
               (JsObject.entries
                  (fold_left (fun o r => addTotals (category r)
                                           (Number (amount r)) (getTax r) o)
                             receiptsData [])))
            bs) /\
    NoDup (map fst g) /\
    (forall k, In k (map fst g) <->
               exists r, In r receiptsData /\ monthYearOf (date r) = k) /\
    map PdfReport.blockMonth bs = PdfReport.sortedMonths g /\
    Permutation (ledgerEntries bs) (map ledgerEntry receiptsData) /\
    (sumList PdfReport.monthTotal bs ==
       sumOver (fun r => Number (amount r)) receiptsData)%Q /\
    (sumList PdfReport.monthTax bs == sumOver getTax receiptsData)%Q.
Proof.
  intros H.
  destruct (Pdf_loop_grouped receiptsData ([], []) H (NoDup_nil _) (Forall_nil _))
    as (st & E & N & F & P).
  destruct (Pdf_loop_ok receiptsData ([], []) H) as (st' & E' & S).
  rewrite E in E'. injection E' as <-. cbn [snd] in S.
  assert (Permutation (PdfReport.sortedMonths (fst st)) (map fst (fst st))) as PM.
  { unfold PdfReport.sortedMonths. rewrite <- sort_perm. apply keys_perm. }
  destruct (monthBlocks_ok (fst st) (PdfReport.sortedMonths (fst st)))
    as (bs & Ebs & Sm & Sr & St & Sx).
  { intros my Hmy. exact (Permutation_in my PM Hmy). }
  exists (fst st), bs. unfold PdfReport.report. rewrite E. cbn [bind].
  rewrite Ebs. cbn [bind]. rewrite S.
  split; [reflexivity |]. split; [exact N |].
  split.
  { intros k. rewrite (Pdf_loop_months _ _ _ E k). cbn [fst map In]. tauto. }
  split; [exact Sm |].
  cbn [groupedEntries fst map List.concat] in P. rewrite app_nil_r in P.
  pose proof (printed_perm _ _ N F PM) as PP. rewrite P in PP.
  rewrite Sr, St, Sx.
  rewrite (sumList_perm _ _ _ PP), (sumList_perm (fun e => getTax (snd e)) _ _ PP).
  rewrite !sumList_map.
  split; [| split; reflexivity].
  rewrite (Permutation_map rowEntry PP), map_map. reflexivity.
Qed.





(** X13: putting the data of the PDF together (the grouping loop, which
    runs before any document is begun) throws a TypeError exactly when one
    of the records has a category that is the name of a member of
    Object.prototype ("constructor", "toString", ...); one such record is
    enough to lose the whole report, and without one the data is put
    together. *)
Theorem report_inherited_category (receiptsData : list Receipt) :
  match PdfReport.report receiptsData with
  | Ok _ =>
      forall r, In r receiptsData -> JsObject.inherited (category r) = false
  | Throw e =>
      e = TypeError /\
      exists r, In r receiptsData /\ JsObject.inherited (category r) = true
  end.
Proof.
  destruct (existsb (fun r => JsObject.inherited (category r)) receiptsData)
    eqn:X.
  - unfold PdfReport.report.
    rewrite (Pdf_loop_throws receiptsData ([], []) X (NoDup_nil _) (Forall_nil _)).
    cbn [bind]. split; [reflexivity |]. now apply existsb_exists in X.
  - assert (forall r, In r receiptsData ->
                      JsObject.inherited (category r) = false) as H.
    { intros r Hr. destruct (JsObject.inherited (category r)) eqn:I; [| reflexivity].
      rewrite <- X. symmetry. apply existsb_exists. eauto. }
    destruct (report_ok receiptsData H) as (g & bs & -> & _). exact H.
Qed.

(** ** The Excel export *)

Lemma sort_sorted_id {A : Type} (after : A -> A -> bool) (l : list A) :
  StronglySorted (fun a b => after a b = false) l -> sort after l = l.
Proof.
  induction 1 as [| x l S IH F]; [reflexivity |].
  cbn [sort]. rewrite IH. destruct l as [| y l]; [reflexivity |].
  cbn [insertSorted]. inversion F as [| ? ? Hxy _]; subst. now rewrite Hxy.
Qed.

Lemma dayOf_leb (a b : Date) :
  Date_leb a b = true -> Date_leb (dayOf a) (dayOf b) = true.
Proof.
  unfold Date_leb, dayOf. cbn [getFullYear getMonth getDate msOfDay].
  rewrite !orb_true_iff, !andb_true_iff, !orb_true_iff, !andb_true_iff,
    !orb_true_iff, !andb_true_iff, !Z.ltb_lt, !Z.eqb_eq, !Z.leb_le.
  lia.
Qed.

Lemma getReceipts_ordered {eng : Engine} (db : list Receipt) (f : Filters.t)
  (l : list Receipt) :
  getReceipts db f = Ok l ->
  StronglySorted (fun a b => Date_leb (date b) (date a) = true) l.
Proof.
  rewrite getReceipts_checked.
  destruct (checkAll (dateConditions f)); [| discriminate].
  intros [= <-]. destruct olderThan_order as [T A].
  eapply StronglySorted_impl; [| apply sort_sorted; assumption].
  intros x y. unfold olderThan, Date_ltb. now rewrite negb_false_iff.
Qed.

(** The date the export reads back from the [Date] cell of a row. *)
Lemma olderRow_readsBack {eng : Engine} (a b : Receipt) :
  readsBack a -> readsBack b ->
  Excel.olderRow (Excel.toRow a) (Excel.toRow b) =
    Date_ltb (dayOf (date a)) (dayOf (date b)).
Proof.
  unfold readsBack, Excel.olderRow, Excel.toRow. cbn [Excel.Date_].
  now intros -> ->.
Qed.

(** Records that are latest first give rows in the order the export sorts
    by, when their dates are read back from the text printed for them. *)
Lemma rows_ordered {eng : Engine} (l : list Receipt) :
  StronglySorted (fun a b => Date_leb (date b) (date a) = true) l ->
  (forall r, In r l -> readsBack r) ->
  StronglySorted (fun a b => Excel.olderRow a b = false) (map Excel.toRow l).
Proof.
  induction 1 as [| r l' S IH F]; intros RB; [constructor |].
  cbn [map]. constructor; [apply IH; intros; apply RB; now right |].
  rewrite Forall_map. rewrite Forall_forall in F |- *.
  intros r' Hr'. rewrite olderRow_readsBack by (apply RB; simpl; tauto).
  unfold Date_ltb. rewrite negb_false_iff. apply dayOf_leb. now apply F.
Qed.

(** X14: [getReceipts] hands the export its records latest first; and
    for records that come latest first, in whatever order those of one
    instant come, when the engine reads the text it prints in the [Date]
    cell of every record back as the day of that record, the rows of the
    "Expenses" sheet are the records in the order they came in, one row
    per record: the sort of the export handler, which compares the dates
    read back from the cells, changes nothing, and the days of the records
    never increase down the sheet. *)
Theorem excel_rows_in_order {eng : Engine} :
  (forall (db : list Receipt) (q : Query) (l : list Receipt),
     exportReceipts db q = Ok l ->
     StronglySorted (fun a b => Date_leb (date b) (date a) = true) l) /\
  (forall receipts : list Receipt,
     StronglySorted (fun a b => Date_leb (date b) (date a) = true) receipts ->
     (forall r, In r receipts -> readsBack r) ->
     Excel.excelData receipts = map Excel.toRow receipts /\
     StronglySorted (fun a b => Excel.olderRow a b = false)
                    (Excel.excelData receipts) /\
     StronglySorted
       (fun a b => Date_leb (dayOf (date b)) (dayOf (date a)) = true) receipts).
Proof.
  split; [intros db q l; apply getReceipts_ordered |].
  intros l S RB. pose proof (rows_ordered l S RB) as SR.
  assert (Excel.excelData l = map Excel.toRow l) as Id
    by (unfold Excel.excelData; now apply sort_sorted_id).
  split; [exact Id |]. split; [now rewrite Id |].
  eapply StronglySorted_impl; [| exact S].
  intros a b. apply dayOf_leb.
Qed.

Lemma excel_rows_in_order_witness :
  exportReceipts [recA; recB] Filters.none = Ok [recB; recA] /\
  map Excel.Date_ (Excel.excelData [recB; recA])
    = ["2024-02-10"; "2024-01-15"]%string /\
  Excel.excelData [recB; recA] = map Excel.toRow [recB; recA].
Proof.
  destruct excel_rows_in_order as [A B].
  split; [reflexivity |]. split; [reflexivity |].
  apply B.
  - apply (A [recA; recB] Filters.none). reflexivity.
  - intros r [<- | [<- | []]]; reflexivity.
Defined.

Lemma filter_perm {A : Type} (p : A -> bool) (l l' : list A) :
  Permutation l l' -> Permutation (filter p l) (filter p l').
Proof.
  induction 1 as [| x l l' _ IH | x y l | l l' l'' _ IH1 _ IH2]; simpl.
  - reflexivity.
  - destruct (p x); [now apply perm_skip | exact IH].
  - destruct (p x), (p y); try reflexivity. apply perm_swap.
  - now rewrite IH1.
Qed.

Lemma Excel_summaryByMonth_fold (rows : list Excel.Row) :
  forall st : list (string * Totals.t) * list (string * Totals.t),
  fst (fold_left Excel.summaryStep rows st) =
  fold_left (fun o row => addTotals (Excel.MonthYear row) (Excel.TotalPaid row)
                                    (Excel.Tax row) o)
            rows (fst st).
Proof.
  induction rows as [| row rows IH]; intros st; simpl; [reflexivity |].
  now rewrite IH.
Qed.

(** A month label is no member of Object.prototype. *)
Lemma monthYearOf_own (d : Date) : JsObject.inherited (monthYearOf d) = false.
Proof. unfold monthYearOf. now destruct (getMonth d). Qed.

Lemma sumReceipts_ofEntry (es : list (string * Totals.t)) :
  sumReceipts (map SummaryRow.ofEntry es) = sumCount es.
Proof. induction es as [| e es IH]; simpl; [reflexivity | now rewrite IH]. Qed.

(** The sums of the three columns of the rows behind a summary sheet that
    is keyed by [key]. *)
Lemma Excel_sheet_sums {eng : Engine} (key : Excel.Row -> string) (receipts : list Receipt) :
  let o := fold_left (fun o row => addTotals (key row) (Excel.TotalPaid row)
                                     (Excel.Tax row) o)
                     (Excel.excelData receipts) [] in
  let kept := filter (fun r => negb (JsObject.inherited (key (Excel.toRow r))))
                     receipts in
  (sumBy Totals.amount o == sumOver (fun r => Number (amount r)) kept)%Q /\
  (sumBy Totals.tax o == sumOver getTax kept)%Q /\
  sumCount o = Z.of_nat (List.length kept).
Proof.
  intros o kept.
  destruct (addTotals_fold_sums key Excel.TotalPaid Excel.Tax
              (Excel.excelData receipts) []) as (S1 & S2 & S3).
  fold o in S1, S2, S3.
  assert (Permutation
            (filter (fun row => negb (JsObject.inherited (key row)))
                    (Excel.excelData receipts))
            (map Excel.toRow kept)) as P.
  { unfold Excel.excelData, kept.
    rewrite <- (filter_perm _ _ _ (sort_perm Excel.olderRow _)).
    now rewrite (map_filter_comm Excel.toRow
                   (fun row => negb (JsObject.inherited (key row)))). }
  rewrite S1, S2, S3, (Permutation_length P), length_map.
  rewrite (sumList_perm Excel.TotalPaid _ _ P), (sumList_perm Excel.Tax _ _ P).
  rewrite !sumList_map. cbn [sumBy sumCount fold_right]. rewrite !Qplus_0_l.
  split; [reflexivity |]. split; [| reflexivity].
  apply sumList_ext. intros r _. unfold Excel.toRow. cbn [Excel.Tax].
  now rewrite export_tax.
Qed.

Lemma sheet_of_entries (o es : list (string * Totals.t)) :
  Permutation es o ->
  (sumList SummaryRow.TotalPaid (map SummaryRow.ofEntry es)
     == sumBy Totals.amount o)%Q /\
  (sumList SummaryRow.Tax (map SummaryRow.ofEntry es) == sumBy Totals.tax o)%Q /\
  sumReceipts (map SummaryRow.ofEntry es) = sumCount o.
Proof.
  intros P. rewrite sumReceipts_ofEntry, !sumList_map, (sumCount_perm _ _ P).
  rewrite !sumBy_sumList.
  rewrite <- (sumList_perm (fun kv => Totals.amount (snd kv)) _ _ P).
  rewrite <- (sumList_perm (fun kv => Totals.tax (snd kv)) _ _ P).
  repeat split; reflexivity.
Qed.

(** X15: in the Excel export the "Monthly Summary" sheet accounts for
    every exported record: its Total Paid column adds up to the sum of the
    stored amounts, its Tax column to the sum of the taxes of [getTax], its
    Receipts column to the number of records.  The "Category Summary"
    sheet accounts in the same way for the records whose category is not
    the name of a member of Object.prototype, and for no others. *)
Theorem excel_summary_sheets {eng : Engine} (receipts : list Receipt) :
  let monthly := Excel.monthlySummaryData receipts in
  let byCategory := Excel.categorySummaryData receipts in
  let kept := filter (fun r => negb (JsObject.inherited (category r))) receipts in
  ((sumList SummaryRow.TotalPaid monthly
      == sumOver (fun r => Number (amount r)) receipts)%Q /\
   (sumList SummaryRow.Tax monthly == sumOver getTax receipts)%Q /\
   sumReceipts monthly = Z.of_nat (List.length receipts)) /\
  ((sumList SummaryRow.TotalPaid byCategory
      == sumOver (fun r => Number (amount r)) kept)%Q /\
   (sumList SummaryRow.Tax byCategory == sumOver getTax kept)%Q /\
   sumReceipts byCategory = Z.of_nat (List.length kept)).
Proof.
  intros monthly byCategory kept. split.
  - subst monthly. unfold Excel.monthlySummaryData, Excel.summaryByMonth.
    rewrite Excel_summaryByMonth_fold. cbn [fst].
    destruct (sheet_of_entries _ _
                (Permutation_sym (entries_perm
                   (fold_left (fun o row =>
                      addTotals (Excel.MonthYear row) (Excel.TotalPaid row)
                                (Excel.Tax row) o)
                      (Excel.excelData receipts) []))))
      as (-> & -> & ->).
    pose proof (Excel_sheet_sums Excel.MonthYear receipts) as S.
    cbv zeta in S. rewrite filter_all in S; [exact S |].
    intros r _. unfold Excel.toRow. cbn [Excel.MonthYear].
    now rewrite monthYearOf_own.
  - subst byCategory.
    unfold Excel.categorySummaryData, Excel.sortedCategoryEntries,
      Excel.summaryByCategory.
    rewrite Excel_summaryByCategory_fold. cbn [snd].
    destruct (sheet_of_entries
                (fold_left (fun o row =>
                   addTotals (Excel.Category row) (Excel.TotalPaid row)
                             (Excel.Tax row) o)
                   (Excel.excelData receipts) [])
                (sort byAmountDesc (JsObject.entries
                   (fold_left (fun o row =>
                      addTotals (Excel.Category row) (Excel.TotalPaid row)
                                (Excel.Tax row) o)
                      (Excel.excelData receipts) []))))
      as (-> & -> & ->).
    { rewrite <- sort_perm. symmetry. apply entries_perm. }
    exact (Excel_sheet_sums Excel.Category receipts).
Qed.

Lemma fold_left_rows {eng : Engine} {S : Type} (f : S -> Excel.Row -> S) (g : S -> Receipt -> S)
  (l : list Receipt) :
  (forall s r, f s (Excel.toRow r) = g s r) ->
  forall s, fold_left f (map Excel.toRow l) s = fold_left g l s.
Proof.
  intros H. induction l as [| r l IH]; intros s; [reflexivity |].
  cbn [map fold_left]. now rewrite H, IH.
Qed.

(** X16: the category table on the cover of the PDF and the "Category
    Summary" sheet of the Excel export, made from the same records, which
    come latest first as [getReceipts] hands them to both exports, show the
    same rows, with the same figures, in the same order; this as long as
    the PDF data can be put together at all (no category is the name of a
    member of Object.prototype) and the engine reads the text it prints in
    the [Date] cell of every record back as the day of that record, so
    that the sort of the Excel rows keeps the order of the records. *)
Theorem export_tables_agree {eng : Engine} (receipts : list Receipt) :
  StronglySorted (fun a b => Date_leb (date b) (date a) = true) receipts ->
  (forall r, In r receipts -> JsObject.inherited (category r) = false) ->
  (forall r, In r receipts -> readsBack r) ->
  exists rep,
    PdfReport.report receipts = Ok rep /\
    map SummaryRow.ofEntry (PdfReport.categoryRows rep) =
      Excel.categorySummaryData receipts.
Proof.
  intros S H RB.
  destruct (report_ok receipts H) as (g & bs & R & _).
  eexists. split; [exact R |]. cbn [PdfReport.categoryRows].
  unfold Excel.categorySummaryData, Excel.sortedCategoryEntries,
    Excel.summaryByCategory, Excel.excelData.
  rewrite Excel_summaryByCategory_fold.
  rewrite (sort_sorted_id _ _ (rows_ordered receipts S RB)). cbn [snd].
  rewrite (fold_left_rows _
             (fun o r => addTotals (category r) (Number (amount r)) (getTax r) o));
    [reflexivity |].
  intros o r. unfold Excel.toRow.
  cbn [Excel.Category Excel.TotalPaid Excel.Tax]. now rewrite export_tax.
Qed.

Lemma export_tables_agree_witness :
  exportPdfReceipts [recA; recB; rec100] Filters.none = Ok [rec100; recB; recA] /\
  exportReceipts [recA; recB; rec100] Filters.none = Ok [rec100; recB; recA] /\
  exists rep,
    PdfReport.report [rec100; recB; recA] = Ok rep /\
    map SummaryRow.ofEntry (PdfReport.categoryRows rep) =
      Excel.categorySummaryData [rec100; recB; recA].
Proof.
  split; [reflexivity |]. split; [reflexivity |].
  apply (export_tables_agree [rec100; recB; recA]).
  - repeat constructor.
  - intros r [<- | [<- | [<- | []]]]; reflexivity.
  - intros r [<- | [<- | [<- | []]]]; reflexivity.
Defined.

(** ** The date range, instant by instant *)

Lemma conditions_withYearMonth {eng : Engine} (f : Filters.t)
  (year month : option string) :
  truthy (Filters.startDate f) <> None \/ truthy (Filters.endDate f) <> None ->
  dateConditions (withYearMonth f year month) = dateConditions f /\
  conditions (withYearMonth f year month) = conditions f.
Proof.
  intros H.
  assert (dateConditions (withYearMonth f year month) = dateConditions f) as E.
  { rewrite (dateConditions_range f H).
    now rewrite (dateConditions_range (withYearMonth f year month) H). }
  split; [exact E |]. unfold conditions. now rewrite E.
Qed.

Lemma makeDay_midnight (y : Z) (m : Month) (d : Z) : msOfDay (makeDay y m d) = 0.
Proof. unfold makeDay. now destruct (d <=? daysInMonth y m). Qed.

(** A date of the date-only form is read as the first instant of a day. *)
Lemma newDate_midnight (s : string) (d : Date) :
  newDate s = Some d -> msOfDay d = 0.
Proof.
  unfold newDate.
  destruct (list_ascii_of_string s)
    as [| ? [| ? [| ? [| ? [| ? [| ? [| ? [| ? [| ? [| ? [| ? ?]]]]]]]]]]];
    try discriminate.
  repeat match goal with
         | |- context [match digit ?c with _ => _ end] =>
             destruct (digit c); try discriminate
         end.
  match goal with
  | |- context [if ?b then _ else _] => destruct b; try discriminate
  end.
  destruct (monthOfIndex _); [| discriminate].
  intros H. injection H as H. subst d. apply makeDay_midnight.
Qed.

(** Reads a quantified date bound at the date that was parsed. *)
Ltac at_parsed_date :=
  let Hd := fresh "Hd" in
  intros ? ? [= <-] Hd;
  match goal with
  | E : parseDate ?s = Some _, Hd : parseDate ?s = Some _ |- _ =>
      rewrite E in Hd; injection Hd as <-; assumption
  end.

(** X20: with a start date or an end date, each of which [new Date] reads,
    the selection compares instants.  It keeps exactly the records, among
    those the user, category and search filters let through, that are not
    dated before the instant the start date is read as, if one is given,
    nor after the instant the end date is read as, if one is given; the
    year and the month of the filter play no part.  An end date of the
    date-only form is read as the first instant of its day, so that of the
    records of that day only those dated at that instant are kept. *)
Theorem getReceipts_range_instants {eng : Engine} (db : list Receipt) (f : Filters.t) :
  truthy (Filters.startDate f) <> None \/ truthy (Filters.endDate f) <> None ->
  (forall s, truthy (Filters.startDate f) = Some s -> parseDate s <> None) ->
  (forall s, truthy (Filters.endDate f) = Some s -> parseDate s <> None) ->
  exists l,
    getReceipts db f = Ok l /\
    (forall r, In r l <->
       In r db /\
       (forall s d, truthy (Filters.startDate f) = Some s ->
                    parseDate s = Some d -> Date_leb d (date r) = true) /\
       (forall s d, truthy (Filters.endDate f) = Some s ->
                    parseDate s = Some d -> Date_leb (date r) d = true) /\
       matchesUser f r /\ matchesCategory f r /\ matchesSearch f r) /\
    (forall year month, getReceipts db (withYearMonth f year month) = Ok l) /\
    (forall s d r, truthy (Filters.endDate f) = Some s -> newDate s = Some d ->
       In r l -> dayOf (date r) = d -> msOfDay (date r) <= 0).
Proof.
  intros Hset Hs He.
  set (inRange := fun r : Receipt =>
         (forall s d, truthy (Filters.startDate f) = Some s ->
                      parseDate s = Some d -> Date_leb d (date r) = true) /\
         (forall s d, truthy (Filters.endDate f) = Some s ->
                      parseDate s = Some d -> Date_leb (date r) d = true)).
  assert (checkAll (dateConditions f) = Ok tt /\
          forall r, forallb (holds r) (dateConditions f) = true <-> inRange r)
    as [C H].
  { rewrite (dateConditions_range f Hset). subst inRange. cbv beta.
    destruct (truthy (Filters.startDate f)) as [s |];
      destruct (truthy (Filters.endDate f)) as [e |]; simpl.
    - specialize (Hs s eq_refl). specialize (He e eq_refl).
      destruct (parseDate s) as [ds |] eqn:Es; [| congruence].
      destruct (parseDate e) as [de |] eqn:Ee; [| congruence].
      split; [reflexivity |]. intros r. rewrite andb_true_r, andb_true_iff.
      split.
      + intros [H1 H2]. split; at_parsed_date.
      + intros [H1 H2]. split; [now apply (H1 s) | now apply (H2 e)].
    - specialize (Hs s eq_refl).
      destruct (parseDate s) as [ds |] eqn:Es; [| congruence].
      split; [reflexivity |]. intros r. rewrite andb_true_r. split.
      + intros H1. split; [at_parsed_date | discriminate].
      + intros [H1 _]. now apply (H1 s).
    - specialize (He e eq_refl).
      destruct (parseDate e) as [de |] eqn:Ee; [| congruence].
      split; [reflexivity |]. intros r. rewrite andb_true_r. split.
      + intros H2. split; [discriminate | at_parsed_date].
      + intros [_ H2]. now apply (H2 e).
    - split; [reflexivity |]. intros r. split; [| reflexivity].
      intros _. split; discriminate. }
  exists (sort olderThan (filter (fun r => forallb (holds r) (conditions f)) db)).
  assert (forall r,
            In r (sort olderThan
                    (filter (fun r => forallb (holds r) (conditions f)) db)) <->
            In r db /\ inRange r /\
            matchesUser f r /\ matchesCategory f r /\ matchesSearch f r) as M.
  { intros r. rewrite In_selected, holds_conditions, H. tauto. }
  split; [| split; [| split]].
  - rewrite getReceipts_checked, C. reflexivity.
  - intros r. rewrite M. subst inRange. cbv beta. tauto.
  - intros year month.
    destruct (conditions_withYearMonth f year month Hset) as [E1 E2].
    rewrite getReceipts_checked, E1, E2, C. reflexivity.
  - intros s d r Hse Hd Hr Hday. apply M in Hr.
    destruct Hr as (_ & [_ Hup] & _).
    specialize (Hup s d Hse (parseDate_iso _ _ Hd)).
    pose proof (newDate_midnight s d Hd) as Z0.
    subst d. unfold Date_leb, dayOf in Hup.
    cbn [getFullYear getMonth getDate msOfDay] in Hup.
    rewrite !orb_true_iff, !andb_true_iff, !orb_true_iff, !andb_true_iff,
      !orb_true_iff, !andb_true_iff, !Z.ltb_lt, !Z.eqb_eq, !Z.leb_le in Hup.
    lia.
Qed.

Lemma getReceipts_range_instants_witness :
  exists l,
    getReceipts [recLate; recB; recA]
      (filterRange (Some "2024-02-01"%string) (Some "2024-02-10"%string)) = Ok l /\
    map id l = [2] /\
    getReceipts [recLate; recB; recA]
      (withYearMonth
         (filterRange (Some "2024-02-01"%string) (Some "2024-02-10"%string))
         (Some "2023"%string) (Some "01"%string)) = Ok l.
Proof.
  destruct (getReceipts_range_instants [recLate; recB; recA]
              (filterRange (Some "2024-02-01"%string) (Some "2024-02-10"%string)))
    as (l & E & _ & Y & _).
  - left. discriminate.
  - intros s [= <-]. discriminate.
  - intros s [= <-]. discriminate.
  - exists l. split; [exact E |]. split; [| apply Y].
    vm_compute in E. injection E as <-. reflexivity.
Defined.

(** ** The cards of the dashboard *)

Lemma filter_head {A : Type} (p : A -> bool) (l : list A) (x : A) (t : list A) :
  filter p l = x :: t ->
  exists l1 l2, l = l1 ++ x :: l2 /\ (forall y, In y l1 -> p y = false).
Proof.
  induction l as [| y l IH]; simpl; [discriminate |].
  destruct (p y) eqn:E.
  - intros [= -> _]. exists [], l. split; [reflexivity | intros ? []].
  - intros H. destruct (IH H) as (l1 & l2 & -> & F).
    exists (y :: l1), l2. split; [reflexivity |].
    intros z [<- | Hz]; [exact E | now apply F].
Qed.

Lemma byTotalDesc_sort (l : list (string * Bucket.t)) :
  nonIncreasing Bucket.total (sort StatsCards.byTotalDesc l) /\
  (forall v, withTotal Bucket.total v (sort StatsCards.byTotalDesc l) =
             withTotal Bucket.total v l).
Proof.
  split.
  - unfold nonIncreasing.
    apply StronglySorted_impl
      with (R := fun a b => StatsCards.byTotalDesc a b = false).
    + intros a b. unfold StatsCards.byTotalDesc. now rewrite Qlt_bool_false.
    + apply sort_sorted; unfold StatsCards.byTotalDesc.
      * intros a b c. rewrite !Qlt_bool_false. intros; eapply Qle_trans; eauto.
      * intros a b H. apply Qlt_bool_false.
        destruct (Qlt_le_dec (Bucket.total (snd a)) (Bucket.total (snd b)))
          as [L | L]; [now apply Qlt_le_weak |].
        apply Qlt_bool_false in L. congruence.
  - intros v. unfold withTotal. apply sort_stable.
    intros x y Hx Hy. apply Qeq_bool_iff in Hx, Hy.
    unfold StatsCards.byTotalDesc. apply Qlt_bool_false. rewrite Hx, Hy.
    apply Qle_refl.
Qed.

(** X17: the "Top Category" card shows "No Data" only for an empty
    breakdown; otherwise it shows a category of the breakdown whose total
    no other category exceeds, and among categories of that same total the
    one that comes first in the breakdown. *)
Theorem topCategory_largest (categoryBreakdown : list (string * Bucket.t)) :
  match StatsCards.topCategory categoryBreakdown with
  | None => categoryBreakdown = []
  | Some top =>
      exists before after,
        categoryBreakdown = before ++ top :: after /\
        (forall kv, In kv before ->
                    (Bucket.total (snd kv) < Bucket.total (snd top))%Q) /\
        (forall kv, In kv after ->
                    (Bucket.total (snd kv) <= Bucket.total (snd top))%Q)
  end.
Proof.
  unfold StatsCards.topCategory.
  destruct (byTotalDesc_sort categoryBreakdown) as [S T].
  pose proof (sort_perm StatsCards.byTotalDesc categoryBreakdown) as P.
  destruct (sort StatsCards.byTotalDesc categoryBreakdown) as [| top rest] eqn:E;
    cbn [hd_error].
  - now apply Permutation_sym, Permutation_nil in P.
  - specialize (T (Bucket.total (snd top))). unfold withTotal in T.
    cbn [filter] in T. rewrite (Qeq_bool_refl (Bucket.total (snd top))) in T.
    symmetry in T. destruct (filter_head _ _ _ _ T) as (before & after & -> & F).
    inversion S as [| ? ? _ L]; subst. rewrite Forall_forall in L.
    assert (forall kv, In kv (before ++ top :: after) ->
                       (Bucket.total (snd kv) <= Bucket.total (snd top))%Q) as M.
    { intros kv H. apply (Permutation_in kv P) in H.
      destruct H as [<- | H]; [apply Qle_refl | now apply L]. }
    exists before, after. split; [reflexivity |]. split.
    + intros kv H.
      assert (Bucket.total (snd kv) <= Bucket.total (snd top))%Q as M'
        by (apply M, in_or_app; now left).
      apply Qle_lteq in M'. destruct M' as [M' | M']; [exact M' |].
      apply Qeq_bool_iff in M'. rewrite (F kv H) in M'. discriminate.
    + intros kv H. apply M. apply in_or_app. right. now right.
Qed.

(** ** The months of the ledger *)

Lemma labelReadBack_all :
  forallb (fun n => forallb (labelReadBack (Z.of_nat n)) allMonths)
          (seq 1000 (Z.to_nat 9000)) = true.
Proof. vm_compute. reflexivity. Qed.

Lemma monthIndex_inj (m1 m2 : Month) : monthIndex m1 = monthIndex m2 -> m1 = m2.
Proof. destruct m1, m2; simpl; intros H; (reflexivity || discriminate H). Qed.

Lemma monthIndex_range (m : Month) : 0 <= monthIndex m < 12.
Proof. destruct m; simpl; lia. Qed.

(** A month label of a four-digit year is read back as the first day of
    that month. *)
Lemma labelDate_monthYearOf (d : Date) :
  1000 <= getFullYear d <= 9999 ->
  PdfReport.labelDate (monthYearOf d) =
    Some (mkDate (getFullYear d) (getMonth d) 1 0).
Proof.
  intros Y. pose proof labelReadBack_all as A.
  rewrite forallb_forall in A.
  specialize (A (Z.to_nat (getFullYear d))).
  rewrite Z2Nat.id in A by lia.
  assert (In (Z.to_nat (getFullYear d)) (seq 1000 (Z.to_nat 9000))) as I
    by (apply in_seq; lia).
  apply A in I. rewrite forallb_forall in I.
  specialize (I (getMonth d)).
  assert (In (getMonth d) allMonths) as M
    by (destruct (getMonth d); simpl; tauto).
  apply I in M. unfold labelReadBack in M.
  change (monthYearOf (mkDate (getFullYear d) (getMonth d) 1 0))
    with (monthYearOf d) in M.
  destruct (PdfReport.labelDate (monthYearOf d)) as [[y m dd ms] |];
    [| discriminate].
  cbn [getFullYear getMonth getDate msOfDay] in M.
  rewrite !andb_true_iff, !Z.eqb_eq in M.
  destruct M as (((-> & Hm) & ->) & ->). apply monthIndex_inj in Hm.
  now subst m.
Qed.

Lemma labelOrdinal_monthYearOf (d : Date) :
  1000 <= getFullYear d <= 9999 ->
  labelOrdinal (monthYearOf d) = monthOrdinal d.
Proof.
  intros Y. unfold labelOrdinal. now rewrite labelDate_monthYearOf.
Qed.

(** Labels of the same month are the same label. *)
Lemma monthYearOf_ordinal (d1 d2 : Date) :
  monthOrdinal d1 = monthOrdinal d2 -> monthYearOf d1 = monthYearOf d2.
Proof.
  unfold monthOrdinal, monthYearOf. intros H.
  pose proof (monthIndex_range (getMonth d1)).
  pose proof (monthIndex_range (getMonth d2)).
  assert (getFullYear d1 = getFullYear d2) as -> by lia.
  assert (getMonth d1 = getMonth d2) as -> by (apply monthIndex_inj; lia).
  reflexivity.
Qed.

(** On labels of four-digit years the comparison of the export is the
    comparison of the months. *)
Lemma laterLabel_ordinal (d1 d2 : Date) :
  1000 <= getFullYear d1 <= 9999 -> 1000 <= getFullYear d2 <= 9999 ->
  PdfReport.laterLabel (monthYearOf d1) (monthYearOf d2) =
    (monthOrdinal d2 <? monthOrdinal d1).
Proof.
  intros Y1 Y2. unfold PdfReport.laterLabel.
  rewrite !labelDate_monthYearOf by assumption.
  unfold Date_ltb, Date_leb, monthOrdinal.
  cbn [getFullYear getMonth getDate msOfDay].
  pose proof (monthIndex_range (getMonth d1)).
  pose proof (monthIndex_range (getMonth d2)).
  apply eq_true_iff_eq.
  rewrite negb_true_iff, <- not_true_iff_false.
  rewrite !orb_true_iff, !andb_true_iff, !orb_true_iff, !andb_true_iff,
    !orb_true_iff, !andb_true_iff, !Z.ltb_lt, !Z.eqb_eq, !Z.leb_le.
  lia.
Qed.

Section SortOn.
Context {A : Type} (after after' : A -> A -> bool).

Lemma insertSorted_ext (x : A) (l : list A) :
  (forall y, In y l -> after x y = after' x y) ->
  insertSorted after x l = insertSorted after' x l.
Proof.
  induction l as [| y l IH]; intros H; [reflexivity |].
  cbn [insertSorted]. rewrite (H y) by now left.
  destruct (after' x y); [| reflexivity].
  rewrite IH; [reflexivity |]. intros z Hz. apply H. now right.
Qed.

Lemma sort_ext (l : list A) :
  (forall x y, In x l -> In y l -> after x y = after' x y) ->
  sort after l = sort after' l.
Proof.
  induction l as [| x l IH]; intros H; [reflexivity |].
  cbn [sort]. rewrite IH by (intros y z Hy Hz; apply H; now right).
  apply insertSorted_ext. intros y Hy. apply H; [now left |].
  right. now apply (sort_In after' l y).
Qed.
End SortOn.

Lemma StronglySorted_strict {A : Type} (R R' : A -> A -> Prop) (l : list A) :
  StronglySorted R l -> NoDup l ->
  (forall a b, In a l -> In b l -> R a b -> a <> b -> R' a b) ->
  StronglySorted R' l.
Proof.
  induction 1 as [| x l S IH F]; intros N H; [constructor |].
  inversion N as [| ? ? Hx N']; subst.
  constructor.
  - apply IH; [exact N' |]. intros a b Ha Hb. apply H; now right.
  - rewrite Forall_forall in *. intros y Hy.
    apply H; [now left | now right | now apply F |].
    intros ->. contradiction.
Qed.

(** X18: when the exported records bear four-digit years (and no category
    is the name of a member of Object.prototype), the ledger of the PDF has
    one heading for each month in which there is a record and no other,
    and the headings follow each other in the order of time, the earliest
    month first. *)
Theorem pdf_months_chronological (receiptsData : list Receipt) :
  (forall r, In r receiptsData -> JsObject.inherited (category r) = false) ->
  (forall r, In r receiptsData -> 1000 <= getFullYear (date r) <= 9999) ->
  exists rep,
    PdfReport.report receiptsData = Ok rep /\
    StronglySorted (fun a b => labelOrdinal a < labelOrdinal b)
      (map PdfReport.blockMonth (PdfReport.ledger rep)) /\
    (forall k, In k (map PdfReport.blockMonth (PdfReport.ledger rep)) <->
               exists r, In r receiptsData /\ monthYearOf (date r) = k) /\
    (forall r, In r receiptsData ->
               labelOrdinal (monthYearOf (date r)) = monthOrdinal (date r)).
Proof.
  intros H Y.
  destruct (report_ok receiptsData H) as (g & bs & E & N & K & Sm & _).
  eexists. split; [exact E |]. cbn [PdfReport.ledger]. rewrite Sm.
  assert (Permutation (PdfReport.sortedMonths g) (map fst g)) as PM.
  { unfold PdfReport.sortedMonths. rewrite <- sort_perm. apply keys_perm. }
  assert (forall k, In k (PdfReport.sortedMonths g) <->
                    exists r, In r receiptsData /\ monthYearOf (date r) = k) as K'.
  { intros k. rewrite <- K. split; apply Permutation_in;
      [exact PM | symmetry; exact PM]. }
  split; [| split; [exact K' |]];
    [| intros r Hr; apply labelOrdinal_monthYearOf, Y, Hr].
  set (after' := fun a b : string => labelOrdinal b <? labelOrdinal a).
  assert (PdfReport.sortedMonths g = sort after' (JsObject.keys g)) as ES.
  { unfold PdfReport.sortedMonths. apply sort_ext. intros a b Ha Hb.
    apply (Permutation_in _ (keys_perm g)), K in Ha, Hb.
    destruct Ha as (ra & Hra & <-), Hb as (rb & Hrb & <-).
    unfold after'.
    rewrite !labelOrdinal_monthYearOf by (apply Y; assumption).
    apply laterLabel_ordinal; apply Y; assumption. }
  apply StronglySorted_strict with (R := fun a b => after' a b = false).
  - rewrite ES. apply sort_sorted; unfold after'.
    + intros a b c. rewrite !Z.ltb_ge. lia.
    + intros a b. rewrite Z.ltb_lt, Z.ltb_ge. lia.
  - apply (Permutation_NoDup (Permutation_sym PM) N).
  - intros a b Ha Hb R Hab. apply K' in Ha, Hb.
    destruct Ha as (ra & Hra & <-), Hb as (rb & Hrb & <-).
    unfold after' in R. rewrite Z.ltb_ge in R.
    rewrite !labelOrdinal_monthYearOf in * by (apply Y; assumption).
    destruct (Z.eq_dec (monthOrdinal (date ra)) (monthOrdinal (date rb)))
      as [Q | Q]; [| lia].
    apply monthYearOf_ordinal in Q. contradiction.
Qed.

Lemma pdf_months_chronological_witness :
  exists rep,
    PdfReport.report [rec100; recB; recA] = Ok rep /\
    map PdfReport.blockMonth (PdfReport.ledger rep) =
      ["January 2024"; "February 2024"; "March 2024"]%string.
Proof.
  destruct (pdf_months_chronological [rec100; recB; recA])
    as (rep & E & _).
  - intros r [<- | [<- | [<- | []]]]; reflexivity.
  - intros r [<- | [<- | [<- | []]]]; simpl; lia.
  - exists rep. split; [exact E |].
    vm_compute in E. injection E as <-. reflexivity.
Defined.

(** ** The "This Month" card *)

Lemma find_get {V : Type} (k : string) (m : list (string * V)) :
  find (fun kv => String.eqb (fst kv) k) m =
  match JsMap.get k m with
  | Some v => Some (k, v)
  | None => None
  end.
Proof.
  induction m as [| [k' v'] m IH]; [reflexivity |].
  cbn [find JsMap.get fst]. rewrite (String.eqb_sym k' k).
  destruct (String.eqb k k') eqn:E; [| exact IH].
  apply String.eqb_eq in E. now subst.
Qed.

(** X19: the "This Month" card shows, for a month named in English, the
    sum of the amounts of the year's records of that month; for any other
    label, as a browser of another language gives, it shows 0. *)
Theorem currentMonthTotal_sum {eng : Engine} (db : list Receipt) (user : option string)
  (year : string) (d1 d2 : Date) :
  newDate (year ++ "-01-01") = Some d1 ->
  newDate (year ++ "-12-31") = Some d2 ->
  exists stats yearReceipts,
    getReceiptStats db user year = Ok stats /\
    (forall r, In r yearReceipts <-> In r db /\ inYear d1 d2 user r) /\
    (forall m,
        (StatsCards.currentMonthTotal (monthName m) (monthlyBreakdown stats)
         == sumOver (fun r => Number (amount r))
                    (filter (inMonth m) yearReceipts))%Q) /\
    (forall label, (forall m, monthName m <> label) ->
        StatsCards.currentMonthTotal label (monthlyBreakdown stats) = 0%Q).
Proof.
  intros H1 H2.
  destruct (getReceiptStats_selects db user year d1 d2 H1 H2) as (l & E & M).
  destruct (receiptStats_buckets l) as (stats & R & B & _).
  destruct (receiptStats_ok l) as (stats' & R' & K & _).
  rewrite R in R'. injection R' as <-.
  exists stats, l. rewrite E.
  split; [exact R |]. split; [exact M |]. split.
  - intros m. destruct (B m) as (b & cats & G & _ & -> & _).
    unfold StatsCards.currentMonthTotal. rewrite find_get, G. cbn [snd].
    destruct (addReceipt_sums (filter (inMonth m) l) Bucket.zero) as [S _].
    rewrite S. simpl. ring.
  - intros label Hl. unfold StatsCards.currentMonthTotal. rewrite find_get.
    destruct (JsMap.get label (monthlyBreakdown stats)) eqn:G; [| reflexivity].
    exfalso.
    assert (In label (map fst (monthlyBreakdown stats))) as I
      by (apply JsMap_get_keys; congruence).
    rewrite K in I. apply in_map_iff in I. destruct I as (m & Hm & _).
    exact (Hl m Hm).
Qed.

Lemma currentMonthTotal_sum_witness :
  exists stats,
    getReceiptStats [recA; recB; rec100] None "2024" = Ok stats /\
    (StatsCards.currentMonthTotal "January" (monthlyBreakdown stats) == 105)%Q /\
    StatsCards.currentMonthTotal "janvier" (monthlyBreakdown stats) = 0%Q.
Proof.
  destruct (currentMonthTotal_sum [recA; recB; rec100] None "2024"
              (mkDate 2024 Jan 1 0) (mkDate 2024 Dec 31 0) eq_refl eq_refl)
    as (stats & l & E & M & S & Z0).
  exists stats. split; [exact E |]. split.
  - vm_compute in E. injection E as <-. reflexivity.
  - apply Z0. intros m. destruct m; discriminate.
Defined.
